(** * Helmet-Detection-YoloV8: the inference pipeline and the serving shell

    A shallow embedding of [Inference.py] (model resolution, image, video,
    webcam and batch inference, the command-line entry point) and of the
    request handlers of [Api.py], together with the properties of the
    repository's specification that concern them.

    Conventions of the embedding.
    - A [pathlib.Path] is the list of its components; the pure path
      operations ([name], [stem], [/], [str]) work on that list.
    - The file system, the standard output and the OpenCV handles live in a
      [World] that every operation threads explicitly; a Python exception is
      the [Raise] outcome of the [M] monad and leaves the world as it was
      when the exception was raised.
    - The detector (ultralytics [YOLO]) is an opaque collaborator: a
      [Model] record carries its [predict] behaviour. *)

From Stdlib Require Import QArith Ascii Sorted.
From stdpp Require Import gmap strings list fin_maps pretty.

Open Scope Z_scope.

(* ===================================================================== *)
(** ** Strings: [str.upper], [fnmatch], [str.rfind] *)
(* ===================================================================== *)

Module Str.

(** [str.upper] on one character: ASCII lower-case letters are shifted to
    upper case, every other character is kept. *)
Definition upper_ascii (c : ascii) : ascii :=
  let n := Ascii.nat_of_ascii c in
  if ((97 <=? n)%nat && (n <=? 122)%nat)%bool
  then Ascii.ascii_of_nat (n - 32) else c.

Fixpoint upper (s : string) : string :=
  match s with
  | EmptyString => EmptyString
  | String c s' => String (upper_ascii c) (upper s')
  end.

Definition lower_ascii (c : ascii) : ascii :=
  let n := Ascii.nat_of_ascii c in
  if ((65 <=? n)%nat && (n <=? 90)%nat)%bool
  then Ascii.ascii_of_nat (n + 32) else c.

Fixpoint lower (s : string) : string :=
  match s with
  | EmptyString => EmptyString
  | String c s' => String (lower_ascii c) (lower s')
  end.

(** The wildcard match that [Path.glob] applies to one directory entry, for
    patterns made of literal characters and [*] (the only patterns of the
    program); matching is case-sensitive, as on a POSIX file system. *)
Fixpoint fnmatch (pat : string) : string -> bool :=
  match pat with
  | EmptyString =>
      fun name => match name with EmptyString => true | _ => false end
  | String c pat' =>
      if Ascii.eqb c "*"%char then
        fix star (name : string) : bool :=
          fnmatch pat' name
          || match name with
             | EmptyString => false
             | String _ name' => star name'
             end
      else
        fun name =>
          match name with
          | EmptyString => false
          | String d name' => Ascii.eqb c d && fnmatch pat' name'
          end
  end.

(** [s.rfind(c)]: the index of the last occurrence of [c], [None] for -1. *)
Fixpoint rfind (c : ascii) (s : string) : option nat :=
  match s with
  | EmptyString => None
  | String d s' =>
      match rfind c s' with
      | Some i => Some (S i)
      | None => if Ascii.eqb c d then Some 0%nat else None
      end
  end.

End Str.

(* ===================================================================== *)
(** ** [pathlib]: pure paths as component lists *)
(* ===================================================================== *)

Abbreviation Path := (list string).

Module Pathlib.

(** [p.name]: the final component, the empty string for the empty path. *)
Definition name (p : Path) : string := List.last p EmptyString.

(** [p.suffix]: the part of the name from its last dot, when that dot is
    neither the first nor the last character of the name. *)
Definition suffix (p : Path) : string :=
  let n := name p in
  match Str.rfind "."%char n with
  | Some i =>
      if ((0 <? i)%nat && (i <? String.length n - 1)%nat)%bool
      then String.substring i (String.length n - i) n
      else EmptyString
  | None => EmptyString
  end.

(** [p.stem]: the name without its suffix. *)
Definition stem (p : Path) : string :=
  let n := name p in
  match Str.rfind "."%char n with
  | Some i =>
      if ((0 <? i)%nat && (i <? String.length n - 1)%nat)%bool
      then String.substring 0 i n
      else n
  | None => n
  end.

(** [p / child] *)
Definition child (p : Path) (c : string) : Path := p ++ [c].

(** [p.parent] *)
Definition parent (p : Path) : Path := List.removelast p.

(** [str(p)] *)
Definition str (p : Path) : string :=
  match p with
  | [] => "."
  | _ => String.concat "/" p
  end.

End Pathlib.

(* ===================================================================== *)
(** ** Values: images, detections, exceptions *)
(* ===================================================================== *)

(** A decoded image ([numpy] array of shape height x width x 3). *)
Record Image := mkImage {
  img_height : nat;
  img_width : nat;
  img_pixels : list (N * N * N)
}.

(** [cv2.cvtColor(img, cv2.COLOR_RGB2BGR)]: the first and third channel of
    every pixel are exchanged. *)
Definition cvtColor_RGB2BGR (img : Image) : Image :=
  {| img_height := img_height img;
     img_width := img_width img;
     img_pixels := (fun px => match px with (r, g, b) => (b, g, r) end)
                     <$> img_pixels img |}.

(** One entry of [results.boxes]. *)
Record Box := mkBox {
  box_cls : nat;
  box_conf : Q;
  box_xyxy : list Q
}.

(** The first element of what [model.predict] returns. *)
Record Results := mkResults {
  boxes : list Box;
  names : gmap nat string;
  plot : Image
}.

(** The exceptions of the program.  [LibraryError] stands for any
    [Exception] raised inside ultralytics or OpenCV; [KeyboardInterrupt]
    is the one exception here that does not derive from [Exception]. *)
Inductive Exn :=
| FileNotFoundError (msg : string)
| FileExistsError (p : Path)
| LibraryError (msg : string)
| KeyError (k : nat)
| KeyboardInterrupt.

Definition is_Exception (e : Exn) : bool :=
  match e with
  | KeyboardInterrupt => false
  | _ => true
  end.

Inductive Result (A : Type) :=
| Ok (a : A)
| Raise (e : Exn).
Arguments Ok {A} a.
Arguments Raise {A} e.

(* ===================================================================== *)
(** ** The file system *)
(* ===================================================================== *)

Record VideoProps := mkVideoProps {
  vp_fps : Q;
  vp_width : Z;
  vp_height : Z;
  vp_frame_count : Z
}.

(** File contents, typed by what the codecs make of them. *)
Inductive Data :=
| Bytes (b : list N)
| Picture (img : Image)
| Video (props : VideoProps) (frames : list Image).

Record File := mkFile {
  f_mtime : Z;
  f_data : Data
}.

(** Directories map to their entries in the order in which the operating
    system lists them; files map to their contents.  The empty path is the
    current directory, which always exists. *)
Record FS := mkFS {
  fs_dirs : gmap Path (list string);
  fs_files : gmap Path File
}.

Module Fs.

Definition is_dir (fs : FS) (p : Path) : bool :=
  bool_decide (p = []) || bool_decide (is_Some (fs_dirs fs !! p)).

Definition is_file (fs : FS) (p : Path) : bool :=
  bool_decide (is_Some (fs_files fs !! p)).

(** [p.exists()] *)
Definition exists_ (fs : FS) (p : Path) : bool := is_dir fs p || is_file fs p.

(** The entries of a directory, in listing order. *)
Definition listdir (fs : FS) (p : Path) : list string :=
  default [] (fs_dirs fs !! p).

(** Entering a name into its parent's listing, once. *)
Definition add_entry (n : string) (entries : list string) : list string :=
  if bool_decide (n ∈ entries) then entries else entries ++ [n].

Definition link (p : Path) (dirs : gmap Path (list string))
  : gmap Path (list string) :=
  alter (add_entry (Pathlib.name p)) (Pathlib.parent p) dirs.

(** [list(p.glob(pat))]: the entries of [p] that match, as children of [p],
    in listing order. *)
Definition glob (fs : FS) (p : Path) (pat : string) : list Path :=
  Pathlib.child p <$> filter (fun n => Str.fnmatch pat n = true) (listdir fs p).

Section Times.

(** The modification time of a directory is the operating system's record;
    it is not derived from the listing. *)
Variable dir_mtime : Path -> Z.

(** [os.path.getmtime(p)] and [p.stat().st_mtime]: the time of a regular
    file or of a directory; [FileNotFoundError] for a name with nothing
    behind it, as for a listed link whose target is gone (of the message
    only the path is kept). *)
Definition getmtime (fs : FS) (p : Path) : Result Z :=
  match fs_files fs !! p with
  | Some f => Ok (f_mtime f)
  | None =>
      if is_dir fs p then Ok (dir_mtime p)
      else Raise (FileNotFoundError (Pathlib.str p))
  end.

End Times.

(** One level of [mkdir(exist_ok=True)]. *)
Definition mkdir1 (p : Path) (fs : FS) : Result FS :=
  match fs_files fs !! p with
  | Some _ => Raise (FileExistsError p)
  | None =>
      if is_dir fs p then Ok fs
      else Ok {| fs_dirs := <[p := []]> (link p (fs_dirs fs));
                 fs_files := fs_files fs |}
  end.

(** [p.mkdir(parents=True, exist_ok=True)], from the outermost missing
    ancestor inwards; [done] is the prefix already ensured. *)
Fixpoint mkdir_from (done : Path) (rest : list string) (fs : FS) : Result FS :=
  match rest with
  | [] => Ok fs
  | c :: rest' =>
      match mkdir1 (done ++ [c]) fs with
      | Ok fs' => mkdir_from (done ++ [c]) rest' fs'
      | Raise e => Raise e
      end
  end.

Definition mkdir_p (p : Path) (fs : FS) : Result FS := mkdir_from [] p fs.

(** Creating or replacing the regular file [p]; it fails, leaving the file
    system as it is, when [p] is a directory or its parent is not one. *)
Definition write_file (p : Path) (now : Z) (d : Data) (fs : FS) : bool * FS :=
  if is_dir fs (Pathlib.parent p) && negb (is_dir fs p) then
    (true, {| fs_dirs := link p (fs_dirs fs);
              fs_files := <[p := mkFile now d]> (fs_files fs) |})
  else (false, fs).

End Fs.

(* ===================================================================== *)
(** ** The world and the monad of effects *)
(* ===================================================================== *)

(** What the program prints; the formatting of numbers is left out. *)
Inductive Msg :=
| MsgDetections (image_name : string) (n : nat)
| MsgSaved (output_path : Path)
| MsgVideoProcessed (frame_count : Z)
| MsgAvgDetections (avg_detections : Q)
| MsgWebcamRunning
| MsgProcessed (n : nat)
| MsgInferenceFailed (e : Exn)
| MsgUsage.

(** Observable events, oldest first. *)
Inductive Event :=
| EvPrint (m : Msg)
| EvCapOpen (opened : bool)
| EvCapRelease
| EvWriterOpen (p : Path) (opened : bool)
| EvWriterRelease
| EvImshow (img : Image)
| EvDestroyAllWindows.

Global Instance Event_eq_dec_release (e : Event) : Decision (e = EvCapRelease).
Proof. destruct e; (by left) || (by right). Defined.

Record World := mkWorld {
  w_fs : FS;
  w_clock : Z;                      (* the time stamped on written files *)
  w_camera : option (list Image);   (* device 0: the frames it will deliver *)
  w_keys : list Z;                  (* what successive [cv2.waitKey] return *)
  w_trace : list Event
}.

Definition M (A : Type) : Type := World -> World * Result A.

Definition ret {A} (a : A) : M A := fun w => (w, Ok a).

Definition raise {A} (e : Exn) : M A := fun w => (w, Raise e).

Definition bind {A B} (m : M A) (k : A -> M B) : M B :=
  fun w =>
    match m w with
    | (w', Ok a) => k a w'
    | (w', Raise e) => (w', Raise e)
    end.

Global Instance M_ret : MRet M := @ret.
Global Instance M_bind : MBind M := fun A B k m => bind m k.

(** [try: body except Exception as e: handler(e)] *)
Definition try_except {A} (body : M A) (handler : Exn -> M A) : M A :=
  fun w =>
    match body w with
    | (w', Ok a) => (w', Ok a)
    | (w', Raise e) =>
        if is_Exception e then handler e w' else (w', Raise e)
    end.

Definition set_fs (fs : FS) (w : World) : World :=
  {| w_fs := fs; w_clock := w_clock w; w_camera := w_camera w;
     w_keys := w_keys w; w_trace := w_trace w |}.

Definition emit (e : Event) : M unit :=
  fun w =>
    ({| w_fs := w_fs w; w_clock := w_clock w; w_camera := w_camera w;
        w_keys := w_keys w; w_trace := w_trace w ++ [e] |}, Ok tt).

Definition print (m : Msg) : M unit := emit (EvPrint m).

(** [Path(p).mkdir(parents=True, exist_ok=True)] *)
Definition mkdir (p : Path) : M unit :=
  fun w =>
    match Fs.mkdir_p p (w_fs w) with
    | Ok fs' => (set_fs fs' w, Ok tt)
    | Raise e => (w, Raise e)
    end.

(** [cv2.imwrite(str(p), img)]: the returned flag tells whether the file
    was written. *)
Definition imwrite (p : Path) (img : Image) : M bool :=
  fun w =>
    match Fs.write_file p (w_clock w) (Picture img) (w_fs w) with
    | (ok, fs') => (set_fs fs' w, Ok ok)
    end.

(** Lifting a pure outcome of a collaborator. *)
Definition lift {A} (r : Result A) : M A := fun w => (w, r).

(** A pure outcome that reads the file system. *)
Definition lift_fs {A} (f : FS -> Result A) : M A := fun w => (w, f (w_fs w)).

(* ===================================================================== *)
(** ** The detector *)
(* ===================================================================== *)

(** A loaded [YOLO] object.  [predict] is called with a path (it then reads
    the file system) or with a decoded frame, and with the confidence and
    overlap thresholds; it returns the first result or raises.  The detector
    is taken to be deterministic. *)
Record Model := mkModel {
  predict_path : Path -> Q -> Q -> FS -> Result Results;
  predict_image : Image -> Q -> Q -> Result Results
}.

(* ===================================================================== *)
(** ** OpenCV handles *)
(* ===================================================================== *)

Record Capture := mkCapture {
  cap_opened : bool;
  cap_props : VideoProps;
  cap_frames : list Image        (* the frames not yet read *)
}.

Definition no_props : VideoProps :=
  {| vp_fps := 0; vp_width := 0; vp_height := 0; vp_frame_count := 0 |}.

Definition closed_capture : Capture :=
  {| cap_opened := false; cap_props := no_props; cap_frames := [] |}.

(** [cv2.VideoCapture(str(p))]: opened when [p] holds a video. *)
Definition open_file (fs : FS) (p : Path) : Capture :=
  match fs_files fs !! p with
  | Some (mkFile _ (Video props frames)) =>
      {| cap_opened := true; cap_props := props; cap_frames := frames |}
  | _ => closed_capture
  end.

Definition VideoCapture_file (p : Path) : M Capture :=
  fun w =>
    let cap := open_file (w_fs w) p in
    (emit (EvCapOpen (cap_opened cap));; ret cap) w.

(** The properties a camera reports: the frame size of what it delivers and
    no frame count. *)
Definition camera_props (frames : list Image) : VideoProps :=
  match frames with
  | [] => no_props
  | f :: _ =>
      {| vp_fps := 30; vp_width := Z.of_nat (img_width f);
         vp_height := Z.of_nat (img_height f); vp_frame_count := 0 |}
  end.

(** [cv2.VideoCapture(0)]: opened when the device is present. *)
Definition open_device0 (camera : option (list Image)) : Capture :=
  match camera with
  | Some frames =>
      {| cap_opened := true; cap_props := camera_props frames;
         cap_frames := frames |}
  | None => closed_capture
  end.

Definition VideoCapture_device0 : M Capture :=
  fun w =>
    let cap := open_device0 (w_camera w) in
    (emit (EvCapOpen (cap_opened cap));; ret cap) w.

(** [int(cap.get(prop))]: truncation of the reported number. *)
Definition int_of_Q (q : Q) : Z := Z.quot (Qnum q) (Z.pos (Qden q)).

(** [cap.read()]: the next frame, or [None] for [ret == False]. *)
Definition cap_read (cap : Capture) : option Image * Capture :=
  if cap_opened cap then
    match cap_frames cap with
    | [] => (None, cap)
    | f :: rest =>
        (Some f, {| cap_opened := true; cap_props := cap_props cap;
                    cap_frames := rest |})
    end
  else (None, cap).

(** [cap.release()] *)
Definition cap_release (cap : Capture) : M unit := emit EvCapRelease.

Record Writer := mkWriter {
  wr_opened : bool;
  wr_path : Path
}.

(** [cv2.waitKey(1)]: the next key code, -1 when no key was pressed. *)
Definition waitKey : M Z :=
  fun w =>
    match w_keys w with
    | [] => (w, Ok (-1))
    | k :: ks =>
        ({| w_fs := w_fs w; w_clock := w_clock w; w_camera := w_camera w;
            w_keys := ks; w_trace := w_trace w |}, Ok k)
    end.

(** [cv2.imshow(title, img)] *)
Definition imshow (img : Image) : M unit := emit (EvImshow img).

(** The frames that successive [cap.read()] calls deliver before the first
    [ret == False]. *)
Definition readable (cap : Capture) : list Image :=
  if cap_opened cap then cap_frames cap else [].

(** A frame fits a stream when it has the width and the height the stream
    was opened with. *)
Definition fits (props : VideoProps) (frame : Image) : bool :=
  (Z.of_nat (img_width frame) =? vp_width props)
  && (Z.of_nat (img_height frame) =? vp_height props).

(** [out.write(frame)]: appends to the file of an opened writer a frame of
    the size the writer was opened with; a frame of another size is dropped
    without any error. *)
Definition writer_write (out : Writer) (frame : Image) : M unit :=
  fun w =>
    if wr_opened out then
      match fs_files (w_fs w) !! wr_path out with
      | Some (mkFile _ (Video props frames)) =>
          if fits props frame then
            (set_fs {| fs_dirs := fs_dirs (w_fs w);
                       fs_files :=
                         <[wr_path out :=
                             mkFile (w_clock w)
                               (Video props (frames ++ [frame]))]>
                           (fs_files (w_fs w)) |} w, Ok tt)
          else (w, Ok tt)
      | _ => (w, Ok tt)
      end
    else (w, Ok tt).

(** [out.release()] *)
Definition writer_release (out : Writer) : M unit := emit EvWriterRelease.

(* ===================================================================== *)
(** ** [Inference.py] *)
(* ===================================================================== *)

Module Inference.

(** The loop of [max] once a first key is known: [best] is the first
    element seen so far whose key [best_key] is greatest. *)
Fixpoint max_from {A} (key : A -> Result Z) (best : A) (best_key : Z)
    (rest : list A) : Result A :=
  match rest with
  | [] => Ok best
  | y :: rest' =>
      match key y with
      | Raise e => Raise e
      | Ok k =>
          if best_key <? k then max_from key y k rest'
          else max_from key best best_key rest'
      end
  end.

(** [max(x :: rest, key=key)]: the key of every element is computed, in
    order, and a key that raises ends the call; the first element whose key
    is greatest is returned. *)
Definition max_by {A} (key : A -> Result Z) (x : A) (rest : list A)
  : Result A :=
  match key x with
  | Raise e => Raise e
  | Ok k => max_from key x k rest
  end.

Section Resolution.

Variable dir_mtime : Path -> Z.

Definition find_latest_model : M Path :=
  fun w =>
    let models_dir : Path := ["models"] in
    if negb (Fs.exists_ (w_fs w) models_dir) then
      raise (FileNotFoundError "No models directory found.") w
    else
      let model_files :=
        Fs.glob (w_fs w) models_dir "helmet_detector_best_*.pt" in
      match model_files with
      | [] => raise (FileNotFoundError "No trained models found.") w
      | f :: rest =>
          lift (max_by (Fs.getmtime dir_mtime (w_fs w)) f rest) w
      end.

End Resolution.

Definition default_conf : Q := 1 # 4.
Definition default_save_dir : Path := ["results"; "inference"].
Definition iou : Q := 1 # 2.

Definition run_inference_image (model : Model) (image_path : Path)
    (conf_threshold : Q) (save_dir : Path) : M (Path * Results) :=
  mkdir save_dir;;
  results ← lift_fs (predict_path model image_path conf_threshold iou);
  let annotated_image := plot results in
  let output_name := Pathlib.stem image_path +:+ "_detected.jpg" in
  let output_path := Pathlib.child save_dir output_name in
  let annotated_bgr := cvtColor_RGB2BGR annotated_image in
  imwrite output_path annotated_bgr;;
  print (MsgDetections (Pathlib.name image_path) (length (boxes results)));;
  print (MsgSaved output_path);;
  mret (output_path, results).

Section OpenCV.

(** Whether the encoder back end accepts a frame rate and a frame size; the
    decision is OpenCV's. *)
Variable encoder_accepts : Z -> Z -> Z -> bool.

(** [cv2.VideoWriter(str(p), fourcc, fps, (width, height))]: an accepted
    writer creates (or truncates) its file at once. *)
Definition VideoWriter (p : Path) (fps width height : Z) : M Writer :=
  fun w =>
    let props := {| vp_fps := inject_Z fps; vp_width := width;
                    vp_height := height; vp_frame_count := 0 |} in
    let '(ok, fs') :=
      if encoder_accepts fps width height
      then Fs.write_file p (w_clock w) (Video props []) (w_fs w)
      else (false, w_fs w) in
    (emit (EvWriterOpen p ok);;
     mret {| wr_opened := ok; wr_path := p |}) (set_fs fs' w).

(** The [while cap.isOpened():] loop.  [frames] are the frames [cap] has
    not delivered yet: [cap.read()] yields the head, and [ret] is false
    when there is none. *)
Fixpoint video_loop (model : Model) (conf_threshold : Q) (opened : bool)
    (frames : list Image) (out : Writer) (frame_count detection_count : Z)
  : M (Z * Z) :=
  if opened then
    match frames with
    | [] => mret (frame_count, detection_count)
    | frame :: rest =>
        results ← lift (predict_image model frame conf_threshold iou);
        let annotated_frame := plot results in
        writer_write out annotated_frame;;
        video_loop model conf_threshold opened rest out
          (frame_count + 1)
          (detection_count + Z.of_nat (length (boxes results)))
    end
  else mret (frame_count, detection_count).

Definition avg_detections (detection_count frame_count : Z) : Q :=
  if frame_count =? 0 then 0%Q
  else (inject_Z detection_count / inject_Z frame_count)%Q.

Definition run_inference_video (model : Model) (video_path : Path)
    (conf_threshold : Q) (save_dir : Path) : M Path :=
  mkdir save_dir;;
  cap ← VideoCapture_file video_path;
  let fps := int_of_Q (vp_fps (cap_props cap)) in
  let width := vp_width (cap_props cap) in
  let height := vp_height (cap_props cap) in
  let output_name := Pathlib.stem video_path +:+ "_detected.mp4" in
  let output_path := Pathlib.child save_dir output_name in
  out ← VideoWriter output_path fps width height;
  counts ← video_loop model conf_threshold (cap_opened cap) (cap_frames cap)
             out 0 0;
  let frame_count := counts.1 in
  let detection_count := counts.2 in
  cap_release cap;;
  writer_release out;;
  print (MsgVideoProcessed frame_count);;
  print (MsgAvgDetections (avg_detections detection_count frame_count));;
  print (MsgSaved output_path);;
  mret output_path.

End OpenCV.

(** The [while True:] loop of the webcam mode, over the frames the camera
    still delivers. *)
Fixpoint webcam_loop (model : Model) (conf_threshold : Q)
    (frames : list Image) : M unit :=
  match frames with
  | [] => mret tt
  | frame :: rest =>
      results ← lift (predict_image model frame conf_threshold iou);
      let annotated_frame := plot results in
      imshow annotated_frame;;
      key ← waitKey;
      if Z.land key 255 =? 113 then mret tt
      else webcam_loop model conf_threshold rest
  end.

Definition run_inference_webcam (model : Model) (conf_threshold : Q) : M unit :=
  cap ← VideoCapture_device0;
  print MsgWebcamRunning;;
  webcam_loop model conf_threshold (readable cap);;
  cap_release cap;;
  emit EvDestroyAllWindows.

Definition image_extensions : list string :=
  [".jpg"; ".jpeg"; ".png"; ".bmp"; ".webp"].

(** The two [extend] calls of the enumeration loop, over all extensions. *)
Definition image_files (fs : FS) (input_path : Path) : list Path :=
  foldl (fun files ext =>
           (files ++ Fs.glob fs input_path ("*" +:+ ext))
             ++ Fs.glob fs input_path ("*" +:+ Str.upper ext))
        [] image_extensions.

Record BatchRecord := mkBatchRecord {
  rec_image : string;
  rec_detections : nat;
  rec_output : Path
}.

(** The [for image_path in image_files:] loop. *)
Fixpoint batch_loop (model : Model) (conf_threshold : Q) (save_dir : Path)
    (files : list Path) (results_list : list BatchRecord)
  : M (list BatchRecord) :=
  match files with
  | [] => mret results_list
  | image_path :: rest =>
      r ← run_inference_image model image_path conf_threshold save_dir;
      batch_loop model conf_threshold save_dir rest
        (results_list ++
           [{| rec_image := Pathlib.name image_path;
               rec_detections := length (boxes r.2);
               rec_output := r.1 |}])
  end.

Definition batch_inference (model : Model) (input_dir : Path)
    (conf_threshold : Q) (save_dir : Path) : M (list BatchRecord) :=
  fun w =>
    let input_path := input_dir in
    if negb (Fs.exists_ (w_fs w) input_path) then
      raise (FileNotFoundError
               ("Directory not found: " +:+ Pathlib.str input_dir)) w
    else
      let files := image_files (w_fs w) input_path in
      match files with
      | [] =>
          raise (FileNotFoundError
                   ("No images found in " +:+ Pathlib.str input_dir)) w
      | _ =>
          (results_list ← batch_loop model conf_threshold save_dir files [];
           print (MsgProcessed (length files));;
           mret results_list) w
      end.

Inductive Mode := image | video | webcam | batch.

(** The parsed command line.  [arg_source] is the [--source] argument; the
    image, video and batch modes are modelled for invocations that give
    one. *)
Record Args := mkArgs {
  arg_source : Path;
  arg_type : Mode;
  arg_conf : Q;
  arg_model : option Path
}.

Section Main.

Variable dir_mtime : Path -> Z.
Variable encoder_accepts : Z -> Z -> Z -> bool.

(** [YOLO(model_path)]: loading the weights, or raising. *)
Variable YOLO : Path -> FS -> Result Model.

(** The body of the [try:] block of [main]. *)
Definition main_try (args : Args) : M unit :=
  model_path ← match arg_model args with
               | Some p => mret p
               | None => find_latest_model dir_mtime
               end;
  model ← lift_fs (YOLO model_path);
  match arg_type args with
  | image =>
      run_inference_image model (arg_source args) (arg_conf args)
        default_save_dir;; mret tt
  | video =>
      run_inference_video encoder_accepts model (arg_source args)
        (arg_conf args) default_save_dir;; mret tt
  | webcam => run_inference_webcam model (arg_conf args)
  | batch =>
      batch_inference model (arg_source args) (arg_conf args)
        default_save_dir;; mret tt
  end.

Definition main (args : Args) : M unit :=
  try_except (main_try args) (fun e => print (MsgInferenceFailed e)).

(** The [if __name__ == "__main__":] block: [None] when the script is run
    without arguments. *)
Definition script (argv : option Args) : M unit :=
  match argv with
  | Some args => main args
  | None => print MsgUsage
  end.

End Main.

(** The exit status of the interpreter: 0 when the script runs to its end,
    1 when an exception escapes, 130 for an interrupt. *)
Definition exit_status (r : Result unit) : Z :=
  match r with
  | Ok _ => 0
  | Raise e => if is_Exception e then 1 else 130
  end.

End Inference.

(* ===================================================================== *)
(** ** [Api.py]: model resolution and the two prediction handlers *)
(* ===================================================================== *)

Module Api.

(** [find_latest_model()]: [None], a path, or the error of a [stat] call
    inside [max]. *)
Definition find_latest_model (dir_mtime : Path -> Z) (fs : FS)
  : Result (option Path) :=
  let models_dir : Path := ["models"] in
  if negb (Fs.exists_ fs models_dir) then Ok None
  else
    let model_files := Fs.glob fs models_dir "helmet_detector_best_*.pt" in
    match model_files with
    | [] => Ok None
    | f :: rest =>
        match Inference.max_by (Fs.getmtime dir_mtime fs) f rest with
        | Ok p => Ok (Some p)
        | Raise e => Raise e
        end
    end.

(** What a handler gives back to the framework: a response, an
    [HTTPException] with its status code, or any other exception (which the
    framework turns into an internal server error). *)
Inductive Http (A : Type) :=
| Respond (a : A)
| HTTPException (status_code : nat) (detail : string)
| Unhandled (e : Exn).
Arguments Respond {A} a.
Arguments HTTPException {A} status_code detail.
Arguments Unhandled {A} e.

Record DetectionResult := mkDetectionResult {
  class_name : string;
  confidence : Q;
  bbox : list Q
}.

(** [PredictionResponse] without [inference_time], a wall-clock
    measurement. *)
Record PredictionResponse := mkPredictionResponse {
  success : bool;
  detections : list DetectionResult;
  image_size : list nat;
  message : string
}.

(** The list comprehension over [results.boxes]; [results.names[cls]]
    raises [KeyError] for an unknown class. *)
Fixpoint detections_of (names : gmap nat string) (bs : list Box)
  : Result (list DetectionResult) :=
  match bs with
  | [] => Ok []
  | box :: rest =>
      match names !! box_cls box with
      | None => Raise (KeyError (box_cls box))
      | Some n =>
          match detections_of names rest with
          | Ok ds =>
              Ok ({| class_name := n; confidence := box_conf box;
                     bbox := box_xyxy box |} :: ds)
          | Raise e => Raise e
          end
      end
  end.

Section Handlers.

(** What the image codecs of OpenCV make of a buffer that is not empty: an
    image, [None] when no codec reads it, or an error of their own. *)
Variable decode : list N -> Result (option Image).

(** [cv2.imdecode(np.frombuffer(contents, np.uint8), cv2.IMREAD_COLOR)]: an
    empty buffer fails the assertion [!buf.empty()] of OpenCV, which raises
    [cv2.error]; any other buffer goes to the codecs. *)
Definition imdecode (contents : list N) : Result (option Image) :=
  match contents with
  | [] =>
      Raise (LibraryError "cv2.error: (-215:Assertion failed) !buf.empty()")
  | _ => decode contents
  end.

(** The name [tempfile.NamedTemporaryFile] hands out. *)
Variable tempname : World -> Path.

(** [model] is the module-level variable of that name, [contents] what
    [await file.read()] returned. *)
Definition predict (model : option Model) (contents : list N)
    (conf_threshold iou_threshold : Q) : Http PredictionResponse :=
  match model with
  | None => HTTPException 503 "Model not loaded"
  | Some m =>
      match imdecode contents with
      | Raise e => Unhandled e
      | Ok None => HTTPException 400 "Invalid image file"
      | Ok (Some image) =>
          let height := img_height image in
          let width := img_width image in
          match predict_image m image conf_threshold iou_threshold with
          | Raise e => Unhandled e
          | Ok results =>
              match detections_of (names results) (boxes results) with
              | Raise e => Unhandled e
              | Ok detections =>
                  Respond
                    {| success := true;
                       detections := detections;
                       image_size := [width; height];
                       message := pretty (length detections)
                                    +:+ " object(s) detected" |}
              end
          end
      end
  end.

(** The response is the path handed to [FileResponse]. *)
Definition predict_annotated (model : option Model) (contents : list N)
    (conf_threshold iou_threshold : Q) (w : World) : World * Http Path :=
  match model with
  | None => (w, HTTPException 503 "Model not loaded")
  | Some m =>
      match imdecode contents with
      | Raise e => (w, Unhandled e)
      | Ok None => (w, HTTPException 400 "Invalid image file")
      | Ok (Some image) =>
          match predict_image m image conf_threshold iou_threshold with
          | Raise e => (w, Unhandled e)
          | Ok results =>
              let annotated_image := plot results in
              let tmp_path := tempname w in
              let w1 :=
                set_fs (Fs.write_file tmp_path (w_clock w) (Bytes [])
                          (w_fs w)).2 w in
              let w2 := (imwrite tmp_path annotated_image w1).1 in
              (w2, Respond tmp_path)
          end
      end
  end.

End Handlers.

End Api.

(* ===================================================================== *)
(** ** [Api.py]: the loaded model and the health check *)
(* ===================================================================== *)

Module Stat.

Section Sizes.

(** The size on disk of an encoded picture or video, and of a directory
    entry: decisions of the codecs and of the file system. *)
Variable codec_size : Data -> Z.
Variable dir_size : Path -> Z.

Definition st_size (f : File) : Z :=
  match f_data f with
  | Bytes b => Z.of_nat (length b)
  | d => codec_size d
  end.

(** [Path(p).stat().st_size] *)
Definition stat_size (fs : FS) (p : Path) : Result Z :=
  match fs_files fs !! p with
  | Some f => Ok (st_size f)
  | None =>
      if Fs.is_dir fs p then Ok (dir_size p)
      else Raise (FileNotFoundError (Pathlib.str p))
  end.

End Sizes.

End Stat.

Module Server.

(** The dict [model_info] once a model is loaded; [loaded_at] is the clock
    reading that [isoformat] prints. *)
Record ModelInfo := mkModelInfo {
  info_model_path : string;
  info_loaded_at : Z;
  info_model_size : Q
}.

(** What the lifespan handler prints. *)
Inductive Line :=
| ModelLoaded (model_path : string)
| ModelNotLoaded (e : Exn).

(** The module-level variables [model] and [model_info] ([None] for the
    empty dict), and the standard output. *)
Record Globals := mkGlobals {
  model : option Model;
  model_info : option ModelInfo;
  stdout : list Line
}.

Definition initial : Globals :=
  {| model := None; model_info := None; stdout := [] |}.

Section Load.

Variable dir_mtime : Path -> Z.
Variable YOLO : Path -> FS -> Result Model.
Variable codec_size : Data -> Z.
Variable dir_size : Path -> Z.

(** [load_model(model_path)]: the world is only read.  The assignment to
    [model] comes before [model_info] is computed. *)
Definition load_model (model_path : option Path) (w : World) (g : Globals)
  : Globals * Result Model :=
  let resolved :=
    match model_path with
    | Some p => Ok p
    | None =>
        match Api.find_latest_model dir_mtime (w_fs w) with
        | Ok (Some p) => Ok p
        | Ok None => Raise (FileNotFoundError "No trained model found.")
        | Raise e => Raise e
        end
    end in
  match resolved with
  | Raise e => (g, Raise e)
  | Ok p =>
      match YOLO p (w_fs w) with
      | Raise e => (g, Raise e)
      | Ok m =>
          let g1 := {| model := Some m; model_info := model_info g;
                       stdout := stdout g |} in
          match Stat.stat_size codec_size dir_size (w_fs w) p with
          | Raise e => (g1, Raise e)
          | Ok size =>
              ({| model := Some m;
                  model_info :=
                    Some {| info_model_path := Pathlib.str p;
                            info_loaded_at := w_clock w;
                            info_model_size :=
                              (inject_Z size / inject_Z (1024 * 1024))%Q |};
                  stdout := stdout g |}, Ok m)
          end
      end
  end.

Definition say (l : Line) (g : Globals) : Globals :=
  {| model := model g; model_info := model_info g;
     stdout := stdout g ++ [l] |}.

(** The part of [lifespan] that runs before the application serves. *)
Definition lifespan (w : World) (g : Globals) : Globals * Result unit :=
  match load_model None w g with
  | (g1, Ok _) =>
      match model_info g1 with
      | Some info => (say (ModelLoaded (info_model_path info)) g1, Ok tt)
      | None =>
          (* model_info['model_path'] on an empty dict *)
          (say (ModelNotLoaded (LibraryError "KeyError: 'model_path'")) g1,
           Ok tt)
      end
  | (g1, Raise e) =>
      if is_Exception e then (say (ModelNotLoaded e) g1, Ok tt)
      else (g1, Raise e)
  end.

End Load.

Record HealthResponse := mkHealthResponse {
  status : string;
  model_loaded : bool;
  health_model_path : option string;
  health_model_info : option ModelInfo
}.

(** [health_check()]; a loaded [YOLO] object is truthy. *)
Definition health_check (g : Globals) : HealthResponse :=
  {| status := match model g with
               | Some _ => "healthy"
               | None => "unhealthy"
               end;
     model_loaded := bool_decide (is_Some (model g));
     health_model_path := info_model_path <$> model_info g;
     health_model_info := model_info g |}.

End Server.

(* ===================================================================== *)
(** ** The dataset scripts: state, failures and file operations *)
(* ===================================================================== *)

Module Script.

(** What can end a script: an exception of [Exn], or one of the two
    file-system exceptions that [Exn] does not list. *)
Inductive Failure :=
| Python (e : Exn)
| IsADirectoryError (p : Path)
| SameFileError (p : Path).

Inductive Outcome (A : Type) :=
| Done (a : A)
| Failed (f : Failure).
Arguments Done {A} a.
Arguments Failed {A} f.

(** The file system, the clock and the lines printed so far. *)
Record State (L : Type) := mkState {
  st_fs : FS;
  st_clock : Z;
  st_out : list L
}.
Arguments mkState {L} _ _ _.
Arguments st_fs {L} _.
Arguments st_clock {L} _.
Arguments st_out {L} _.

Definition T (L A : Type) : Type := State L -> State L * Outcome A.

Definition ret {L A} (a : A) : T L A := fun st => (st, Done a).

Definition fail {L A} (f : Failure) : T L A := fun st => (st, Failed f).

Definition bind {L A B} (m : T L A) (k : A -> T L B) : T L B :=
  fun st =>
    match m st with
    | (st', Done a) => k a st'
    | (st', Failed f) => (st', Failed f)
    end.

Global Instance T_ret {L} : MRet (T L) := @ret L.
Global Instance T_bind {L} : MBind (T L) := fun A B k m => bind m k.

Definition set_fs {L} (fs : FS) (st : State L) : State L :=
  {| st_fs := fs; st_clock := st_clock st; st_out := st_out st |}.

(** [print(...)] *)
Definition say {L} (l : L) : T L unit :=
  fun st =>
    ({| st_fs := st_fs st; st_clock := st_clock st;
        st_out := st_out st ++ [l] |}, Done tt).

(** [Path(p).mkdir(parents=True, exist_ok=True)] *)
Definition mkdir {L} (p : Path) : T L unit :=
  fun st =>
    match Fs.mkdir_p p (st_fs st) with
    | Ok fs' => (set_fs fs' st, Done tt)
    | Raise e => (st, Failed (Python e))
    end.

(** [for x in xs: body(x)] *)
Fixpoint for_each {L X} (body : X -> T L unit) (xs : list X) : T L unit :=
  match xs with
  | [] => mret tt
  | x :: rest => body x;; for_each body rest
  end.

(** The bytes of a text. *)
Definition bytes_of_string (s : string) : list N :=
  (fun c => N.of_nat (Ascii.nat_of_ascii c)) <$> String.list_ascii_of_string s.

(** Creating or truncating the regular file [p], as [open(p, 'w')] and
    [open(p, 'wb')] do, and writing [d]. *)
Definition create_file {L} (p : Path) (d : Data) : T L unit :=
  fun st =>
    if Fs.is_dir (st_fs st) p then (st, Failed (IsADirectoryError p))
    else if negb (Fs.is_dir (st_fs st) (Pathlib.parent p)) then
      (st, Failed (Python (FileNotFoundError (Pathlib.str p))))
    else
      (set_fs (Fs.write_file p (st_clock st) d (st_fs st)).2 st, Done tt).

(** [with open(p, 'w') as f: f.write(text)] *)
Definition write_text {L} (p : Path) (text : string) : T L unit :=
  create_file p (Bytes (bytes_of_string text)).

(** [shutil.copy(src, dst)]: into [dst] when it is a directory; the copy
    gets the current time. *)
Definition copy {L} (src dst : Path) : T L Path :=
  fun st =>
    let target :=
      if Fs.is_dir (st_fs st) dst then Pathlib.child dst (Pathlib.name src)
      else dst in
    if bool_decide (target = src) then (st, Failed (SameFileError src))
    else
      match fs_files (st_fs st) !! src with
      | None =>
          if Fs.is_dir (st_fs st) src then (st, Failed (IsADirectoryError src))
          else (st, Failed (Python (FileNotFoundError (Pathlib.str src))))
      | Some f => (create_file target (f_data f);; mret target) st
      end.

(** Taking an entry out of the listing of its directory. *)
Definition unlist (p : Path) (dirs : gmap Path (list string))
  : gmap Path (list string) :=
  alter (filter (fun n => n <> Pathlib.name p)) (Pathlib.parent p) dirs.

(** [p.unlink(missing_ok=True)] *)
Definition unlink {L} (p : Path) : T L unit :=
  fun st =>
    if Fs.is_dir (st_fs st) p then (st, Failed (IsADirectoryError p))
    else
      match fs_files (st_fs st) !! p with
      | Some _ =>
          (set_fs {| fs_dirs := unlist p (fs_dirs (st_fs st));
                     fs_files := delete p (fs_files (st_fs st)) |} st,
           Done tt)
      | None => (st, Done tt)
      end.

End Script.

(* ===================================================================== *)
(** ** [Dataset.py]: directories, sample structure, verification *)
(* ===================================================================== *)

Module Dataset.

Inductive Line :=
| DirectoriesCreated
| SampleCreated
| Missing (p : Path)
| Ready
| ImagesMissing
| Incomplete.


Definition nl : string := String (Ascii.ascii_of_nat 10) EmptyString.

Definition yaml_content : string :=
  String.concat nl
    ["names:"; "  0: helmet"; "  1: no-helmet"; "  2: person"; "";
     "nc: 3"; ""; "train: train/images"; "val: valid/images";
     "test: test/images"; ""].

Definition base_path : Path := ["data"; "raw"].

Definition create_sample_structure : Script.T Line unit :=
  Script.for_each
    (fun split =>
       Script.mkdir (Pathlib.child (Pathlib.child base_path split) "images");;
       Script.mkdir (Pathlib.child (Pathlib.child base_path split) "labels"))
    ["train"; "valid"; "test"];;
  Script.write_text (Pathlib.child base_path "data.yaml") yaml_content;;
  Script.say SampleCreated.

Definition required_paths : list Path :=
  [Pathlib.child (Pathlib.child base_path "train") "images";
   Pathlib.child (Pathlib.child base_path "train") "labels";
   Pathlib.child (Pathlib.child base_path "valid") "images";
   Pathlib.child (Pathlib.child base_path "valid") "labels";
   Pathlib.child base_path "data.yaml"].

(** The loop over [required_paths], with its flag. *)
Fixpoint check_required (paths : list Path) (all_exist : bool)
  : Script.T Line bool :=
  match paths with
  | [] => mret all_exist
  | path :: rest =>
      fun st =>
        if negb (Fs.exists_ (Script.st_fs st) path) then
          (Script.say (Missing path);; check_required rest false) st
        else check_required rest all_exist st
  end.

Definition count_images (fs : FS) (split : string) : nat :=
  length (Fs.glob fs (Pathlib.child (Pathlib.child base_path split) "images")
            "*.*").

Definition verify_dataset : Script.T Line bool :=
  all_exist ← check_required required_paths true;
  if all_exist : bool then
    (fun st =>
       let train_images := count_images (Script.st_fs st) "train" in
       let valid_images := count_images (Script.st_fs st) "valid" in
       if (0 <? train_images)%nat && (0 <? valid_images)%nat then
         (Script.say Ready;; mret true) st
       else (Script.say ImagesMissing;; mret false) st) : Script.T Line bool
  else Script.say Incomplete;; mret false.

End Dataset.

(* ===================================================================== *)
(** ** [Training.py]: training and saving the best model *)
(* ===================================================================== *)

Module Training.

Inductive Line :=
| TrainingStarted
| TrainingCompleted
| BestModelSaved (p : Path).

(** The arguments of [model.train] that are not constants of the script
    (the augmentation and optimiser settings are). *)
Record TrainCall := mkTrainCall {
  tc_data : string;
  tc_epochs : Z;
  tc_imgsz : Z;
  tc_batch : Z;
  tc_device : string;
  tc_project : string;
  tc_name : string
}.

Section Train.

(** What [model.train] returns. *)
Variable R : Type.

Variable YOLO : Path -> FS -> Result Model.

(** [datetime.now().strftime('%Y%m%d_%H%M%S')]; the text holds no path
    separator. *)
Variable strftime : Z -> string.

(** [model.train(...)]: it works on the file system and takes time, also
    when it raises. *)
Variable train : Model -> TrainCall -> FS * Z -> (FS * Z) * Result R.

Definition run_train (model : Model) (call : TrainCall) : Script.T Line R :=
  fun st =>
    match train model call (Script.st_fs st, Script.st_clock st) with
    | ((fs', now'), r) =>
        ({| Script.st_fs := fs'; Script.st_clock := now';
            Script.st_out := Script.st_out st |},
         match r with
         | Ok results => Script.Done results
         | Raise e => Script.Failed (Script.Python e)
         end)
    end.

Definition train_model (model_size : string) (epochs batch_size img_size : Z)
    (device : string) (pretrained : bool) : Script.T Line (R * string) :=
  fun st =>
    let model_name :=
      if pretrained then "yolov8" +:+ model_size +:+ ".pt"
      else "yolov8" +:+ model_size +:+ ".yaml" in
    match YOLO [model_name] (Script.st_fs st) with
    | Raise e => (st, Script.Failed (Script.Python e))
    | Ok model =>
        let data_yaml := "data/raw/data.yaml" in
        let timestamp := strftime (Script.st_clock st) in
        let project_name := "runs/detect" in
        let run_name := "helmet_detection_" +:+ timestamp in
        let best_model_path : Path :=
          ["runs"; "detect"; run_name; "weights"; "best.pt"] in
        let final_model_path : Path :=
          ["models"; "helmet_detector_best_" +:+ timestamp +:+ ".pt"] in
        ((Script.say TrainingStarted;;
          results ← run_train model
                      {| tc_data := data_yaml; tc_epochs := epochs;
                         tc_imgsz := img_size; tc_batch := batch_size;
                         tc_device := device; tc_project := project_name;
                         tc_name := run_name |};
          Script.say TrainingCompleted;;
          ((fun st' =>
              if Fs.exists_ (Script.st_fs st') best_model_path then
                (Script.copy best_model_path final_model_path;;
                 Script.say (BestModelSaved final_model_path)) st'
              else (st', Script.Done tt)) : Script.T Line unit);;
          mret (results, run_name)) : Script.T Line (R * string)) st
    end.

End Train.

End Training.

(* ===================================================================== *)
(** ** [Preprocess.py]: cleaning a split *)
(* ===================================================================== *)

Module Preprocess.

Definition DATA_PATH : Path := ["data"; "raw"].
Definition SPLITS : list string := ["train"; "valid"; "test"].

Inductive Line :=
| Starting
| Processing (split : string)
| SplitNotFound (split : string)
| RemainingImages (n : nat)
| RemainingLabels (n : nat)
| RemovedCorrupt (n : nat)
| RemovedMissingLabels (n : nat)
| RemovedEmptyLabels (n : nat)
| Completed.

(** The three counters of [clean_split]. *)
Record Tally := mkTally {
  removed_corrupt : nat;
  removed_missing_label : nat;
  removed_empty_label : nat
}.

Section Clean.

(** Whether [PIL] opens and verifies a file content. *)
Variable verifies : Data -> bool.
Variable codec_size : Data -> Z.
Variable dir_size : Path -> Z.

(** [is_image_corrupt]: every exception of [Image.open] and [verify],
    also for a missing file or a directory, answers [True]. *)
Definition is_image_corrupt (fs : FS) (image_path : Path) : bool :=
  if Fs.is_dir fs image_path then true
  else
    match fs_files fs !! image_path with
    | Some f => negb (verifies (f_data f))
    | None => true
    end.

(** [label_path.stat().st_size == 0], asked of a path that exists. *)
Definition label_empty (fs : FS) (label_path : Path) : bool :=
  match Stat.stat_size codec_size dir_size fs label_path with
  | Ok size => size =? 0
  | Raise _ => false
  end.

(** The [for img_path in images:] loop. *)
Fixpoint clean_loop (label_dir : Path) (images : list Path) (t : Tally)
  : Script.T Line Tally :=
  match images with
  | [] => mret t
  | img_path :: rest =>
      fun st =>
        let label_path :=
          Pathlib.child label_dir (Pathlib.stem img_path +:+ ".txt") in
        if is_image_corrupt (Script.st_fs st) img_path then
          (Script.unlink img_path;;
           Script.unlink label_path;;
           clean_loop label_dir rest
             {| removed_corrupt := S (removed_corrupt t);
                removed_missing_label := removed_missing_label t;
                removed_empty_label := removed_empty_label t |}) st
        else if negb (Fs.exists_ (Script.st_fs st) label_path) then
          (Script.unlink img_path;;
           clean_loop label_dir rest
             {| removed_corrupt := removed_corrupt t;
                removed_missing_label := S (removed_missing_label t);
                removed_empty_label := removed_empty_label t |}) st
        else if label_empty (Script.st_fs st) label_path then
          (Script.unlink img_path;;
           Script.unlink label_path;;
           clean_loop label_dir rest
             {| removed_corrupt := removed_corrupt t;
                removed_missing_label := removed_missing_label t;
                removed_empty_label := S (removed_empty_label t) |}) st
        else clean_loop label_dir rest t st
  end.

Definition image_dir (split : string) : Path :=
  Pathlib.child (Pathlib.child DATA_PATH split) "images".

Definition label_dir (split : string) : Path :=
  Pathlib.child (Pathlib.child DATA_PATH split) "labels".

Definition clean_split (split : string) : Script.T Line unit :=
  Script.say (Processing split);;
  (fun st =>
     if negb (Fs.exists_ (Script.st_fs st) (image_dir split)) then
       Script.say (SplitNotFound split) st
     else
       let images := Fs.glob (Script.st_fs st) (image_dir split) "*.*" in
       (t ← clean_loop (label_dir split) images
              {| removed_corrupt := 0; removed_missing_label := 0;
                 removed_empty_label := 0 |};
        (fun st' =>
           let total_images :=
             length (Fs.glob (Script.st_fs st') (image_dir split) "*.*") in
           let total_labels :=
             length (Fs.glob (Script.st_fs st') (label_dir split) "*.txt") in
           (Script.say (RemainingImages total_images);;
            Script.say (RemainingLabels total_labels);;
            Script.say (RemovedCorrupt (removed_corrupt t));;
            Script.say (RemovedMissingLabels (removed_missing_label t));;
            Script.say (RemovedEmptyLabels (removed_empty_label t))) st')
          : Script.T Line unit) st) : Script.T Line unit.

Definition main : Script.T Line unit :=
  Script.say Starting;;
  Script.for_each clean_split SPLITS;;
  Script.say Completed.

End Clean.

End Preprocess.

(* ===================================================================== *)
(** ** The specification's wording, for comparison with the code *)
(* ===================================================================== *)

Module Spec.

(** "whose extension matches a fixed allow-list (case-insensitive)" *)
Definition eligible (n : string) : bool :=
  bool_decide (Str.lower (Pathlib.suffix [n]) ∈ Inference.image_extensions).

(** "in a stable order (lexicographic by filename)" *)
Definition lexicographic (files : list Path) : Prop :=
  StronglySorted (fun p q => String.leb (Pathlib.name p) (Pathlib.name q) = true)
                 files.

(** The enumeration the specification asks for: exactly the eligible
    entries of the directory, in lexicographic order. *)
Definition enumeration (fs : FS) (input_path : Path) (files : list Path)
  : Prop :=
  (forall n, n ∈ Fs.listdir fs input_path -> eligible n = true ->
             Pathlib.child input_path n ∈ files)
  /\ (forall p, p ∈ files ->
        exists n, p = Pathlib.child input_path n
                  /\ n ∈ Fs.listdir fs input_path /\ eligible n = true)
  /\ lexicographic files.


(** "{stem(source_identifier)}_detected.{ext}" *)
Definition output_name (source : Path) : string :=
  Pathlib.stem source +:+ "_detected" +:+ Pathlib.suffix source.

End Spec.

(* ===================================================================== *)
(** ** Observations on a run *)
(* ===================================================================== *)

(** How often [cap.release()] ran so far. *)
Definition cap_releases (w : World) : nat :=
  length (filter (fun e => e = EvCapRelease) (w_trace w)).

(** The patterns of the enumeration loop, in the order in which it globs
    them. *)
Definition glob_patterns : list string :=
  ["*.jpg"; "*.JPG"; "*.jpeg"; "*.JPEG"; "*.png"; "*.PNG"; "*.bmp"; "*.BMP";
   "*.webp"; "*.WEBP"].

(** A pattern without wildcard. *)
Fixpoint star_free (pat : string) : bool :=
  match pat with
  | EmptyString => true
  | String c pat' => negb (Ascii.eqb c "*"%char) && star_free pat'
  end.

(** The label file that [clean_split] looks for beside an image. *)
Definition label_of (label_dir img_path : Path) : Path :=
  Pathlib.child label_dir (Pathlib.stem img_path +:+ ".txt").

(** An image of a split after cleaning: it is gone, or it is the file it
    was, it verifies, and its label is there and not empty. *)
Definition cleaned (verifies : Data -> bool) (codec_size : Data -> Z)
    (dir_size : Path -> Z) (label_dir : Path) (fs fs' : FS) (img : Path)
  : Prop :=
  fs_files fs' !! img = None
  \/ (fs_files fs' !! img = fs_files fs !! img
      /\ Preprocess.is_image_corrupt verifies fs' img = false
      /\ Fs.exists_ fs' (label_of label_dir img) = true
      /\ Preprocess.label_empty codec_size dir_size fs'
           (label_of label_dir img) = false).

(** The number of files a tally counts as removed. *)
Definition removed (t : Preprocess.Tally) : nat :=
  (Preprocess.removed_corrupt t + Preprocess.removed_missing_label t
   + Preprocess.removed_empty_label t)%nat.


(** Directories are kept from one file system to the next. *)
Definition keeps_dirs (fs fs' : FS) : Prop :=
  forall q, Fs.is_dir fs q = true -> Fs.is_dir fs' q = true.

(** The display events of a sequence of results. *)
Definition shows (rs : list Results) : list Event :=
  (fun x => EvImshow (plot x)) <$> rs.

(** A key code that does not stand for [q]. *)
Definition not_q (k : Z) : Prop := Z.land k 255 <> 113.

(** [sum(len(r.boxes) for r in rs)] *)
Definition total_boxes (rs : list Results) : Z :=
  foldr (fun r acc => Z.of_nat (length (boxes r)) + acc) 0 rs.

(** The name under which an item of the batch is recorded and written. *)
Definition recorded (save_dir : Path) (f : Path) (r : Inference.BatchRecord)
  : Prop :=
  Inference.rec_image r = Pathlib.name f
  /\ Inference.rec_output r
     = Pathlib.child save_dir (Pathlib.stem f +:+ "_detected.jpg").

(** An element whose key can be computed and lies below, or not above, a
    given time. *)
Definition older {A} (key : A -> Result Z) (t : Z) (q : A) : Prop :=
  exists s, key q = Ok s /\ s < t.

Definition not_newer {A} (key : A -> Result Z) (t : Z) (q : A) : Prop :=
  exists s, key q = Ok s /\ s <= t.

(** No item of a batch fails: every call of the per-item processor returns,
    in the world that the calls before it have left. *)
Fixpoint no_item_fails (model : Model) (conf : Q) (save_dir : Path)
    (files : list Path) (w : World) : Prop :=
  match files with
  | [] => True
  | f :: rest =>
      exists w1 r,
        Inference.run_inference_image model f conf save_dir w = (w1, Ok r)
        /\ no_item_fails model conf save_dir rest w1
  end.

(** Every component of [done ++ rest] beyond [done] is a directory and not
    a file: what [mkdir -p] leaves behind. *)
Fixpoint all_dirs (done : Path) (rest : list string) (fs : FS) : Prop :=
  match rest with
  | [] => True
  | c :: rest' =>
      fs_files fs !! (done ++ [c]) = None
      /\ Fs.is_dir fs (done ++ [c]) = true
      /\ all_dirs (done ++ [c]) rest' fs
  end.

(* ===================================================================== *)
(** ** Sample data: a detector, files and worlds to run the program on *)
(* ===================================================================== *)

Module Sample.

Definition frame : Image :=
  {| img_height := 1; img_width := 2;
     img_pixels := [(1, 2, 3); (4, 5, 6)]%N |}.

Definition helmet_box : Box :=
  {| box_cls := 0; box_conf := 9 # 10; box_xyxy := [0; 0; 1; 1]%Q |}.

Definition result : Results :=
  {| boxes := [helmet_box; helmet_box];
     names := {[ 0%nat := "helmet" ]};
     plot := frame |}.

(** A detector that finds two helmets in whatever it is given. *)
Definition detector : Model :=
  {| predict_path := fun _ _ _ _ => Ok result;
     predict_image := fun _ _ _ => Ok result |}.

(** A detector that cannot read [broken.jpg] and fails on every frame. *)
Definition picky_detector : Model :=
  {| predict_path := fun p _ _ _ =>
       if bool_decide (Pathlib.name p = "broken.jpg")
       then Raise (LibraryError "cannot read image")
       else Ok result;
     predict_image := fun _ _ _ => Raise (LibraryError "inference failed") |}.

Definition weights (t : Z) : File := {| f_mtime := t; f_data := Bytes [] |}.

Definition world (fs : FS) : World :=
  {| w_fs := fs; w_clock := 100; w_camera := None; w_keys := [];
     w_trace := [] |}.

Definition empty_fs : FS := {| fs_dirs := ∅; fs_files := ∅ |}.

(** Three trained models, the second one the most recent. *)
Definition models_fs : FS :=
  {| fs_dirs :=
       {[ ["models"] :=
            ["helmet_detector_best_a.pt"; "helmet_detector_best_b.pt";
             "notes.txt"; "helmet_detector_best_c.pt"] ]};
     fs_files :=
       {[ ["models"; "helmet_detector_best_a.pt"] := weights 10;
          ["models"; "helmet_detector_best_b.pt"] := weights 30;
          ["models"; "notes.txt"] := weights 99;
          ["models"; "helmet_detector_best_c.pt"] := weights 20 ]} |}.

(** An input directory with a mixed-case extension and an unsorted
    listing. *)
Definition photos_fs : FS :=
  {| fs_dirs := {[ ["in"] := ["a.png"; "b.jpg"; "c.Jpg"; "d.JPG"; "e.txt"] ]};
     fs_files :=
       {[ ["in"; "a.png"] := weights 1; ["in"; "b.jpg"] := weights 2;
          ["in"; "c.Jpg"] := weights 3; ["in"; "d.JPG"] := weights 4;
          ["in"; "e.txt"] := weights 5 ]} |}.

(** An input directory whose first image is corrupt. *)
Definition broken_fs : FS :=
  {| fs_dirs := {[ ["in"] := ["broken.jpg"; "fine.jpg"] ]};
     fs_files :=
       {[ ["in"; "broken.jpg"] := weights 1;
          ["in"; "fine.jpg"] := weights 2 ]} |}.

(** A clip of two frames. *)
Definition clip_props : VideoProps :=
  {| vp_fps := 30; vp_width := 2; vp_height := 1; vp_frame_count := 2 |}.

Definition clip_fs : FS :=
  {| fs_dirs := ∅;
     fs_files :=
       {[ ["clip.mp4"] :=
            {| f_mtime := 5; f_data := Video clip_props [frame; frame] |} ]} |}.

Definition encoder_accepts (fps width height : Z) : bool :=
  (0 <? fps) && (0 <? width) && (0 <? height).

Definition YOLO (p : Path) (fs : FS) : Result Model :=
  match fs_files fs !! p with
  | Some _ => Ok detector
  | None => Raise (LibraryError "cannot load weights")
  end.

(** Codecs that read the buffers starting with the byte 255, and no
    others. *)
Definition decode (contents : list N) : Result (option Image) :=
  match contents with
  | 255%N :: _ => Ok (Some frame)
  | _ => Ok None
  end.

(** Every directory was last modified at time 40. *)
Definition dir_mtime (p : Path) : Z := 40.

Definition tempname (w : World) : Path := ["tmp"; "tmp0.jpg"].

(** Command lines: a batch over a directory that does not exist, a batch
    over a directory without images, and a model path that does not
    load. *)
Definition args_missing_dir : Inference.Args :=
  {| Inference.arg_source := ["missing"];
     Inference.arg_type := Inference.batch;
     Inference.arg_conf := 1 # 4;
     Inference.arg_model := Some ["models"; "helmet_detector_best_b.pt"] |}.

Definition args_empty_dir : Inference.Args :=
  {| Inference.arg_source := ["models"];
     Inference.arg_type := Inference.batch;
     Inference.arg_conf := 1 # 4;
     Inference.arg_model := None |}.

Definition args_bad_model : Inference.Args :=
  {| Inference.arg_source := ["rider.png"];
     Inference.arg_type := Inference.image;
     Inference.arg_conf := 1 # 4;
     Inference.arg_model := Some ["nowhere.pt"] |}.

End Sample.

(* ===================================================================== *)
(** ** More sample data *)
(* ===================================================================== *)

Module Fixtures.

(** A camera that delivers three frames while the keys "none", [q] and [a]
    are pressed. *)
Definition camera_world : World :=
  {| w_fs := Sample.empty_fs; w_clock := 7;
     w_camera := Some [Sample.frame; Sample.frame; Sample.frame];
     w_keys := [-1; 113; 97]; w_trace := [] |}.

(** Two images that differ in their extension only. *)
Definition twins_fs : FS :=
  {| fs_dirs := {[ ["in"] := ["a.jpg"; "a.png"] ]};
     fs_files :=
       {[ ["in"; "a.jpg"] := Sample.weights 1;
          ["in"; "a.png"] := Sample.weights 2 ]} |}.

(** A command line without [--model]. *)
Definition args_no_model : Inference.Args :=
  {| Inference.arg_source := ["rider.png"];
     Inference.arg_type := Inference.image;
     Inference.arg_conf := 1 # 4;
     Inference.arg_model := None |}.

(** A detector that reports a class its name table does not know. *)
Definition unnamed_box : Box :=
  {| box_cls := 7; box_conf := 1 # 2; box_xyxy := [0; 0; 1; 1]%Q |}.

Definition confused_detector : Model :=
  {| predict_path := fun _ _ _ _ => Ok Sample.result;
     predict_image := fun _ _ _ =>
       Ok {| boxes := [Sample.helmet_box; unnamed_box];
             names := {[ 0%nat := "helmet" ]};
             plot := Sample.frame |} |}.

(** A detector that reads its source from the disk: it raises when the
    file is not there. *)
Definition reader : Model :=
  {| predict_path := fun p _ _ fs =>
       match fs_files fs !! p with
       | Some _ => Ok Sample.result
       | None => Raise (FileNotFoundError (Pathlib.str p))
       end;
     predict_image := fun _ _ _ => Ok Sample.result |}.

(** A trained model next to a link of the same naming whose target is
    gone. *)
Definition dangling_fs : FS :=
  {| fs_dirs :=
       {[ ["models"] :=
            ["helmet_detector_best_a.pt"; "helmet_detector_best_link.pt"] ]};
     fs_files :=
       {[ ["models"; "helmet_detector_best_a.pt"] := Sample.weights 10 ]} |}.

(** A trained model next to a directory of the same naming. *)
Definition folder_fs : FS :=
  {| fs_dirs :=
       {[ ["models"] :=
            ["helmet_detector_best_a.pt"; "helmet_detector_best_d.pt"];
          ["models"; "helmet_detector_best_d.pt"] := [] ]};
     fs_files :=
       {[ ["models"; "helmet_detector_best_a.pt"] := Sample.weights 10 ]} |}.

(** A detector whose annotated image is larger than the frame it was
    given. *)
Definition wide_frame : Image :=
  {| img_height := 7; img_width := 9; img_pixels := [] |}.

Definition enlarging_detector : Model :=
  {| predict_path := fun _ _ _ _ => Ok Sample.result;
     predict_image := fun _ _ _ =>
       Ok {| boxes := [Sample.helmet_box];
             names := {[ 0%nat := "helmet" ]};
             plot := wide_frame |} |}.

(** A file system with a directory for temporary files. *)
Definition tmp_fs : FS :=
  {| fs_dirs := {[ ["tmp"] := [] ]}; fs_files := ∅ |}.

(** A training run that leaves its best weights under [runs/detect], next
    to an older model. *)
Definition trained_fs : FS :=
  {| fs_dirs := {[ ["models"] := ["helmet_detector_best_old.pt"] ]};
     fs_files :=
       {[ ["models"; "helmet_detector_best_old.pt"] := Sample.weights 10;
          ["runs"; "detect"; "helmet_detection_20240101_120000"; "weights";
           "best.pt"] := Sample.weights 50 ]} |}.

Definition strftime (now : Z) : string := "20240101_120000".

Definition train (m : Model) (call : Training.TrainCall) (s : FS * Z)
  : (FS * Z) * Result unit :=
  ((trained_fs, 60), Ok tt).

Definition load_any (p : Path) (fs : FS) : Result Model := Ok Sample.detector.

(** A train split: a good image with its label, a corrupt image, an image
    without label and an image with an empty label. *)
Definition blob (b : list N) : File := {| f_mtime := 1; f_data := Bytes b |}.

Definition split_fs : FS :=
  {| fs_dirs :=
       {[ ["data"; "raw"; "train"; "images"]
            := ["good.jpg"; "corrupt.jpg"; "alone.jpg"; "blank.jpg"];
          ["data"; "raw"; "train"; "labels"]
            := ["good.txt"; "corrupt.txt"; "blank.txt"] ]};
     fs_files :=
       {[ ["data"; "raw"; "train"; "images"; "good.jpg"] := blob [255%N];
          ["data"; "raw"; "train"; "images"; "corrupt.jpg"] := blob [];
          ["data"; "raw"; "train"; "images"; "alone.jpg"] := blob [255%N];
          ["data"; "raw"; "train"; "images"; "blank.jpg"] := blob [255%N];
          ["data"; "raw"; "train"; "labels"; "good.txt"] := blob [48%N];
          ["data"; "raw"; "train"; "labels"; "corrupt.txt"] := blob [48%N];
          ["data"; "raw"; "train"; "labels"; "blank.txt"] := blob [] ]} |}.


(** Verification accepts every content but the empty one. *)
Definition verifies (d : Data) : bool :=
  match d with
  | Bytes [] => false
  | _ => true
  end.

End Fixtures.

(* ===================================================================== *)
(** * Properties *)
(* ===================================================================== *)

(** ** Paths and wildcard patterns *)

Example stem_png : Pathlib.stem ["data"; "rider.png"] = "rider".
Proof. reflexivity. Qed.

Example stem_two_dots : Pathlib.stem ["a.tar.gz"] = "a.tar".
Proof. reflexivity. Qed.

Example stem_hidden : Pathlib.stem [".bashrc"] = ".bashrc".
Proof. reflexivity. Qed.

Example stem_trailing_dot : Pathlib.stem ["photo."] = "photo.".
Proof. reflexivity. Qed.

Example suffix_upper : Pathlib.suffix ["in"; "d.JPG"] = ".JPG".
Proof. reflexivity. Qed.

Example fnmatch_jpg : Str.fnmatch "*.jpg" "a.b.jpg" = true.
Proof. reflexivity. Qed.

Example fnmatch_case : Str.fnmatch "*.jpg" "a.Jpg" = false.
Proof. reflexivity. Qed.

Example fnmatch_hidden : Str.fnmatch "*.jpg" ".jpg" = true.
Proof. reflexivity. Qed.

Example upper_ext : Str.upper ".jpeg" = ".JPEG".
Proof. reflexivity. Qed.

Example key_q : (Z.land 113 255 =? 113) = true.
Proof. reflexivity. Qed.

Example key_none : (Z.land (-1) 255 =? 113) = false.
Proof. reflexivity. Qed.

Lemma fnmatch_star_unfold (pat name : string) :
  Str.fnmatch (String "*"%char pat) name
  = Str.fnmatch pat name
    || match name with
       | EmptyString => false
       | String _ name' => Str.fnmatch (String "*"%char pat) name'
       end.
Proof. destruct name; reflexivity. Qed.

(** A pattern without [*] matches itself only. *)
Lemma fnmatch_literal (pat name : string) :
  star_free pat = true ->
  Str.fnmatch pat name = true <-> name = pat.
Proof.
  revert name. induction pat as [|c pat IH]; intros name Hsf.
  - destruct name; simpl; split; congruence.
  - simpl in Hsf. apply andb_true_iff in Hsf as [Hc Hsf].
    apply negb_true_iff in Hc. simpl. rewrite Hc.
    destruct name as [|d name]; [split; congruence|].
    rewrite andb_true_iff, (IH name Hsf), Ascii.eqb_eq.
    split; [intros [-> ->]; reflexivity | intros [= -> ->]; auto].
Qed.

(** [*] followed by a literal matches the names that end with it. *)
Lemma fnmatch_star_suffix (suf name : string) :
  star_free suf = true ->
  Str.fnmatch (String "*"%char suf) name = true
  <-> exists pre, name = pre +:+ suf.
Proof.
  intros Hsf. induction name as [|d name IH].
  - rewrite fnmatch_star_unfold, orb_false_r, (fnmatch_literal _ _ Hsf).
    split.
    + intros <-. exists EmptyString. reflexivity.
    + intros [pre Hpre]. destruct pre; simpl in Hpre; [auto | discriminate].
  - rewrite fnmatch_star_unfold, orb_true_iff, (fnmatch_literal _ _ Hsf), IH.
    split.
    + intros [-> | [pre ->]].
      * exists EmptyString. reflexivity.
      * exists (String d pre). reflexivity.
    + intros [pre Hpre]. destruct pre as [|e pre]; simpl in Hpre.
      * left. auto.
      * right. injection Hpre as -> ->. eauto.
Qed.

(** A literal prefix is consumed character by character. *)
Lemma fnmatch_prefix (pre pat name : string) :
  star_free pre = true ->
  Str.fnmatch (pre +:+ pat) name = true
  <-> exists rest, name = pre +:+ rest /\ Str.fnmatch pat rest = true.
Proof.
  revert name. induction pre as [|c pre IH]; intros name Hsf.
  - simpl. split; [eauto | intros (rest & -> & H); exact H].
  - simpl in Hsf. apply andb_true_iff in Hsf as [Hc Hsf].
    apply negb_true_iff in Hc.
    change (String c pre +:+ pat) with (String c (pre +:+ pat)).
    simpl. rewrite Hc. destruct name as [|d name].
    + split; [discriminate | intros (rest & Hr & _); discriminate].
    + rewrite andb_true_iff, (IH name Hsf), Ascii.eqb_eq. split.
      * intros [-> (rest & -> & H)]. eauto.
      * intros (rest & [= -> ->] & H). eauto.
Qed.

(** The model pattern: a fixed prefix, anything, and [.pt]. *)
Lemma fnmatch_model_pattern (name : string) :
  Str.fnmatch "helmet_detector_best_*.pt" name = true
  <-> exists mid, name = "helmet_detector_best_" +:+ mid +:+ ".pt".
Proof.
  change "helmet_detector_best_*.pt"
    with ("helmet_detector_best_" +:+ String "*"%char ".pt").
  rewrite fnmatch_prefix by reflexivity. split.
  - intros (rest & -> & H). apply fnmatch_star_suffix in H as [mid ->]; eauto.
  - intros [mid ->]. eexists. split; [reflexivity|].
    apply fnmatch_star_suffix; eauto.
Qed.

(** ** Model resolution *)

(** [max] with a key: when it returns, every key could be computed, the
    elements before the result have a smaller key and those after it none
    greater; when it raises, the error is that of the first key that could
    not be computed. *)
Lemma max_from_spec {A} (key : A -> Result Z) (rest l1 l2 : list A) (b : A)
    (kb : Z) :
  key b = Ok kb ->
  Forall (older key kb) l1 ->
  Forall (not_newer key kb) l2 ->
  match Inference.max_from key b kb rest with
  | Ok p =>
      exists before after t,
        (l1 ++ b :: l2) ++ rest = before ++ p :: after
        /\ key p = Ok t
        /\ Forall (older key t) before
        /\ Forall (not_newer key t) after
  | Raise e =>
      exists pre y post,
        (l1 ++ b :: l2) ++ rest = pre ++ y :: post
        /\ Forall (fun q => exists s, key q = Ok s) pre
        /\ key y = Raise e
  end.
Proof.
  revert l1 l2 b kb.
  induction rest as [|y rest IH]; intros l1 l2 b kb Hb H1 H2; simpl.
  - exists l1, l2, kb. rewrite app_nil_r. auto.
  - destruct (key y) as [k|e] eqn:Hy.
    + destruct (Z.ltb_spec kb k) as [Hlt|Hge].
      * specialize (IH (l1 ++ b :: l2) [] y k Hy).
        rewrite <- app_assoc in IH. simpl in IH. apply IH; [|constructor].
        apply Forall_app. split.
        -- eapply Forall_impl; [exact H1|].
           intros q (s & Hs & Hlt'). exists s. split; [exact Hs | lia].
        -- constructor; [exists kb; split; [exact Hb | lia]|].
           eapply Forall_impl; [exact H2|].
           intros q (s & Hs & Hle). exists s. split; [exact Hs | lia].
      * specialize (IH l1 (l2 ++ [y]) b kb Hb H1).
        replace ((l1 ++ b :: l2 ++ [y]) ++ rest)
          with ((l1 ++ b :: l2) ++ y :: rest) in IH
          by (rewrite <- !app_assoc; simpl; rewrite <- app_assoc; reflexivity).
        apply IH. apply Forall_app. split; [exact H2|].
        constructor; [exists k; split; [exact Hy | lia] | constructor].
    + exists (l1 ++ b :: l2), y, rest. split; [reflexivity|].
      split; [|exact Hy]. apply Forall_app. split.
      * eapply Forall_impl; [exact H1|]. intros q (s & Hs & _). eauto.
      * constructor; [eauto|].
        eapply Forall_impl; [exact H2|]. intros q (s & Hs & _). eauto.
Qed.

Lemma max_by_spec {A} (key : A -> Result Z) (x : A) (rest : list A) :
  match Inference.max_by key x rest with
  | Ok p =>
      exists before after t,
        x :: rest = before ++ p :: after
        /\ key p = Ok t
        /\ Forall (older key t) before
        /\ Forall (not_newer key t) after
  | Raise e =>
      exists pre y post,
        x :: rest = pre ++ y :: post
        /\ Forall (fun q => exists s, key q = Ok s) pre
        /\ key y = Raise e
  end.
Proof.
  unfold Inference.max_by. destruct (key x) as [k|e] eqn:Hx.
  - apply (max_from_spec key rest [] [] x k Hx); constructor.
  - exists [], x, rest. split; [reflexivity|]. split; [constructor | exact Hx].
Qed.

(** The error of [max] is the error of the first key that raises. *)
Lemma max_by_raise {A} (key : A -> Result Z) (x : A) (rest pre post : list A)
    (y : A) (e : Exn) :
  x :: rest = pre ++ y :: post ->
  Forall (fun q => exists s, key q = Ok s) pre ->
  key y = Raise e ->
  Inference.max_by key x rest = Raise e.
Proof.
  intros Heq Hpre Hy. pose proof (max_by_spec key x rest) as H.
  destruct (Inference.max_by key x rest) as [p|e'].
  - exfalso. destruct H as (before & after & t & Hsplit & Hp & Hb & Ha).
    assert (Hall : Forall (fun q => exists s, key q = Ok s) (x :: rest)).
    { rewrite Hsplit. apply Forall_app. split.
      - eapply Forall_impl; [exact Hb|]. intros q (s & Hs & _). eauto.
      - constructor; [eauto|].
        eapply Forall_impl; [exact Ha|]. intros q (s & Hs & _). eauto. }
    rewrite Heq in Hall. apply Forall_app in Hall as [_ Hall].
    apply Forall_cons_1 in Hall as [[s Hs] _]. congruence.
  - destruct H as (pre' & y' & post' & Hsplit & Hpre' & Hy').
    rewrite Heq in Hsplit. clear Heq. revert pre' Hsplit Hpre'.
    induction Hpre as [|a pre [s Ha] Hpre IH]; intros pre' Hsplit Hpre'.
    + destruct pre' as [|a' pre']; simpl in Hsplit.
      * injection Hsplit as -> _. congruence.
      * injection Hsplit as <- _. apply Forall_cons_1 in Hpre' as [[s Hs] _].
        congruence.
    + destruct pre' as [|a' pre']; simpl in Hsplit.
      * injection Hsplit as -> _. congruence.
      * injection Hsplit as <- Hsplit.
        apply Forall_cons_1 in Hpre' as [_ Hpre'].
        apply (IH pre' Hsplit Hpre').
Qed.

(** [stat] succeeds on what exists, a regular file or a directory, and on
    nothing else. *)
Lemma getmtime_exists (dir_mtime : Path -> Z) (fs : FS) (p : Path) :
  if Fs.exists_ fs p
  then exists t, Fs.getmtime dir_mtime fs p = Ok t
  else Fs.getmtime dir_mtime fs p = Raise (FileNotFoundError (Pathlib.str p)).
Proof.
  unfold Fs.exists_, Fs.getmtime, Fs.is_file.
  destruct (fs_files fs !! p) as [f|] eqn:Hf.
  - rewrite bool_decide_eq_true_2 by eauto. rewrite orb_true_r. eauto.
  - rewrite bool_decide_eq_false_2 by (intros [f Hf']; discriminate).
    rewrite orb_false_r. destruct (Fs.is_dir fs p); eauto.
Qed.

(** The candidates of the model resolution are the entries of [models]
    named [helmet_detector_best_<anything>.pt]. *)
Lemma model_candidates (fs : FS) (p : Path) :
  p ∈ Fs.glob fs ["models"] "helmet_detector_best_*.pt"
  <-> exists mid,
        p = ["models"; "helmet_detector_best_" +:+ mid +:+ ".pt"]
        /\ "helmet_detector_best_" +:+ mid +:+ ".pt"
             ∈ Fs.listdir fs ["models"].
Proof.
  unfold Fs.glob. rewrite list_elem_of_fmap. split.
  - intros (n & -> & Hn). apply list_elem_of_filter in Hn as [Hm Hn].
    apply fnmatch_model_pattern in Hm as [mid ->]. eauto.
  - intros (mid & -> & Hn). eexists. split; [reflexivity|].
    apply list_elem_of_filter. split; [|exact Hn].
    apply fnmatch_model_pattern. eauto.
Qed.

(** Both resolutions take the same [max]. *)
Lemma find_latest_model_max (dir_mtime : Path -> Z) (w : World)
    (f : Path) (rest : list Path) :
  Fs.exists_ (w_fs w) ["models"] = true ->
  Fs.glob (w_fs w) ["models"] "helmet_detector_best_*.pt" = f :: rest ->
  Inference.find_latest_model dir_mtime w
  = (w, Inference.max_by (Fs.getmtime dir_mtime (w_fs w)) f rest)
  /\ Api.find_latest_model dir_mtime (w_fs w)
     = match Inference.max_by (Fs.getmtime dir_mtime (w_fs w)) f rest with
       | Ok p => Ok (Some p)
       | Raise e => Raise e
       end.
Proof.
  intros Hex Hglob.
  unfold Inference.find_latest_model, Api.find_latest_model.
  rewrite Hex, Hglob. split; reflexivity.
Qed.

(** C10 (amended). Both [find_latest_model] functions fail when [models]
    does not exist or holds no entry matching [helmet_detector_best_*.pt]
    ([Inference.py] raises [FileNotFoundError], [Api.py] returns [None]).
    Otherwise, when every matching entry exists (as a regular file or as a
    directory), both return a matching entry whose modification time is
    greatest among all matching entries; when a matching entry has nothing
    behind it, the [FileNotFoundError] of its [stat] call leaves both
    functions. *)
Theorem find_latest_model_latest (dir_mtime : Path -> Z) (w : World) :
  let fs := w_fs w in
  let mtime := Fs.getmtime dir_mtime fs in
  let candidates := Fs.glob fs ["models"] "helmet_detector_best_*.pt" in
  (Fs.exists_ fs ["models"] = false \/ candidates = [] ->
     Api.find_latest_model dir_mtime fs = Ok None
     /\ exists msg,
          Inference.find_latest_model dir_mtime w
          = (w, Raise (FileNotFoundError msg)))
  /\ (Fs.exists_ fs ["models"] = true -> candidates <> [] ->
      Forall (fun q => Fs.exists_ fs q = true) candidates ->
      exists p t,
        Api.find_latest_model dir_mtime fs = Ok (Some p)
        /\ Inference.find_latest_model dir_mtime w = (w, Ok p)
        /\ p ∈ candidates
        /\ mtime p = Ok t
        /\ forall q, q ∈ candidates -> not_newer mtime t q)
  /\ (Fs.exists_ fs ["models"] = true ->
      forall pre q post,
        candidates = pre ++ q :: post ->
        Forall (fun q => Fs.exists_ fs q = true) pre ->
        Fs.exists_ fs q = false ->
        Api.find_latest_model dir_mtime fs
        = Raise (FileNotFoundError (Pathlib.str q))
        /\ Inference.find_latest_model dir_mtime w
           = (w, Raise (FileNotFoundError (Pathlib.str q)))).
Proof.
  intros fs mtime candidates. subst fs. split; [|split].
  - unfold Api.find_latest_model, Inference.find_latest_model.
    fold candidates. intros [Hno | Hnil].
    + rewrite Hno. simpl. eauto.
    + destruct (Fs.exists_ (w_fs w) ["models"]); simpl; [|eauto].
      rewrite Hnil. eauto.
  - intros Hex Hne Hall.
    destruct candidates as [|f rest] eqn:Hglob; [congruence|].
    destruct (find_latest_model_max dir_mtime w f rest Hex Hglob)
      as [-> ->].
    pose proof (max_by_spec mtime f rest) as H. fold mtime.
    destruct (Inference.max_by mtime f rest) as [p|e].
    + destruct H as (before & after & t & Hsplit & Hp & Hb & Ha).
      exists p, t. split; [reflexivity|]. split; [reflexivity|].
      split; [rewrite Hsplit; apply elem_of_app; right;
              apply list_elem_of_here|].
      split; [exact Hp|]. intros q Hq. rewrite Hsplit in Hq.
      apply elem_of_app in Hq as [Hq|Hq].
      * rewrite Forall_forall in Hb. destruct (Hb q Hq) as (s & Hs & Hlt).
        exists s. split; [exact Hs | lia].
      * apply elem_of_cons in Hq as [-> | Hq].
        -- exists t. split; [exact Hp | lia].
        -- rewrite Forall_forall in Ha. exact (Ha q Hq).
    + exfalso. destruct H as (pre & y & post & Hsplit & _ & Hy).
      rewrite Forall_forall in Hall.
      assert (Hin : y ∈ f :: rest).
      { rewrite Hsplit. apply elem_of_app. right. apply list_elem_of_here. }
      pose proof (getmtime_exists dir_mtime (w_fs w) y) as Hst.
      rewrite (Hall y Hin) in Hst. destruct Hst as [t Ht].
      unfold mtime in Hy. congruence.
  - intros Hex pre q post Hsplit Hpre Hq.
    destruct candidates as [|f rest] eqn:Hglob;
      [destruct pre; discriminate|].
    destruct (find_latest_model_max dir_mtime w f rest Hex Hglob)
      as [-> ->].
    pose proof (getmtime_exists dir_mtime (w_fs w) q) as Hst.
    rewrite Hq in Hst.
    rewrite (max_by_raise (Fs.getmtime dir_mtime (w_fs w)) f rest pre post q
               (FileNotFoundError (Pathlib.str q)) Hsplit);
      [split; reflexivity | | exact Hst].
    eapply Forall_impl; [exact Hpre|]. intros a Ha.
    pose proof (getmtime_exists dir_mtime (w_fs w) a) as Hsa.
    rewrite Ha in Hsa. exact Hsa.
Qed.

Lemma find_latest_model_latest_witness :
  let fs := Sample.models_fs in
  let mtime := Fs.getmtime Sample.dir_mtime fs in
  let candidates := Fs.glob fs ["models"] "helmet_detector_best_*.pt" in
  (Api.find_latest_model Sample.dir_mtime fs
   = Ok (Some ["models"; "helmet_detector_best_b.pt"])
   /\ exists p t,
        Api.find_latest_model Sample.dir_mtime fs = Ok (Some p)
        /\ Inference.find_latest_model Sample.dir_mtime (Sample.world fs)
           = (Sample.world fs, Ok p)
        /\ p ∈ candidates
        /\ mtime p = Ok t
        /\ forall q, q ∈ candidates -> not_newer mtime t q)
  /\ Api.find_latest_model Sample.dir_mtime Sample.photos_fs = Ok None
  /\ Api.find_latest_model Sample.dir_mtime Fixtures.dangling_fs
     = Raise (FileNotFoundError "models/helmet_detector_best_link.pt").
Proof.
  intros fs mtime candidates. split; [split; [reflexivity|]|split].
  - apply (proj1 (proj2 (find_latest_model_latest Sample.dir_mtime
                           (Sample.world Sample.models_fs))));
      [reflexivity | discriminate |].
    repeat constructor.
  - apply (proj1 (find_latest_model_latest Sample.dir_mtime
                    (Sample.world Sample.photos_fs))).
    left. reflexivity.
  - apply (proj2 (proj2 (find_latest_model_latest Sample.dir_mtime
                           (Sample.world Fixtures.dangling_fs)))
             eq_refl [["models"; "helmet_detector_best_a.pt"]]
             ["models"; "helmet_detector_best_link.pt"] []);
      [reflexivity | repeat constructor | reflexivity].
Defined.

(** C10, as the claim words it, fails: next to a trained model lies an
    entry of the same naming with nothing behind it; neither function
    returns the model, the error of [stat] leaves both.  And what is
    returned need not be a file: a directory of that naming is a candidate
    like any other. *)
Lemma find_latest_model_latest_counterexample :
  let fs := Fixtures.dangling_fs in
  let a := ["models"; "helmet_detector_best_a.pt"] in
  let d := ["models"; "helmet_detector_best_d.pt"] in
  let e := FileNotFoundError "models/helmet_detector_best_link.pt" in
  (Fs.exists_ fs ["models"] = true
   /\ a ∈ Fs.glob fs ["models"] "helmet_detector_best_*.pt"
   /\ Fs.is_file fs a = true
   /\ Inference.find_latest_model Sample.dir_mtime (Sample.world fs)
      = (Sample.world fs, Raise e)
   /\ Api.find_latest_model Sample.dir_mtime fs = Raise e
   /\ ~ exists p,
          (Inference.find_latest_model Sample.dir_mtime (Sample.world fs)).2
          = Ok p)
  /\ (Fs.is_file Fixtures.folder_fs a = true
      /\ Fs.is_file Fixtures.folder_fs d = false
      /\ Api.find_latest_model Sample.dir_mtime Fixtures.folder_fs
         = Ok (Some d)).
Proof.
  intros fs a d e.
  assert (Hrun : Inference.find_latest_model Sample.dir_mtime (Sample.world fs)
                 = (Sample.world fs, Raise e)) by reflexivity.
  split; [|repeat split; reflexivity].
  split; [reflexivity|]. split; [vm_compute; apply list_elem_of_here|].
  split; [reflexivity|]. split; [exact Hrun|]. split; [reflexivity|].
  intros [p Hp]. rewrite Hrun in Hp. discriminate.
Qed.

(** ** The serving shell *)

(** The service-unavailable answer is given for a missing model only, and
    the bad-request answer only when [cv2.imdecode] returns [None]. *)
Lemma predict_error_codes_only (decode : list N -> Result (option Image))
    (model : option Model) (contents : list N) (conf iou : Q)
    (code : nat) (detail : string) :
  Api.predict decode model contents conf iou
    = Api.HTTPException code detail ->
  (code = 503%nat /\ detail = "Model not loaded" /\ model = None)
  \/ (code = 400%nat /\ detail = "Invalid image file" /\ model <> None
      /\ Api.imdecode decode contents = Ok None).
Proof.
  unfold Api.predict. destruct model as [m|]; [|intros [= <- <-]; auto].
  destruct (Api.imdecode decode contents) as [[image|]|e];
    [|intros [= <- <-]; right; auto | discriminate].
  destruct (predict_image m image conf iou) as [results|e]; [|discriminate].
  destruct (Api.detections_of _ _); discriminate.
Qed.





(** A decodable payload with a loaded model is answered with the
    detections. *)
Example predict_responds :
  Api.predict Sample.decode (Some Sample.detector) [255%N] (1 # 4) (1 # 2)
  = Api.Respond
      {| Api.success := true;
         Api.detections :=
           [ {| Api.class_name := "helmet"; Api.confidence := 9 # 10;
                Api.bbox := [0; 0; 1; 1]%Q |};
             {| Api.class_name := "helmet"; Api.confidence := 9 # 10;
                Api.bbox := [0; 0; 1; 1]%Q |} ];
         Api.image_size := [2; 1]%nat;
         Api.message := "2 object(s) detected" |}.
Proof. vm_compute. reflexivity. Qed.

(** ** The file system: [mkdir -p] and file writes *)

Lemma is_dir_true (fs : FS) (p : Path) :
  Fs.is_dir fs p = true <-> p = [] \/ is_Some (fs_dirs fs !! p).
Proof.
  unfold Fs.is_dir.
  rewrite orb_true_iff, !bool_decide_eq_true. reflexivity.
Qed.

Lemma is_Some_link (p q : Path) (dirs : gmap Path (list string)) :
  is_Some (Fs.link p dirs !! q) <-> is_Some (dirs !! q).
Proof.
  unfold Fs.link. rewrite lookup_alter. case_decide; [subst|reflexivity].
  rewrite fmap_is_Some. reflexivity.
Qed.

Lemma mkdir1_files (p : Path) (fs fs' : FS) :
  Fs.mkdir1 p fs = Ok fs' ->
  fs_files fs' = fs_files fs /\ fs_files fs !! p = None.
Proof.
  unfold Fs.mkdir1. destruct (fs_files fs !! p); [discriminate|].
  destruct (Fs.is_dir fs p); intros [= <-]; auto.
Qed.

Lemma mkdir1_is_dir (p : Path) (fs fs' : FS) :
  Fs.mkdir1 p fs = Ok fs' -> Fs.is_dir fs' p = true.
Proof.
  unfold Fs.mkdir1. destruct (fs_files fs !! p); [discriminate|].
  destruct (Fs.is_dir fs p) eqn:Hd; intros [= <-]; [exact Hd|].
  apply is_dir_true. right. simpl. rewrite lookup_insert_eq. eauto.
Qed.

Lemma mkdir1_mono (p q : Path) (fs fs' : FS) :
  Fs.mkdir1 p fs = Ok fs' -> Fs.is_dir fs q = true -> Fs.is_dir fs' q = true.
Proof.
  unfold Fs.mkdir1. destruct (fs_files fs !! p); [discriminate|].
  destruct (Fs.is_dir fs p); intros [= <-]; [auto|].
  rewrite !is_dir_true. intros [-> | Hq]; [auto|]. right. simpl.
  destruct (decide (p = q)) as [->|Hne].
  - rewrite lookup_insert_eq. eauto.
  - rewrite lookup_insert_ne by exact Hne. apply is_Some_link, Hq.
Qed.

Lemma mkdir_from_files (rest : list string) (done : Path) (fs fs' : FS) :
  Fs.mkdir_from done rest fs = Ok fs' -> fs_files fs' = fs_files fs.
Proof.
  revert done fs. induction rest as [|c rest IH]; intros done fs; simpl.
  - intros [= <-]. reflexivity.
  - destruct (Fs.mkdir1 (done ++ [c]) fs) as [fs1|e] eqn:H1; [|discriminate].
    intros H. apply IH in H. apply mkdir1_files in H1 as [H1 _]. congruence.
Qed.

Lemma mkdir_from_mono (rest : list string) (done q : Path) (fs fs' : FS) :
  Fs.mkdir_from done rest fs = Ok fs' ->
  Fs.is_dir fs q = true -> Fs.is_dir fs' q = true.
Proof.
  revert done fs. induction rest as [|c rest IH]; intros done fs; simpl.
  - intros [= <-]. auto.
  - destruct (Fs.mkdir1 (done ++ [c]) fs) as [fs1|e] eqn:H1; [|discriminate].
    intros H Hq. eapply IH; [exact H|]. eapply mkdir1_mono; eauto.
Qed.

(** After [mkdir -p], the directory is there. *)
Lemma mkdir_from_is_dir (rest : list string) (done : Path) (fs fs' : FS) :
  Fs.mkdir_from done rest fs = Ok fs' ->
  Fs.is_dir fs done = true ->
  Fs.is_dir fs' (done ++ rest) = true.
Proof.
  revert done fs. induction rest as [|c rest IH]; intros done fs; simpl.
  - intros [= <-]. rewrite app_nil_r. auto.
  - destruct (Fs.mkdir1 (done ++ [c]) fs) as [fs1|e] eqn:H1; [|discriminate].
    intros H _. rewrite (cons_middle c done rest), app_assoc.
    eapply IH; [exact H|]. eapply mkdir1_is_dir, H1.
Qed.

Lemma mkdir_p_is_dir (p : Path) (fs fs' : FS) :
  Fs.mkdir_p p fs = Ok fs' -> Fs.is_dir fs' p = true.
Proof.
  intros H. apply (mkdir_from_is_dir p [] fs fs' H). reflexivity.
Qed.

Lemma mkdir_from_all_dirs (rest : list string) (done : Path) (fs fs' : FS) :
  Fs.mkdir_from done rest fs = Ok fs' -> all_dirs done rest fs'.
Proof.
  revert done fs. induction rest as [|c rest IH]; intros done fs; simpl.
  - auto.
  - destruct (Fs.mkdir1 (done ++ [c]) fs) as [fs1|e] eqn:H1; [|discriminate].
    intros H. pose proof (mkdir_from_files _ _ _ _ H) as Hf.
    pose proof (mkdir1_files _ _ _ H1) as [Hf1 Hnone].
    split; [congruence|]. split; [|eapply IH, H].
    eapply mkdir_from_mono; [exact H|]. eapply mkdir1_is_dir, H1.
Qed.

(** [mkdir -p] on what is already there changes nothing. *)
Lemma all_dirs_mkdir_from (rest : list string) (done : Path) (fs : FS) :
  all_dirs done rest fs -> Fs.mkdir_from done rest fs = Ok fs.
Proof.
  revert done. induction rest as [|c rest IH]; intros done; simpl; [auto|].
  intros (Hnone & Hdir & Hrest). unfold Fs.mkdir1.
  rewrite Hnone, Hdir. apply IH, Hrest.
Qed.

(** Writing a file below the directory keeps the directory chain. *)
Lemma all_dirs_write (rest : list string) (done out : Path)
    (now : Z) (d : Data) (fs : FS) :
  (length done + length rest < length out)%nat ->
  all_dirs done rest fs ->
  all_dirs done rest (Fs.write_file out now d fs).2.
Proof.
  revert done. induction rest as [|c rest IH]; intros done Hlen; simpl; [auto|].
  intros (Hnone & Hdir & Hrest).
  assert (Hstep : all_dirs (done ++ [c]) rest (Fs.write_file out now d fs).2).
  { apply IH; [rewrite length_app; simpl in *; lia | exact Hrest]. }
  split; [|split; [|exact Hstep]].
  - unfold Fs.write_file. destruct (_ && _); simpl; [|exact Hnone].
    rewrite lookup_insert_ne; [exact Hnone|].
    intros ->. rewrite length_app in Hlen. simpl in Hlen. lia.
  - unfold Fs.write_file. destruct (_ && _); simpl; [|exact Hdir].
    apply is_dir_true in Hdir. apply is_dir_true. simpl.
    destruct Hdir as [Hd | Hd]; [auto|]. right. apply is_Some_link, Hd.
Qed.

Lemma parent_child (p : Path) (n : string) :
  Pathlib.parent (Pathlib.child p n) = p.
Proof. unfold Pathlib.parent, Pathlib.child. apply removelast_last. Qed.

Lemma add_entry_idem (n : string) (entries : list string) :
  Fs.add_entry n (Fs.add_entry n entries) = Fs.add_entry n entries.
Proof.
  unfold Fs.add_entry. destruct (bool_decide (n ∈ entries)) eqn:Hin.
  - rewrite Hin. reflexivity.
  - rewrite bool_decide_eq_true_2; [reflexivity|].
    apply elem_of_app. right. apply list_elem_of_here.
Qed.

Lemma link_idem (p : Path) (dirs : gmap Path (list string)) :
  Fs.link p (Fs.link p dirs) = Fs.link p dirs.
Proof.
  unfold Fs.link. apply map_eq. intros q. rewrite !lookup_alter.
  destruct (decide (Pathlib.parent p = q)) as [<-|Hne].
  - rewrite decide_True by reflexivity.
    destruct (dirs !! Pathlib.parent p); simpl; [|reflexivity].
    rewrite add_entry_idem. reflexivity.
  - reflexivity.
Qed.

Lemma is_dir_link (p q : Path) (fs : FS) (files : gmap Path File) :
  Fs.is_dir {| fs_dirs := Fs.link p (fs_dirs fs); fs_files := files |} q
  = Fs.is_dir fs q.
Proof.
  unfold Fs.is_dir. simpl. f_equal. apply bool_decide_ext, is_Some_link.
Qed.

(** ** The per-item processor *)

(** [run_inference_image], step by step. *)
Lemma run_inference_image_steps (model : Model) (image_path : Path)
    (conf : Q) (save_dir : Path) (w : World) :
  Inference.run_inference_image model image_path conf save_dir w
  = match Fs.mkdir_p save_dir (w_fs w) with
    | Raise e => (w, Raise e)
    | Ok fs1 =>
        match predict_path model image_path conf Inference.iou fs1 with
        | Raise e => (set_fs fs1 w, Raise e)
        | Ok results =>
            let output_path :=
              Pathlib.child save_dir
                (Pathlib.stem image_path +:+ "_detected.jpg") in
            ({| w_fs := (Fs.write_file output_path (w_clock w)
                           (Picture (cvtColor_RGB2BGR (plot results))) fs1).2;
                w_clock := w_clock w; w_camera := w_camera w;
                w_keys := w_keys w;
                w_trace :=
                  (w_trace w
                   ++ [EvPrint (MsgDetections (Pathlib.name image_path)
                                  (length (boxes results)))])
                   ++ [EvPrint (MsgSaved output_path)] |},
             Ok (output_path, results))
        end
    end.
Proof.
  unfold Inference.run_inference_image, mbind, M_bind, bind, mkdir, lift_fs.
  destruct (Fs.mkdir_p save_dir (w_fs w)) as [fs1|e]; [|reflexivity].
  simpl. destruct (predict_path model image_path conf Inference.iou fs1)
    as [results|e]; [|reflexivity].
  unfold imwrite. simpl.
  destruct (Fs.write_file _ _ _ fs1) as [ok fs2]. reflexivity.
Qed.

Lemma write_file_lookup (p : Path) (now : Z) (d : Data) (fs : FS) :
  Fs.is_dir fs (Pathlib.parent p) = true ->
  Fs.is_dir fs p = false ->
  fs_files (Fs.write_file p now d fs).2 !! p = Some (mkFile now d).
Proof.
  intros Hpar Hp. unfold Fs.write_file. rewrite Hpar, Hp. simpl.
  apply lookup_insert_eq.
Qed.

Lemma write_file_is_dir (p q : Path) (now : Z) (d : Data) (fs : FS) :
  Fs.is_dir (Fs.write_file p now d fs).2 q = Fs.is_dir fs q.
Proof.
  unfold Fs.write_file. destruct (_ && _); [|reflexivity].
  simpl. apply is_dir_link.
Qed.

Lemma write_file_other (p q : Path) (now : Z) (d : Data) (fs : FS) :
  q <> p -> fs_files (Fs.write_file p now d fs).2 !! q = fs_files fs !! q.
Proof.
  intros Hne. unfold Fs.write_file. destruct (_ && _); [|reflexivity].
  simpl. apply lookup_insert_ne. auto.
Qed.

(** [mkdir -p] makes directories along its own path only. *)
Lemma mkdir1_is_dir_inv (p q : Path) (fs fs' : FS) :
  Fs.mkdir1 p fs = Ok fs' ->
  Fs.is_dir fs' q = true -> Fs.is_dir fs q = true \/ q = p.
Proof.
  unfold Fs.mkdir1. destruct (fs_files fs !! p); [discriminate|].
  destruct (Fs.is_dir fs p); intros [= <-]; [auto|].
  rewrite !is_dir_true. simpl. intros [-> | Hq]; [auto|].
  destruct (decide (p = q)) as [->|Hne]; [auto|].
  rewrite lookup_insert_ne in Hq by exact Hne.
  left. right. apply is_Some_link in Hq. exact Hq.
Qed.

Lemma mkdir_from_is_dir_inv (rest : list string) (done q : Path)
    (fs fs' : FS) :
  Fs.mkdir_from done rest fs = Ok fs' ->
  Fs.is_dir fs' q = true ->
  Fs.is_dir fs q = true \/ (length q <= length done + length rest)%nat.
Proof.
  revert done fs. induction rest as [|c rest IH]; intros done fs; simpl.
  - intros [= <-]. auto.
  - destruct (Fs.mkdir1 (done ++ [c]) fs) as [fs1|e] eqn:H1; [|discriminate].
    intros H Hq. destruct (IH _ _ H Hq) as [Hq1 | Hlen].
    + destruct (mkdir1_is_dir_inv _ _ _ _ H1 Hq1) as [Hq0 | ->]; [auto|].
      right. rewrite length_app. simpl. lia.
    + right. rewrite length_app in Hlen. simpl in Hlen. lia.
Qed.

(** The output path of an item is no directory after [mkdir -p] of the
    output directory unless it was one before. *)
Lemma mkdir_p_child_is_dir (save_dir : Path) (n : string) (fs fs1 : FS) :
  Fs.mkdir_p save_dir fs = Ok fs1 ->
  Fs.is_dir fs (Pathlib.child save_dir n) = false ->
  Fs.is_dir fs1 (Pathlib.child save_dir n) = false.
Proof.
  intros Hmk Hno. destruct (Fs.is_dir fs1 (Pathlib.child save_dir n)) eqn:Hd;
    [|reflexivity].
  destruct (mkdir_from_is_dir_inv _ _ _ _ _ Hmk Hd) as [H|H]; [congruence|].
  unfold Pathlib.child in H. rewrite length_app in H. simpl in H. lia.
Qed.

(** Writing the same path a second time replaces the file: no entry and no
    file is added. *)
Lemma write_file_twice (p : Path) (t1 t2 : Z) (d1 d2 : Data) (fs : FS) :
  let fs1 := (Fs.write_file p t1 d1 fs).2 in
  let fs2 := (Fs.write_file p t2 d2 fs1).2 in
  fs_dirs fs2 = fs_dirs fs1
  /\ dom (fs_files fs2) = dom (fs_files fs1)
  /\ (Fs.write_file p t1 d1 fs).1 = (Fs.write_file p t2 d2 fs1).1.
Proof.
  intros fs1 fs2. subst fs1 fs2. unfold Fs.write_file.
  destruct (Fs.is_dir fs (Pathlib.parent p) && negb (Fs.is_dir fs p)) eqn:Hc.
  - simpl. rewrite !is_dir_link, Hc. simpl.
    rewrite link_idem, !dom_insert_L. split; [reflexivity|].
    split; [|reflexivity].
    rewrite (assoc_L (∪)), (idemp_L (∪)). reflexivity.
  - simpl. rewrite Hc. auto.
Qed.

(** C7 (amended). For every source, the per-item processor writes its
    annotated output under the file name [<stem>_detected.jpg] in the
    output directory, whatever the extension of the source, and the output
    directory exists afterwards. *)
Theorem run_inference_image_output (model : Model) (image_path : Path)
    (conf : Q) (save_dir : Path) (w : World) (fs1 : FS) (results : Results) :
  Fs.mkdir_p save_dir (w_fs w) = Ok fs1 ->
  predict_path model image_path conf Inference.iou fs1 = Ok results ->
  let output_path :=
    Pathlib.child save_dir (Pathlib.stem image_path +:+ "_detected.jpg") in
  exists w',
    Inference.run_inference_image model image_path conf save_dir w
      = (w', Ok (output_path, results))
    /\ Fs.is_dir (w_fs w') save_dir = true
    /\ (Fs.is_dir fs1 output_path = false ->
        fs_files (w_fs w') !! output_path
        = Some (mkFile (w_clock w)
                  (Picture (cvtColor_RGB2BGR (plot results))))).
Proof.
  intros Hmk Hpred output_path.
  rewrite run_inference_image_steps, Hmk, Hpred.
  eexists. split; [reflexivity|]. simpl. fold output_path.
  pose proof (mkdir_p_is_dir _ _ _ Hmk) as Hdir. split.
  - rewrite write_file_is_dir. exact Hdir.
  - intros Hout. apply write_file_lookup; [|exact Hout].
    unfold output_path. rewrite parent_child. exact Hdir.
Qed.

Lemma run_inference_image_output_witness :
  exists w',
    Inference.run_inference_image Sample.detector ["in"; "rider.png"]
      (1 # 4) ["results"; "inference"] (Sample.world Sample.empty_fs)
      = (w', Ok (["results"; "inference"; "rider_detected.jpg"],
                 Sample.result))
    /\ Fs.is_dir (w_fs w') ["results"; "inference"] = true
    /\ fs_files (w_fs w') !! ["results"; "inference"; "rider_detected.jpg"]
       = Some (mkFile 100 (Picture (cvtColor_RGB2BGR Sample.frame))).
Proof.
  destruct (run_inference_image_output Sample.detector ["in"; "rider.png"]
              (1 # 4) ["results"; "inference"] (Sample.world Sample.empty_fs)
              _ Sample.result eq_refl eq_refl)
    as (w' & Hrun & Hdir & Hfile).
  exists w'. split; [exact Hrun|]. split; [exact Hdir|].
  apply Hfile. vm_compute. reflexivity.
Defined.

(** C7, as the specification words it, fails: a [.png] source is written
    to a [.jpg] name. *)
Lemma output_name_keeps_extension_counterexample :
  (Inference.run_inference_image Sample.detector ["in"; "rider.png"]
     (1 # 4) ["out"] (Sample.world Sample.empty_fs)).2
  = Ok (["out"; "rider_detected.jpg"], Sample.result)
  /\ Spec.output_name ["in"; "rider.png"] = "rider_detected.png"
  /\ Pathlib.name ["out"; "rider_detected.jpg"]
     <> Spec.output_name ["in"; "rider.png"].
Proof.
  split; [vm_compute; reflexivity|]. split; [reflexivity|].
  vm_compute. discriminate.
Qed.

(** C8. When a call of the per-item processor has returned and its output
    path was not a directory, the output file holds the annotated image of
    that call; a second call with the same arguments returns the same
    output path and overwrites that file with its own annotated image: the
    directories, their listings and the set of files are what the first
    call left, and no other file is changed. *)
Theorem run_inference_image_twice (model : Model) (image_path : Path)
    (conf : Q) (save_dir : Path) (w w1 : World) (p1 : Path)
    (r1 r2 : Results) :
  Inference.run_inference_image model image_path conf save_dir w
    = (w1, Ok (p1, r1)) ->
  Fs.is_dir (w_fs w) p1 = false ->
  predict_path model image_path conf Inference.iou (w_fs w1) = Ok r2 ->
  fs_files (w_fs w1) !! p1
  = Some (mkFile (w_clock w) (Picture (cvtColor_RGB2BGR (plot r1))))
  /\ exists w2,
       Inference.run_inference_image model image_path conf save_dir w1
         = (w2, Ok (p1, r2))
       /\ fs_files (w_fs w2) !! p1
          = Some (mkFile (w_clock w1) (Picture (cvtColor_RGB2BGR (plot r2))))
       /\ fs_dirs (w_fs w2) = fs_dirs (w_fs w1)
       /\ dom (fs_files (w_fs w2)) = dom (fs_files (w_fs w1))
       /\ forall q, q <> p1 ->
            fs_files (w_fs w2) !! q = fs_files (w_fs w1) !! q.
Proof.
  rewrite run_inference_image_steps.
  destruct (Fs.mkdir_p save_dir (w_fs w)) as [fs1|e] eqn:Hmk; [|discriminate].
  destruct (predict_path model image_path conf Inference.iou fs1)
    as [r|e]; [|discriminate].
  intros [= <- <- <-] Hnodir Hpred. simpl in Hpred.
  set (out := Pathlib.child save_dir
                (Pathlib.stem image_path +:+ "_detected.jpg")) in *.
  set (d1 := Picture (cvtColor_RGB2BGR (plot r))) in *.
  assert (Hout : Fs.is_dir fs1 out = false)
    by (apply (mkdir_p_child_is_dir _ _ _ _ Hmk Hnodir)).
  assert (Hpar : Fs.is_dir fs1 (Pathlib.parent out) = true).
  { unfold out. rewrite parent_child. apply (mkdir_p_is_dir _ _ _ Hmk). }
  cbn [w_fs w_clock]. split; [apply write_file_lookup; assumption|].
  rewrite run_inference_image_steps. cbn [w_fs w_clock w_trace]. fold out.
  assert (Hmk2 : Fs.mkdir_p save_dir (Fs.write_file out (w_clock w) d1 fs1).2
                 = Ok (Fs.write_file out (w_clock w) d1 fs1).2).
  { apply all_dirs_mkdir_from, all_dirs_write.
    - unfold out, Pathlib.child. rewrite length_app. simpl. lia.
    - apply (mkdir_from_all_dirs _ _ _ _ Hmk). }
  rewrite Hmk2, Hpred. eexists. split; [reflexivity|]. cbn [w_fs].
  pose proof (write_file_twice out (w_clock w) (w_clock w) d1
                (Picture (cvtColor_RGB2BGR (plot r2))) fs1)
    as (Hdirs & Hdom & _).
  split; [|split; [exact Hdirs|split; [exact Hdom|]]].
  - apply write_file_lookup; rewrite write_file_is_dir; assumption.
  - intros q Hq. apply write_file_other, Hq.
Qed.

Lemma run_inference_image_twice_witness :
  let run :=
    Inference.run_inference_image Fixtures.reader ["in"; "a.png"]
      (1 # 4) ["results"; "inference"] in
  let out := ["results"; "inference"; "a_detected.jpg"] in
  let w := Sample.world Sample.photos_fs in
  let w1 := (run w).1 in
  let picture := mkFile 100 (Picture (cvtColor_RGB2BGR Sample.frame)) in
  Fs.is_dir (w_fs w) out = false
  /\ fs_files (w_fs w1) !! out = Some picture
  /\ exists w2,
       run w1 = (w2, Ok (out, Sample.result))
       /\ fs_files (w_fs w2) !! out = Some picture
       /\ fs_dirs (w_fs w2) = fs_dirs (w_fs w1)
       /\ dom (fs_files (w_fs w2)) = dom (fs_files (w_fs w1))
       /\ forall q, q <> out ->
            fs_files (w_fs w2) !! q = fs_files (w_fs w1) !! q.
Proof.
  intros run out w w1 picture. split; [reflexivity|].
  apply (run_inference_image_twice Fixtures.reader ["in"; "a.png"]
           (1 # 4) ["results"; "inference"] w w1 out
           Sample.result Sample.result).
  - vm_compute. reflexivity.
  - reflexivity.
  - vm_compute. reflexivity.
Defined.

(** ** The enumeration of the batch *)

Lemma image_files_flat (fs : FS) (input_path : Path) :
  Inference.image_files fs input_path
  = Pathlib.child input_path
      <$> flat_map (fun pat =>
                      filter (fun n => Str.fnmatch pat n = true)
                             (Fs.listdir fs input_path))
                   glob_patterns.
Proof.
  unfold Inference.image_files, Fs.glob, glob_patterns,
    Inference.image_extensions.
  cbn [foldl flat_map]. rewrite !fmap_app, app_nil_r, <- !app_assoc.
  reflexivity.
Qed.

Ltac listed := apply list_elem_of_In; simpl; tauto.

(** The patterns are the extensions of the allow-list, each in lower and in
    upper case, behind a wildcard. *)
Lemma glob_patterns_ext (pat : string) :
  pat ∈ glob_patterns
  <-> exists ext,
        ext ∈ Inference.image_extensions
        /\ (pat = "*" +:+ ext \/ pat = "*" +:+ Str.upper ext).
Proof.
  unfold glob_patterns, Inference.image_extensions. split.
  - intros H.
    repeat (apply elem_of_cons in H as [-> | H]); [..|inversion H];
      [ exists ".jpg" | exists ".jpg" | exists ".jpeg" | exists ".jpeg"
      | exists ".png" | exists ".png" | exists ".bmp" | exists ".bmp"
      | exists ".webp" | exists ".webp" ];
      (split; [listed | auto]).
  - intros (ext & H & Hpat).
    repeat (apply elem_of_cons in H as [-> | H]); [..|inversion H];
      destruct Hpat as [-> | ->]; listed.
Qed.

Lemma image_extensions_star_free (ext : string) :
  ext ∈ Inference.image_extensions ->
  star_free ext = true /\ star_free (Str.upper ext) = true.
Proof.
  unfold Inference.image_extensions. intros H.
  repeat (apply elem_of_cons in H as [-> | H]); [..|inversion H];
    split; reflexivity.
Qed.

(** What the patterns of the loop accept. *)
Lemma glob_patterns_suffix (n : string) :
  (exists pat, pat ∈ glob_patterns /\ Str.fnmatch pat n = true)
  <-> exists ext,
        ext ∈ Inference.image_extensions
        /\ ((exists pre, n = pre +:+ ext)
            \/ (exists pre, n = pre +:+ Str.upper ext)).
Proof.
  split.
  - intros (pat & Hpat & Hm).
    apply glob_patterns_ext in Hpat as (ext & Hext & Hpat).
    destruct (image_extensions_star_free ext Hext) as [Hlo Hup].
    exists ext. split; [exact Hext|].
    destruct Hpat as [-> | ->].
    + left. apply (fnmatch_star_suffix ext n Hlo), Hm.
    + right. apply (fnmatch_star_suffix (Str.upper ext) n Hup), Hm.
  - intros (ext & Hext & Hn).
    destruct (image_extensions_star_free ext Hext) as [Hlo Hup].
    destruct Hn as [Hn | Hn].
    + exists ("*" +:+ ext). split.
      * apply glob_patterns_ext. eauto.
      * apply (fnmatch_star_suffix ext n Hlo), Hn.
    + exists ("*" +:+ Str.upper ext). split.
      * apply glob_patterns_ext. eauto.
      * apply (fnmatch_star_suffix (Str.upper ext) n Hup), Hn.
Qed.

(** Membership in the enumeration, exactly. *)
Lemma image_files_elem (fs : FS) (input_path p : Path) :
  p ∈ Inference.image_files fs input_path
  <-> exists n ext,
        p = Pathlib.child input_path n
        /\ n ∈ Fs.listdir fs input_path
        /\ ext ∈ Inference.image_extensions
        /\ ((exists pre, n = pre +:+ ext)
            \/ (exists pre, n = pre +:+ Str.upper ext)).
Proof.
  rewrite image_files_flat, list_elem_of_fmap. split.
  - intros (n & -> & Hn). apply list_elem_of_In, in_flat_map in Hn
      as (pat & Hpat & Hn).
    apply list_elem_of_In in Hpat. apply list_elem_of_In in Hn.
    apply list_elem_of_filter in Hn as [Hm Hn].
    destruct (proj1 (glob_patterns_suffix n)) as (ext & Hext & Hsuf); [eauto|].
    exists n, ext. auto.
  - intros (n & ext & -> & Hn & Hext & Hsuf).
    destruct (proj2 (glob_patterns_suffix n)) as (pat & Hpat & Hm); [eauto|].
    exists n. split; [reflexivity|].
    apply list_elem_of_In, in_flat_map. exists pat.
    split; apply list_elem_of_In; [exact Hpat|].
    apply list_elem_of_filter. auto.
Qed.

Lemma image_extensions_lower (ext : string) :
  ext ∈ Inference.image_extensions ->
  Str.lower ext = ext /\ Str.lower (Str.upper ext) = ext.
Proof.
  unfold Inference.image_extensions. intros H.
  repeat (apply elem_of_cons in H as [-> | H]); [..|inversion H];
    split; reflexivity.
Qed.

(** C4 (amended). The batch enumerates every directory entry whose name
    ends in an allow-listed extension written all in lower case or all in
    upper case, and only entries whose name ends in an allow-listed
    extension up to letter case.  They come in the order of the patterns
    ([*.jpg], [*.JPG], [*.jpeg], ... [*.WEBP]) and, for one pattern, in the
    order in which the directory lists its entries: the enumeration is a
    function of that listing, and it is not sorted by file name. *)
Theorem image_files_enumeration (fs : FS) (input_path : Path) :
  Inference.image_files fs input_path
  = Pathlib.child input_path
      <$> flat_map (fun pat =>
                      filter (fun n => Str.fnmatch pat n = true)
                             (Fs.listdir fs input_path))
                   glob_patterns
  /\ (forall n ext,
        n ∈ Fs.listdir fs input_path ->
        ext ∈ Inference.image_extensions ->
        (exists pre, n = pre +:+ ext)
        \/ (exists pre, n = pre +:+ Str.upper ext) ->
        Pathlib.child input_path n ∈ Inference.image_files fs input_path)
  /\ (forall p,
        p ∈ Inference.image_files fs input_path ->
        exists n pre suf,
          p = Pathlib.child input_path n
          /\ n ∈ Fs.listdir fs input_path
          /\ n = pre +:+ suf
          /\ Str.lower suf ∈ Inference.image_extensions).
Proof.
  split; [apply image_files_flat|]. split.
  - intros n ext Hn Hext Hsuf. apply image_files_elem. exists n, ext. auto.
  - intros p Hp.
    apply image_files_elem in Hp as (n & ext & -> & Hn & Hext & Hsuf).
    destruct (image_extensions_lower ext Hext) as [Hlo Hup].
    destruct Hsuf as [[pre ->] | [pre ->]].
    + exists (pre +:+ ext), pre, ext. rewrite Hlo. auto.
    + exists (pre +:+ Str.upper ext), pre, (Str.upper ext). rewrite Hup. auto.
Qed.

Lemma image_files_enumeration_witness :
  Inference.image_files Sample.photos_fs ["in"]
  = [["in"; "b.jpg"]; ["in"; "d.JPG"]; ["in"; "a.png"]]
  /\ ["in"; "d.JPG"] ∈ Inference.image_files Sample.photos_fs ["in"]
  /\ exists n pre suf,
       ["in"; "a.png"] = Pathlib.child ["in"] n
       /\ n ∈ Fs.listdir Sample.photos_fs ["in"]
       /\ n = pre +:+ suf
       /\ Str.lower suf ∈ Inference.image_extensions.
Proof.
  split; [reflexivity|]. split.
  - apply (proj1 (proj2 (image_files_enumeration Sample.photos_fs ["in"]))
             "d.JPG" ".jpg").
    + vm_compute. listed.
    + vm_compute. listed.
    + right. exists "d". reflexivity.
  - apply (proj2 (proj2 (image_files_enumeration Sample.photos_fs ["in"]))).
    vm_compute. listed.
Defined.

(** C4, as the specification words it, fails: [c.Jpg] has an allow-listed
    extension but is passed over, and [b.jpg] is processed before
    [a.png]. *)
Lemma image_files_enumeration_counterexample :
  Inference.image_files Sample.photos_fs ["in"]
  = [["in"; "b.jpg"]; ["in"; "d.JPG"]; ["in"; "a.png"]]
  /\ (Spec.eligible "c.Jpg" = true
      /\ "c.Jpg" ∈ Fs.listdir Sample.photos_fs ["in"]
      /\ Pathlib.child ["in"] "c.Jpg"
           ∉ Inference.image_files Sample.photos_fs ["in"])
  /\ ~ Spec.lexicographic (Inference.image_files Sample.photos_fs ["in"])
  /\ ~ Spec.enumeration Sample.photos_fs ["in"]
         (Inference.image_files Sample.photos_fs ["in"]).
Proof.
  assert (Hfiles : Inference.image_files Sample.photos_fs ["in"]
                   = [["in"; "b.jpg"]; ["in"; "d.JPG"]; ["in"; "a.png"]])
    by reflexivity.
  assert (Hunsorted :
            ~ Spec.lexicographic
                (Inference.image_files Sample.photos_fs ["in"])).
  { rewrite Hfiles. unfold Spec.lexicographic. intros Hs.
    apply StronglySorted_inv in Hs as [_ Hall].
    apply Forall_cons_1 in Hall as [_ Hall].
    apply Forall_cons_1 in Hall as [Hle _].
    vm_compute in Hle. discriminate. }
  split; [exact Hfiles|]. split; [|split; [exact Hunsorted|]].
  - split; [vm_compute; reflexivity|]. split.
    + vm_compute. listed.
    + rewrite Hfiles. vm_compute. intros Hin.
      repeat (apply elem_of_cons in Hin as [Heq | Hin];
              [discriminate Heq|]).
      inversion Hin.
  - intros (_ & _ & Hs). exact (Hunsorted Hs).
Qed.

(** ** The batch *)

Lemma run_inference_image_path (model : Model) (image_path : Path) (conf : Q)
    (save_dir : Path) (w w1 : World) (p : Path) (r : Results) :
  Inference.run_inference_image model image_path conf save_dir w
    = (w1, Ok (p, r)) ->
  p = Pathlib.child save_dir (Pathlib.stem image_path +:+ "_detected.jpg")
  /\ Fs.mkdir_p save_dir (w_fs w1) = Ok (w_fs w1).
Proof.
  rewrite run_inference_image_steps.
  destruct (Fs.mkdir_p save_dir (w_fs w)) as [fs1|e] eqn:Hmk; [|discriminate].
  destruct (predict_path model image_path conf Inference.iou fs1)
    as [r'|e]; [|discriminate].
  intros [= <- <- <-]. split; [reflexivity|]. simpl.
  apply all_dirs_mkdir_from, all_dirs_write.
  - unfold Pathlib.child. rewrite length_app. simpl. lia.
  - apply (mkdir_from_all_dirs _ _ _ _ Hmk).
Qed.

Lemma run_inference_image_returns (model : Model) (image_path : Path)
    (conf : Q) (save_dir : Path) (w : World) (fs1 : FS) (r : Results) :
  Fs.mkdir_p save_dir (w_fs w) = Ok fs1 ->
  predict_path model image_path conf Inference.iou fs1 = Ok r ->
  exists w1 p,
    Inference.run_inference_image model image_path conf save_dir w
    = (w1, Ok (p, r)).
Proof.
  intros Hmk Hpred. rewrite run_inference_image_steps, Hmk, Hpred. eauto.
Qed.

Lemma batch_loop_cons (model : Model) (conf : Q) (save_dir : Path)
    (f : Path) (rest : list Path) (acc : list Inference.BatchRecord)
    (w : World) :
  Inference.batch_loop model conf save_dir (f :: rest) acc w
  = match Inference.run_inference_image model f conf save_dir w with
    | (w1, Ok r) =>
        Inference.batch_loop model conf save_dir rest
          (acc ++ [{| Inference.rec_image := Pathlib.name f;
                      Inference.rec_detections := length (boxes r.2);
                      Inference.rec_output := r.1 |}]) w1
    | (w1, Raise e) => (w1, Raise e)
    end.
Proof. reflexivity. Qed.

(** The loop run on [pre ++ post] is the loop on [pre] followed, when that
    returns, by the loop on [post]. *)
Lemma batch_loop_app (model : Model) (conf : Q) (save_dir : Path)
    (pre post : list Path) (acc : list Inference.BatchRecord) (w : World) :
  Inference.batch_loop model conf save_dir (pre ++ post) acc w
  = match Inference.batch_loop model conf save_dir pre acc w with
    | (w1, Ok rs) => Inference.batch_loop model conf save_dir post rs w1
    | (w1, Raise e) => (w1, Raise e)
    end.
Proof.
  revert acc w. induction pre as [|f pre IH]; intros acc w.
  - reflexivity.
  - rewrite <- app_comm_cons, !batch_loop_cons.
    destruct (Inference.run_inference_image model f conf save_dir w)
      as [w1 [r|e]]; [apply IH | reflexivity].
Qed.

(** A loop that returns has appended one record per file, in order. *)
Lemma batch_loop_ok (model : Model) (conf : Q) (save_dir : Path)
    (files : list Path) (acc rs : list Inference.BatchRecord) (w w' : World) :
  Inference.batch_loop model conf save_dir files acc w = (w', Ok rs) ->
  exists new, rs = acc ++ new /\ Forall2 (recorded save_dir) files new.
Proof.
  revert acc w. induction files as [|f files IH]; intros acc w.
  - intros [= <- <-]. exists []. rewrite app_nil_r. split; constructor.
  - rewrite batch_loop_cons.
    destruct (Inference.run_inference_image model f conf save_dir w)
      as [w1 [[p r]|e]] eqn:Hrun; [|discriminate].
    intros Hloop. apply IH in Hloop as (new & -> & Hnew).
    apply run_inference_image_path in Hrun as [-> _].
    eexists (_ :: new). rewrite <- app_assoc. split; [reflexivity|].
    constructor; [split; reflexivity | exact Hnew].
Qed.

(** The loop returns exactly when no item fails. *)
Lemma batch_loop_returns (model : Model) (conf : Q) (save_dir : Path)
    (files : list Path) (acc : list Inference.BatchRecord) (w : World) :
  no_item_fails model conf save_dir files w
  <-> exists w' rs,
        Inference.batch_loop model conf save_dir files acc w = (w', Ok rs).
Proof.
  revert acc w. induction files as [|f files IH]; intros acc w.
  - simpl. split; [eauto | auto].
  - rewrite batch_loop_cons. cbn [no_item_fails]. split.
    + intros (w1 & r & -> & Hrest). apply IH, Hrest.
    + destruct (Inference.run_inference_image model f conf save_dir w)
        as [w1 [r|e]]; [|intros (w' & rs & H); discriminate].
      intros H. exists w1, r. split; [reflexivity|]. eapply IH, H.
Qed.

(** C1 (amended). For a directory with k eligible files, [batch_inference]
    returns exactly when no item fails, and then it returns exactly k
    records, all of them successes and in the order of the enumeration;
    when an item fails, its exception escapes the call at once: no record
    is made of the failure, the files after it are not processed and no
    report is returned. *)
Theorem batch_inference_all_or_nothing (model : Model) (input_dir : Path)
    (conf : Q) (save_dir : Path) (w : World) :
  Fs.exists_ (w_fs w) input_dir = true ->
  Inference.image_files (w_fs w) input_dir <> [] ->
  let files := Inference.image_files (w_fs w) input_dir in
  (no_item_fails model conf save_dir files w ->
   exists w' report,
     Inference.batch_inference model input_dir conf save_dir w
       = (w', Ok report)
     /\ length report = length files
     /\ Forall2 (recorded save_dir) files report
     /\ exists w1,
          Inference.batch_loop model conf save_dir files [] w
            = (w1, Ok report)
          /\ w' = (print (MsgProcessed (length files)) w1).1)
  /\ (forall w' report,
        Inference.batch_inference model input_dir conf save_dir w
          = (w', Ok report) ->
        no_item_fails model conf save_dir files w
        /\ length report = length files)
  /\ (forall pre f post w1 rs w2 e,
        files = pre ++ f :: post ->
        Inference.batch_loop model conf save_dir pre [] w = (w1, Ok rs) ->
        Inference.run_inference_image model f conf save_dir w1
          = (w2, Raise e) ->
        Inference.batch_inference model input_dir conf save_dir w
          = (w2, Raise e)).
Proof.
  intros Hex Hne files. unfold Inference.batch_inference.
  rewrite Hex. cbn [negb].
  change (Inference.image_files (w_fs w) input_dir) with files in Hne |- *.
  clearbody files. destruct files as [|f0 files0]; [congruence|].
  clear Hne. set (files := f0 :: files0). split; [|split].
  - intros Hok.
    apply (batch_loop_returns model conf save_dir files [] w) in Hok
      as (w1 & rs & Hloop).
    unfold mbind, M_bind, bind. rewrite Hloop. simpl.
    eexists _, rs. split; [reflexivity|].
    pose proof Hloop as Hrec.
    apply batch_loop_ok in Hrec as (new & -> & Hnew). rewrite app_nil_l.
    split; [symmetry; exact (Forall2_length _ _ _ Hnew)|].
    split; [exact Hnew|]. exists w1. split; reflexivity.
  - intros w' report. unfold mbind, M_bind, bind.
    destruct (Inference.batch_loop model conf save_dir files [] w)
      as [w1 [rs|e]] eqn:Hloop; [|discriminate].
    simpl. intros [= <- <-]. split.
    + apply (batch_loop_returns model conf save_dir files [] w). eauto.
    + apply batch_loop_ok in Hloop as (new & -> & Hnew). rewrite app_nil_l.
      symmetry. exact (Forall2_length _ _ _ Hnew).
  - intros pre f post w1 rs w2 e Hsplit Hpre Hrun.
    unfold mbind, M_bind, bind.
    rewrite Hsplit, batch_loop_app, Hpre, batch_loop_cons, Hrun. reflexivity.
Qed.

Lemma batch_inference_all_or_nothing_witness :
  (no_item_fails Fixtures.reader (1 # 4) ["out"]
     [["in"; "b.jpg"]; ["in"; "d.JPG"]; ["in"; "a.png"]]
     (Sample.world Sample.photos_fs)
   /\ exists w' report,
        Inference.batch_inference Fixtures.reader ["in"] (1 # 4) ["out"]
          (Sample.world Sample.photos_fs) = (w', Ok report)
        /\ length report = 3%nat
        /\ Forall2 (recorded ["out"])
             [["in"; "b.jpg"]; ["in"; "d.JPG"]; ["in"; "a.png"]] report)
  /\ Inference.batch_inference Sample.picky_detector ["in"] (1 # 4) ["out"]
       (Sample.world Sample.broken_fs)
     = ((Inference.run_inference_image Sample.picky_detector
           ["in"; "broken.jpg"] (1 # 4) ["out"]
           (Sample.world Sample.broken_fs)).1,
        Raise (LibraryError "cannot read image")).
Proof.
  assert (Hok : no_item_fails Fixtures.reader (1 # 4) ["out"]
                  [["in"; "b.jpg"]; ["in"; "d.JPG"]; ["in"; "a.png"]]
                  (Sample.world Sample.photos_fs)).
  { cbn [no_item_fails].
    eexists _, _. split; [vm_compute; reflexivity|].
    eexists _, _. split; [vm_compute; reflexivity|].
    eexists _, _. split; [vm_compute; reflexivity|].
    exact I. }
  split; [split; [exact Hok|]|].
  - destruct (proj1 (batch_inference_all_or_nothing Fixtures.reader ["in"]
                       (1 # 4) ["out"] (Sample.world Sample.photos_fs)
                       eq_refl ltac:(discriminate)) Hok)
      as (w' & report & Hrun & Hlen & Hrec & _).
    exists w', report. auto.
  - apply (proj2 (proj2 (batch_inference_all_or_nothing Sample.picky_detector
                           ["in"] (1 # 4) ["out"]
                           (Sample.world Sample.broken_fs)
                           eq_refl ltac:(discriminate)))
             [] ["in"; "broken.jpg"] [["in"; "fine.jpg"]]
             (Sample.world Sample.broken_fs) []).
    + reflexivity.
    + reflexivity.
    + vm_compute. reflexivity.
Defined.

(** C1, as the specification words it, fails: of two eligible files the
    first is corrupt; the detector's error escapes [batch_inference], no
    report is returned and the second file is never processed. *)
Lemma batch_inference_failure_escapes_counterexample :
  let run :=
    Inference.batch_inference Sample.picky_detector ["in"] (1 # 4) ["out"]
      (Sample.world Sample.broken_fs) in
  Inference.image_files Sample.broken_fs ["in"]
  = [["in"; "broken.jpg"]; ["in"; "fine.jpg"]]
  /\ (forall fs, predict_path Sample.picky_detector ["in"; "fine.jpg"]
                   (1 # 4) Inference.iou fs = Ok Sample.result)
  /\ run.2 = Raise (LibraryError "cannot read image")
  /\ fs_files (w_fs run.1) !! ["out"; "fine_detected.jpg"] = None
  /\ ~ exists report, run.2 = Ok report.
Proof.
  intros run.
  assert (Hrun : run.2 = Raise (LibraryError "cannot read image"))
    by (vm_compute; reflexivity).
  split; [reflexivity|]. split; [intros fs; reflexivity|].
  split; [exact Hrun|]. split; [vm_compute; reflexivity|].
  intros [report Hreport]. rewrite Hrun in Hreport. discriminate.
Qed.

(** ** Streams *)

Lemma cap_read_readable (cap : Capture) :
  (cap_read cap).1 = head (readable cap)
  /\ readable (cap_read cap).2 = tail (readable cap).
Proof.
  unfold cap_read, readable. destruct cap as [opened props frames]. simpl.
  destruct opened; [|auto]. destruct frames; auto.
Qed.

Lemma writer_write_trace (out : Writer) (frame : Image) (w : World) :
  (writer_write out frame w).2 = Ok tt
  /\ w_trace (writer_write out frame w).1 = w_trace w.
Proof.
  unfold writer_write. destruct (wr_opened out); [|auto].
  destruct (fs_files (w_fs w) !! wr_path out) as [[t [b|img|props frames]]|];
    auto.
  destruct (fits props frame); auto.
Qed.

(** The video loop leaves no event. *)
Lemma video_loop_trace (model : Model) (conf : Q) (opened : bool)
    (frames : list Image) (out : Writer) (fc dc : Z) (w : World) :
  w_trace (Inference.video_loop model conf opened frames out fc dc w).1
  = w_trace w.
Proof.
  revert fc dc w. induction frames as [|frame rest IH]; intros fc dc w.
  - destruct opened; reflexivity.
  - destruct opened; [|reflexivity].
    cbn [Inference.video_loop]. unfold mbind, M_bind, bind, lift.
    destruct (predict_image model frame conf Inference.iou) as [r|e];
      [|reflexivity].
    destruct (writer_write_trace out (plot r) w) as [Hok Htr].
    destruct (writer_write out (plot r) w) as [w1 r1]. simpl in Hok, Htr.
    subst r1. rewrite IH. exact Htr.
Qed.

(** A video loop that returns has run the detector on every readable frame
    and counted the frames and the boxes. *)
Lemma video_loop_ok (model : Model) (conf : Q) (opened : bool)
    (frames : list Image) (out : Writer) (fc dc fc' dc' : Z) (w w' : World) :
  Inference.video_loop model conf opened frames out fc dc w
    = (w', Ok (fc', dc')) ->
  exists rs,
    Forall2 (fun f r => predict_image model f conf Inference.iou = Ok r)
            (if opened then frames else []) rs
    /\ fc' = fc + Z.of_nat (length rs)
    /\ dc' = dc + total_boxes rs.
Proof.
  revert fc dc w. induction frames as [|frame rest IH]; intros fc dc w.
  - destruct opened; intros [= <- <- <-]; exists []; simpl;
      (split; [constructor | lia]).
  - destruct opened.
    2:{ intros [= <- <- <-]. exists []. simpl. split; [constructor | lia]. }
    cbn [Inference.video_loop]. unfold mbind, M_bind, bind, lift.
    destruct (predict_image model frame conf Inference.iou) as [r|e] eqn:Hr;
      [|discriminate].
    destruct (writer_write_trace out (plot r) w) as [Hok _].
    destruct (writer_write out (plot r) w) as [w1 r1]. simpl in Hok. subst r1.
    intros Hloop. apply IH in Hloop as (rs & Hrs & -> & ->).
    exists (r :: rs). split; [constructor; assumption|].
    cbn [length total_boxes foldr]. fold (total_boxes rs). lia.
Qed.

(** A video loop raises only what the detector raises on a frame. *)
Lemma video_loop_raise (model : Model) (conf : Q) (opened : bool)
    (frames : list Image) (out : Writer) (fc dc : Z) (w w' : World) (e : Exn) :
  Inference.video_loop model conf opened frames out fc dc w = (w', Raise e) ->
  exists frame,
    frame ∈ frames /\ predict_image model frame conf Inference.iou = Raise e.
Proof.
  revert fc dc w. induction frames as [|frame rest IH]; intros fc dc w.
  - destruct opened; discriminate.
  - destruct opened; [|discriminate].
    cbn [Inference.video_loop]. unfold mbind, M_bind, bind, lift.
    destruct (predict_image model frame conf Inference.iou) as [r|e'] eqn:Hr.
    + destruct (writer_write_trace out (plot r) w) as [Hok _].
      destruct (writer_write out (plot r) w) as [w1 r1]. simpl in Hok.
      subst r1. intros Hloop. apply IH in Hloop as (g & Hg & He).
      exists g. split; [apply list_elem_of_further, Hg | exact He].
    + intros [= <- <-]. exists frame. split; [apply list_elem_of_here|auto].
Qed.

Section Video.

Variable encoder_accepts : Z -> Z -> Z -> bool.

Lemma VideoWriter_opens (p : Path) (fps width height : Z) (w : World) :
  exists ok w1,
    Inference.VideoWriter encoder_accepts p fps width height w
    = (w1, Ok {| wr_opened := ok; wr_path := p |})
    /\ w_trace w1 = w_trace w ++ [EvWriterOpen p ok]
    /\ (ok = false -> w_fs w1 = w_fs w).
Proof.
  unfold Inference.VideoWriter.
  destruct (encoder_accepts fps width height).
  - unfold Fs.write_file.
    destruct (Fs.is_dir (w_fs w) (Pathlib.parent p)
              && negb (Fs.is_dir (w_fs w) p));
      eexists _, _; (split; [reflexivity|]); simpl; split; auto; discriminate.
  - eexists _, _. split; [reflexivity|]. simpl. auto.
Qed.

(** [run_inference_video], step by step: either [mkdir] raises, or the
    capture and the writer are made, the loop runs, and what follows the
    loop runs only when the loop returns. *)
Lemma run_inference_video_inv (model : Model) (video_path : Path) (conf : Q)
    (save_dir : Path) (w w' : World) (r : Result Path) :
  Inference.run_inference_video encoder_accepts model video_path conf
    save_dir w = (w', r) ->
  (exists e, Fs.mkdir_p save_dir (w_fs w) = Raise e /\ r = Raise e /\ w' = w)
  \/ exists fs1 ok w3 w4 lr,
       let cap := open_file fs1 video_path in
       let output_path :=
         Pathlib.child save_dir
           (Pathlib.stem video_path +:+ "_detected.mp4") in
       Fs.mkdir_p save_dir (w_fs w) = Ok fs1
       /\ w_trace w3
          = w_trace w ++ [EvCapOpen (cap_opened cap);
                          EvWriterOpen output_path ok]
       /\ Inference.video_loop model conf (cap_opened cap) (cap_frames cap)
            {| wr_opened := ok; wr_path := output_path |} 0 0 w3 = (w4, lr)
       /\ match lr with
          | Raise e => r = Raise e /\ w' = w4
          | Ok counts =>
              r = Ok output_path
              /\ w_fs w' = w_fs w4
              /\ w_trace w'
                 = w_trace w4
                   ++ [EvCapRelease; EvWriterRelease;
                       EvPrint (MsgVideoProcessed counts.1);
                       EvPrint (MsgAvgDetections
                                  (Inference.avg_detections counts.2 counts.1));
                       EvPrint (MsgSaved output_path)]
          end.
Proof.
  unfold Inference.run_inference_video, mbind, M_bind, bind, mkdir.
  destruct (Fs.mkdir_p save_dir (w_fs w)) as [fs1|e] eqn:Hmk.
  2:{ intros [= <- <-]. left. eauto. }
  intros Hrun. right. simpl in Hrun.
  unfold VideoCapture_file, mbind, M_bind, bind in Hrun. simpl in Hrun.
  set (cap := open_file fs1 video_path) in *.
  set (output_path :=
         Pathlib.child save_dir
           (Pathlib.stem video_path +:+ "_detected.mp4")) in *.
  match type of Hrun with
  | context [Inference.VideoWriter _ ?p ?a ?b ?c ?ww] =>
      destruct (VideoWriter_opens p a b c ww) as (ok & w3 & Hwr & Htr & _)
  end.
  rewrite Hwr in Hrun. simpl in Htr.
  destruct (Inference.video_loop model conf (cap_opened cap) (cap_frames cap)
              {| wr_opened := ok; wr_path := output_path |} 0 0 w3)
    as [w4 lr] eqn:Hloop.
  exists fs1, ok, w3, w4, lr. simpl.
  split; [reflexivity|]. split; [rewrite Htr, <- app_assoc; reflexivity|].
  split; [exact Hloop|].
  destruct lr as [counts|e]; simpl in Hrun.
  - injection Hrun as <- <-. simpl. rewrite <- !app_assoc. auto.
  - injection Hrun as <- <-. auto.
Qed.

End Video.

Lemma cap_releases_app (w : World) (evs : list Event) (w' : World) :
  w_trace w' = w_trace w ++ evs ->
  cap_releases w'
  = (cap_releases w + length (filter (fun e => e = EvCapRelease) evs))%nat.
Proof.
  intros H. unfold cap_releases. rewrite H, filter_app, length_app. reflexivity.
Qed.

Lemma webcam_loop_releases (model : Model) (conf : Q) (frames : list Image)
    (w : World) :
  cap_releases (Inference.webcam_loop model conf frames w).1 = cap_releases w.
Proof.
  revert w. induction frames as [|frame rest IH]; intros w; [reflexivity|].
  cbn [Inference.webcam_loop]. unfold mbind, M_bind, bind, lift.
  destruct (predict_image model frame conf Inference.iou) as [r|e];
    [|reflexivity].
  simpl. unfold waitKey. simpl.
  destruct (w_keys w) as [|k ks]; simpl.
  - rewrite IH. erewrite cap_releases_app; [|reflexivity]. simpl. lia.
  - destruct (Z.land k 255 =? 113); [|rewrite IH];
      (erewrite cap_releases_app; [|reflexivity]); simpl; lia.
Qed.

Section Streams.

Variable encoder_accepts : Z -> Z -> Z -> bool.

(** C2 (amended). In the video and in the webcam mode the capture handle is
    released exactly once when the consuming loop ends and the function
    returns (end of stream, a failed read, the [q] key); when the
    processing of a frame raises, the exception leaves the function and
    the handle is not released. *)
Theorem capture_released_on_return (model : Model) (video_path : Path)
    (conf : Q) (save_dir : Path) (w : World) :
  let v := Inference.run_inference_video encoder_accepts model video_path
             conf save_dir w in
  let c := Inference.run_inference_webcam model conf w in
  cap_releases v.1
  = (cap_releases w + match v.2 with Ok _ => 1 | Raise _ => 0 end)%nat
  /\ cap_releases c.1
     = (cap_releases w + match c.2 with Ok _ => 1 | Raise _ => 0 end)%nat.
Proof.
  intros v c. split.
  - subst v.
    destruct (Inference.run_inference_video encoder_accepts model video_path
                conf save_dir w) as [w' r] eqn:Hrun.
    apply run_inference_video_inv in Hrun
      as [(e & _ & -> & ->) | (fs1 & ok & w3 & w4 & lr & H)]; [simpl; lia|].
    destruct H as (_ & Htr3 & Hloop & Hlr). simpl.
    pose proof (video_loop_trace model conf
                  (cap_opened (open_file fs1 video_path))
                  (cap_frames (open_file fs1 video_path))
                  {| wr_opened := ok;
                     wr_path := Pathlib.child save_dir
                                  (Pathlib.stem video_path
                                   +:+ "_detected.mp4") |} 0 0 w3) as Htr4.
    rewrite Hloop in Htr4. simpl in Htr4.
    destruct lr as [counts|e].
    + destruct Hlr as (-> & _ & Htr).
      rewrite Htr4, Htr3, <- app_assoc in Htr.
      rewrite (cap_releases_app _ _ _ Htr). reflexivity.
    + destruct Hlr as [-> ->]. rewrite <- Htr4 in Htr3.
      rewrite (cap_releases_app _ _ _ Htr3). simpl. lia.
  - subst c. unfold Inference.run_inference_webcam, VideoCapture_device0,
      mbind, M_bind, bind. simpl.
    match goal with
    | |- context [Inference.webcam_loop ?m ?q ?fr ?ww] =>
        pose proof (webcam_loop_releases m q fr ww) as Hloop;
        destruct (Inference.webcam_loop m q fr ww) as [w1 [[]|e]]
    end; simpl in *.
    + rewrite (cap_releases_app w1 [EvCapRelease; EvDestroyAllWindows])
        by (simpl; rewrite <- app_assoc; reflexivity).
      rewrite Hloop.
      rewrite (cap_releases_app w [EvCapOpen _; EvPrint MsgWebcamRunning])
        by (simpl; rewrite <- app_assoc; reflexivity).
      simpl. lia.
    + rewrite Hloop.
      rewrite (cap_releases_app w [EvCapOpen _; EvPrint MsgWebcamRunning])
        by (simpl; rewrite <- app_assoc; reflexivity).
      simpl. lia.
Qed.

End Streams.

(** The [q] key ends the webcam loop after the first of two frames; the
    capture is released once. *)
Example webcam_q_breaks :
  let w := {| w_fs := Sample.empty_fs; w_clock := 0;
              w_camera := Some [Sample.frame; Sample.frame];
              w_keys := [113]; w_trace := [] |} in
  let run := Inference.run_inference_webcam Sample.detector (1 # 4) w in
  run.2 = Ok tt
  /\ w_trace run.1
     = [EvCapOpen true; EvPrint MsgWebcamRunning; EvImshow Sample.frame;
        EvCapRelease; EvDestroyAllWindows].
Proof. split; reflexivity. Qed.

(** C2, as the specification words it, fails: the detector raises on the
    first frame of an opened clip, and the run ends without any release of
    the capture. *)
Lemma capture_release_on_error_counterexample :
  let run :=
    Inference.run_inference_video Sample.encoder_accepts
      Sample.picky_detector ["clip.mp4"] (1 # 4) ["out"]
      (Sample.world Sample.clip_fs) in
  run.2 = Raise (LibraryError "inference failed")
  /\ w_trace run.1
     = [EvCapOpen true; EvWriterOpen ["out"; "clip_detected.mp4"] true]
  /\ cap_releases run.1 = 0%nat
  /\ cap_releases run.1 <> 1%nat.
Proof.
  intros run.
  assert (H : cap_releases run.1 = 0%nat) by (vm_compute; reflexivity).
  split; [vm_compute; reflexivity|]. split; [vm_compute; reflexivity|].
  split; [exact H|]. rewrite H. discriminate.
Qed.

Lemma video_loop_returns (model : Model) (conf : Q) (opened : bool)
    (frames : list Image) (out : Writer) (fc dc : Z) (w : World) :
  (forall f, f ∈ frames ->
     exists r, predict_image model f conf Inference.iou = Ok r) ->
  exists w' counts,
    Inference.video_loop model conf opened frames out fc dc w
    = (w', Ok counts).
Proof.
  revert fc dc w. induction frames as [|frame rest IH]; intros fc dc w Hpred.
  - destruct opened; simpl; eauto.
  - destruct opened; [|simpl; eauto].
    cbn [Inference.video_loop]. unfold mbind, M_bind, bind, lift.
    destruct (Hpred frame) as [r ->]; [apply list_elem_of_here|].
    destruct (writer_write_trace out (plot r) w) as [Hok _].
    destruct (writer_write out (plot r) w) as [w1 r1]. simpl in Hok. subst r1.
    apply IH. intros f Hf. apply Hpred, list_elem_of_further, Hf.
Qed.

Section Report.

Variable encoder_accepts : Z -> Z -> Z -> bool.

(** A video run returns when the output directory can be made and the
    detector accepts every frame of the source. *)
Lemma run_inference_video_returns (model : Model) (video_path : Path)
    (conf : Q) (save_dir : Path) (w : World) (fs1 : FS) :
  Fs.mkdir_p save_dir (w_fs w) = Ok fs1 ->
  (forall f, f ∈ cap_frames (open_file fs1 video_path) ->
     exists r, predict_image model f conf Inference.iou = Ok r) ->
  exists w',
    Inference.run_inference_video encoder_accepts model video_path conf
      save_dir w
    = (w', Ok (Pathlib.child save_dir
                 (Pathlib.stem video_path +:+ "_detected.mp4"))).
Proof.
  intros Hmk Hpred.
  destruct (Inference.run_inference_video encoder_accepts model video_path
              conf save_dir w) as [w' r] eqn:Hrun.
  apply run_inference_video_inv in Hrun
    as [(e & He & _) | (fs1' & ok & w3 & w4 & lr & H)]; [congruence|].
  destruct H as (Hmk' & _ & Hloop & Hlr).
  rewrite Hmk in Hmk'. injection Hmk' as <-.
  edestruct (video_loop_returns model conf) as (w5 & counts & Hret);
    [exact Hpred|].
  rewrite Hret in Hloop. injection Hloop as <- <-.
  destruct Hlr as (-> & _). eauto.
Qed.

(** C6. When a video run completes, the summary it prints holds the number
    of frames it processed and an average that equals the total number of
    detections divided by that number of frames when frames were
    processed, and zero when none was. *)
Theorem average_detections_per_frame (model : Model) (video_path : Path)
    (conf : Q) (save_dir : Path) (w w' : World) (p : Path) :
  Inference.run_inference_video encoder_accepts model video_path conf
    save_dir w = (w', Ok p) ->
  exists fs1 rs ok avg,
    let cap := open_file fs1 video_path in
    let frames_processed := Z.of_nat (length rs) in
    let total_detections := total_boxes rs in
    Fs.mkdir_p save_dir (w_fs w) = Ok fs1
    /\ Forall2 (fun f r => predict_image model f conf Inference.iou = Ok r)
         (readable cap) rs
    /\ w_trace w'
       = w_trace w
         ++ [EvCapOpen (cap_opened cap); EvWriterOpen p ok;
             EvCapRelease; EvWriterRelease;
             EvPrint (MsgVideoProcessed frames_processed);
             EvPrint (MsgAvgDetections avg);
             EvPrint (MsgSaved p)]
    /\ (0 < frames_processed ->
        (avg == inject_Z total_detections / inject_Z frames_processed)%Q)
    /\ (frames_processed = 0 -> (avg == 0)%Q).
Proof.
  intros Hrun.
  apply run_inference_video_inv in Hrun
    as [(e & _ & He & _) | (fs1 & ok & w3 & w4 & lr & H)]; [discriminate|].
  destruct H as (Hmk & Htr3 & Hloop & Hlr).
  destruct lr as [[fc dc]|e]; [|destruct Hlr; discriminate].
  destruct Hlr as ([= ->] & _ & Htr).
  pose proof (video_loop_trace model conf
                (cap_opened (open_file fs1 video_path))
                (cap_frames (open_file fs1 video_path))
                {| wr_opened := ok;
                   wr_path := Pathlib.child save_dir
                                (Pathlib.stem video_path
                                 +:+ "_detected.mp4") |} 0 0 w3) as Htr4.
  rewrite Hloop in Htr4. simpl in Htr4.
  apply video_loop_ok in Hloop as (rs & Hrs & -> & ->).
  exists fs1, rs, ok,
    (Inference.avg_detections (total_boxes rs) (Z.of_nat (length rs))).
  simpl in *. split; [exact Hmk|]. split; [exact Hrs|].
  split; [rewrite Htr, Htr4, Htr3, <- app_assoc; reflexivity|].
  unfold Inference.avg_detections. split.
  - intros Hpos. destruct (Z.eqb_spec (Z.of_nat (length rs)) 0) as [H0|_];
      [lia | reflexivity].
  - intros ->. reflexivity.
Qed.

End Report.

Lemma average_detections_per_frame_witness :
  let run :=
    Inference.run_inference_video Sample.encoder_accepts Sample.detector
      ["clip.mp4"] (1 # 4) ["out"] (Sample.world Sample.clip_fs) in
  run.2 = Ok ["out"; "clip_detected.mp4"]
  /\ EvPrint (MsgVideoProcessed 2) ∈ w_trace run.1
  /\ EvPrint (MsgAvgDetections (inject_Z 4 / inject_Z 2)) ∈ w_trace run.1
  /\ exists fs1 rs ok avg,
       let cap := open_file fs1 ["clip.mp4"] in
       let frames_processed := Z.of_nat (length rs) in
       let total_detections := total_boxes rs in
       Fs.mkdir_p ["out"] Sample.clip_fs = Ok fs1
       /\ Forall2 (fun f r => predict_image Sample.detector f (1 # 4)
                                Inference.iou = Ok r)
            (readable cap) rs
       /\ w_trace run.1
          = [EvCapOpen (cap_opened cap);
             EvWriterOpen ["out"; "clip_detected.mp4"] ok;
             EvCapRelease; EvWriterRelease;
             EvPrint (MsgVideoProcessed frames_processed);
             EvPrint (MsgAvgDetections avg);
             EvPrint (MsgSaved ["out"; "clip_detected.mp4"])]
       /\ (0 < frames_processed ->
           (avg == inject_Z total_detections / inject_Z frames_processed)%Q)
       /\ (frames_processed = 0 -> (avg == 0)%Q).
Proof.
  intros run. split; [vm_compute; reflexivity|].
  split; [vm_compute; listed|]. split; [vm_compute; listed|].
  apply (average_detections_per_frame Sample.encoder_accepts Sample.detector
           ["clip.mp4"] (1 # 4) ["out"] (Sample.world Sample.clip_fs) run.1
           ["out"; "clip_detected.mp4"]).
  vm_compute. reflexivity.
Defined.

(** ** A source that is not there *)

Section MissingSource.

Variable encoder_accepts : Z -> Z -> Z -> bool.

(** A path that is no directory has no images to enumerate. *)
Lemma image_files_not_dir (fs : FS) (input_path : Path) :
  Fs.is_dir fs input_path = false -> Inference.image_files fs input_path = [].
Proof.
  unfold Fs.is_dir. intros H. apply orb_false_elim in H as [_ H].
  apply bool_decide_eq_false in H.
  unfold Inference.image_files, Fs.glob, Fs.listdir.
  destruct (fs_dirs fs !! input_path) as [l|]; [exfalso; eauto|].
  reflexivity.
Qed.

(** C3 (amended). When the source does not exist or cannot be opened: the
    batch mode, given a path that is no directory, fails with
    [FileNotFoundError] and leaves the world as it was; the image mode
    fails with the error of the detector after the output directory has
    been made and before any file is written; the video mode, given a
    source that does not open, and the webcam mode without a camera do not
    fail: they process a stream of zero frames and return, the video mode
    after printing its summary of 0 frames and touching no file but its
    output path. *)
Theorem missing_source_by_mode (model : Model) (source : Path) (conf : Q)
    (save_dir : Path) (w : World) :
  let output_path :=
    Pathlib.child save_dir (Pathlib.stem source +:+ "_detected.mp4") in
  (Fs.is_dir (w_fs w) source = false ->
   Inference.batch_inference model source conf save_dir w
   = (w, Raise (FileNotFoundError
                  ((if Fs.exists_ (w_fs w) source
                    then "No images found in "
                    else "Directory not found: ") +:+ Pathlib.str source))))
  /\ (forall fs1 e,
        Fs.mkdir_p save_dir (w_fs w) = Ok fs1 ->
        predict_path model source conf Inference.iou fs1 = Raise e ->
        Inference.run_inference_image model source conf save_dir w
          = (set_fs fs1 w, Raise e)
        /\ fs_files fs1 = fs_files (w_fs w))
  /\ (forall fs1,
        cap_opened (open_file (w_fs w) source) = false ->
        Fs.mkdir_p save_dir (w_fs w) = Ok fs1 ->
        exists w' ok,
          Inference.run_inference_video encoder_accepts model source conf
            save_dir w
          = (w', Ok output_path)
          /\ w_trace w'
             = w_trace w
               ++ [EvCapOpen false; EvWriterOpen output_path ok;
                   EvCapRelease; EvWriterRelease;
                   EvPrint (MsgVideoProcessed 0);
                   EvPrint (MsgAvgDetections 0);
                   EvPrint (MsgSaved output_path)]
          /\ forall q, q <> output_path ->
               fs_files (w_fs w') !! q = fs_files (w_fs w) !! q)
  /\ (w_camera w = None ->
      exists w',
        Inference.run_inference_webcam model conf w = (w', Ok tt)
        /\ w_fs w' = w_fs w
        /\ w_trace w'
           = w_trace w
             ++ [EvCapOpen false; EvPrint MsgWebcamRunning; EvCapRelease;
                 EvDestroyAllWindows]).
Proof.
  intros output_path. split; [|split; [|split]].
  - intros Hdir. unfold Inference.batch_inference.
    destruct (Fs.exists_ (w_fs w) source); [|reflexivity].
    rewrite (image_files_not_dir _ _ Hdir). reflexivity.
  - intros fs1 e Hmk Hpred.
    rewrite run_inference_image_steps, Hmk, Hpred. split; [reflexivity|].
    apply (mkdir_from_files _ _ _ _ Hmk).
  - intros fs1 Hclosed Hmk.
    pose proof (mkdir_from_files _ _ _ _ Hmk) as Hfiles.
    assert (Hcap : open_file fs1 source = closed_capture).
    { unfold open_file in *. rewrite Hfiles.
      destruct (fs_files (w_fs w) !! source) as [[t [b|img|props frames]]|];
        try reflexivity. discriminate. }
    unfold Inference.run_inference_video, mbind, M_bind, bind, mkdir.
    rewrite Hmk. simpl.
    unfold VideoCapture_file, mbind, M_bind, bind. simpl. rewrite Hcap.
    fold output_path. unfold Inference.VideoWriter.
    cbn [cap_opened cap_props cap_frames closed_capture].
    destruct (encoder_accepts _ _ _).
    + destruct (Fs.write_file output_path _ _ _) as [ok fs2] eqn:Hw.
      apply (f_equal snd) in Hw. simpl in Hw. subst fs2.
      simpl. eexists _, ok. split; [reflexivity|]. simpl.
      split; [rewrite <- !app_assoc; reflexivity|].
      intros q Hq. rewrite write_file_other by exact Hq.
      rewrite Hfiles. reflexivity.
    + simpl. eexists _, false. split; [reflexivity|]. simpl.
      split; [rewrite <- !app_assoc; reflexivity|].
      intros q _. rewrite Hfiles. reflexivity.
  - intros Hcam. unfold Inference.run_inference_webcam, VideoCapture_device0,
      mbind, M_bind, bind. rewrite Hcam. simpl. eexists.
    split; [reflexivity|]. simpl. split; [reflexivity|].
    rewrite <- !app_assoc. reflexivity.
Qed.

End MissingSource.

Lemma missing_source_by_mode_witness :
  let w := Sample.world Sample.models_fs in
  let notes := ["models"; "notes.txt"] in
  (Inference.batch_inference Fixtures.reader ["missing"] (1 # 4) ["out"] w
   = (w, Raise (FileNotFoundError "Directory not found: missing"))
   /\ Inference.batch_inference Fixtures.reader notes (1 # 4) ["out"] w
      = (w, Raise (FileNotFoundError "No images found in models/notes.txt")))
  /\ (exists fs1,
        Inference.run_inference_image Fixtures.reader ["missing.jpg"] (1 # 4)
          ["out"] w
        = (set_fs fs1 w, Raise (FileNotFoundError "missing.jpg"))
        /\ fs_files fs1 = fs_files Sample.models_fs)
  /\ (Fs.exists_ Sample.models_fs notes = true
      /\ exists w' ok,
           Inference.run_inference_video Sample.encoder_accepts
             Fixtures.reader notes (1 # 4) ["out"] w
           = (w', Ok ["out"; "notes_detected.mp4"])
           /\ w_trace w'
              = [EvCapOpen false;
                 EvWriterOpen ["out"; "notes_detected.mp4"] ok;
                 EvCapRelease; EvWriterRelease;
                 EvPrint (MsgVideoProcessed 0);
                 EvPrint (MsgAvgDetections 0);
                 EvPrint (MsgSaved ["out"; "notes_detected.mp4"])]
           /\ forall q, q <> ["out"; "notes_detected.mp4"] ->
                fs_files (w_fs w') !! q = fs_files Sample.models_fs !! q)
  /\ exists w',
       Inference.run_inference_webcam Fixtures.reader (1 # 4) w = (w', Ok tt)
       /\ w_fs w' = Sample.models_fs
       /\ w_trace w'
          = [EvCapOpen false; EvPrint MsgWebcamRunning; EvCapRelease;
             EvDestroyAllWindows].
Proof.
  intros w notes.
  destruct (Fs.mkdir_p ["out"] Sample.models_fs) as [fs1|e] eqn:Hmk;
    [|vm_compute in Hmk; discriminate].
  split; [split|split; [|split]].
  - apply (proj1 (missing_source_by_mode Sample.encoder_accepts
                    Fixtures.reader ["missing"] (1 # 4) ["out"] w)).
    reflexivity.
  - apply (proj1 (missing_source_by_mode Sample.encoder_accepts
                    Fixtures.reader notes (1 # 4) ["out"] w)).
    reflexivity.
  - exists fs1.
    apply (proj1 (proj2 (missing_source_by_mode Sample.encoder_accepts
                           Fixtures.reader ["missing.jpg"] (1 # 4) ["out"]
                           w))
             fs1 (FileNotFoundError "missing.jpg") Hmk).
    unfold Fixtures.reader, predict_path.
    rewrite (mkdir_from_files _ _ _ _ Hmk). reflexivity.
  - split; [reflexivity|].
    apply (proj1 (proj2 (proj2 (missing_source_by_mode Sample.encoder_accepts
                                  Fixtures.reader notes (1 # 4) ["out"] w)))
             fs1 eq_refl Hmk).
  - apply (proj2 (proj2 (proj2 (missing_source_by_mode Sample.encoder_accepts
                                  Fixtures.reader notes (1 # 4) ["out"] w)))
             eq_refl).
Defined.

(** C3, as the specification words it, fails: in the video mode a source
    that does not exist raises nothing; the run returns its output path
    after zero frames.  The webcam mode without a camera returns as
    well. *)
Lemma missing_source_counterexample :
  let run :=
    Inference.run_inference_video Sample.encoder_accepts Fixtures.reader
      ["missing.mp4"] (1 # 4) ["out"] (Sample.world Sample.empty_fs) in
  Fs.exists_ Sample.empty_fs ["missing.mp4"] = false
  /\ run.2 = Ok ["out"; "missing_detected.mp4"]
  /\ (~ exists e, run.2 = Raise e)
  /\ (Inference.run_inference_webcam Fixtures.reader (1 # 4)
        (Sample.world Sample.empty_fs)).2 = Ok tt.
Proof.
  intros run.
  assert (Hrun : run.2 = Ok ["out"; "missing_detected.mp4"])
    by (vm_compute; reflexivity).
  split; [reflexivity|]. split; [exact Hrun|]. split; [|reflexivity].
  intros [e He]. rewrite Hrun in He. discriminate.
Qed.

(** ** The command line *)

Section CommandLine.

Variable dir_mtime : Path -> Z.
Variable encoder_accepts : Z -> Z -> Z -> bool.
Variable YOLO : Path -> FS -> Result Model.

(** C5 (amended). Whenever the run fails with an exception that derives
    from [Exception] (a missing source, an empty batch and a model that
    does not load are among them), [main] prints the failure and returns,
    and the process exits with status zero; the status is non-zero only
    when an interrupt escapes. *)
Theorem script_exit_status (argv : option Inference.Args) (w : World) :
  let run := Inference.script dir_mtime encoder_accepts YOLO argv w in
  (forall args w1 e,
     argv = Some args ->
     Inference.main_try dir_mtime encoder_accepts YOLO args w = (w1, Raise e) ->
     is_Exception e = true ->
     run = ((print (MsgInferenceFailed e) w1).1, Ok tt)
     /\ Inference.exit_status run.2 = 0)
  /\ (Inference.exit_status run.2 = 0 \/ run.2 = Raise KeyboardInterrupt).
Proof.
  intros run. subst run. split.
  - intros args w1 e -> Htry Hexc. simpl.
    unfold Inference.main, try_except. rewrite Htry, Hexc.
    split; reflexivity.
  - destruct argv as [args|]; simpl; [|auto].
    unfold Inference.main, try_except.
    destruct (Inference.main_try dir_mtime encoder_accepts YOLO args w)
      as [w1 [[]|e]]; simpl; [auto|].
    destruct e; simpl; auto.
Qed.

End CommandLine.

Lemma script_exit_status_witness :
  let w := Sample.world Sample.models_fs in
  let e := FileNotFoundError "Directory not found: missing" in
  Inference.main_try Sample.dir_mtime Sample.encoder_accepts Sample.YOLO
    Sample.args_missing_dir w = (w, Raise e)
  /\ Inference.script Sample.dir_mtime Sample.encoder_accepts Sample.YOLO
       (Some Sample.args_missing_dir) w
     = ((print (MsgInferenceFailed e) w).1, Ok tt)
  /\ Inference.exit_status
       (Inference.script Sample.dir_mtime Sample.encoder_accepts Sample.YOLO
          (Some Sample.args_missing_dir) w).2 = 0.
Proof.
  intros w e. split; [vm_compute; reflexivity|].
  apply (proj1 (script_exit_status Sample.dir_mtime Sample.encoder_accepts
                  Sample.YOLO (Some Sample.args_missing_dir) w)
           Sample.args_missing_dir w e eq_refl).
  - vm_compute. reflexivity.
  - reflexivity.
Defined.

(** C5, as the specification words it, fails: a missing source directory,
    a directory without images and a model that does not load are all
    reported on the standard output, and the exit status is zero each
    time. *)
Lemma script_exit_status_counterexample :
  let w := Sample.world Sample.models_fs in
  let run args :=
    Inference.script Sample.dir_mtime Sample.encoder_accepts Sample.YOLO
      (Some args) w in
  ((Inference.main_try Sample.dir_mtime Sample.encoder_accepts Sample.YOLO
      Sample.args_missing_dir w).2
   = Raise (FileNotFoundError "Directory not found: missing")
   /\ Inference.exit_status (run Sample.args_missing_dir).2 = 0)
  /\ ((Inference.main_try Sample.dir_mtime Sample.encoder_accepts
         Sample.YOLO Sample.args_empty_dir w).2
      = Raise (FileNotFoundError "No images found in models")
      /\ Inference.exit_status (run Sample.args_empty_dir).2 = 0)
  /\ ((Inference.main_try Sample.dir_mtime Sample.encoder_accepts
         Sample.YOLO Sample.args_bad_model w).2
      = Raise (LibraryError "cannot load weights")
      /\ Inference.exit_status (run Sample.args_bad_model).2 = 0).
Proof.
  intros w run. repeat split; vm_compute; reflexivity.
Qed.

(* ===================================================================== *)
(** * Further properties of [Inference.py] *)
(* ===================================================================== *)

(** ** Strings *)

Lemma append_length (a b : string) :
  String.length (a +:+ b) = (String.length a + String.length b)%nat.
Proof. induction a as [|c a IH]; simpl; [reflexivity | rewrite IH; lia]. Qed.

Lemma append_inv_r (a b t : string) : a +:+ t = b +:+ t -> a = b.
Proof.
  revert b. induction a as [|c a IH]; intros b H.
  - destruct b as [|d b]; [reflexivity|].
    apply (f_equal String.length) in H. rewrite !append_length in H.
    simpl in H. lia.
  - destruct b as [|d b].
    + apply (f_equal String.length) in H. rewrite !append_length in H.
      simpl in H. lia.
    + simpl in H. injection H as -> H. f_equal. apply IH, H.
Qed.

(** Of two endings of one name, the shorter is an ending of the longer. *)
Lemma endings_nest (a b s t : string) :
  a +:+ s = b +:+ t ->
  (String.length s <= String.length t)%nat ->
  exists c, t = c +:+ s.
Proof.
  revert b. induction a as [|x a IH]; intros b H Hlen.
  - simpl in H. destruct b as [|y b].
    + exists EmptyString. simpl in H. auto.
    + apply (f_equal String.length) in H. rewrite !append_length in H.
      simpl in H. lia.
  - destruct b as [|y b].
    + exists (String x a). simpl in H. auto.
    + simpl in H. injection H as _ H. apply (IH b H Hlen).
Qed.

(** ** The enumeration has no duplicates *)

(** No ending of the patterns is the ending of another one. *)
Lemma glob_patterns_exclusive (s t c : string) :
  String "*"%char s ∈ glob_patterns ->
  String "*"%char t ∈ glob_patterns ->
  t = c +:+ s -> s = t.
Proof.
  unfold glob_patterns. intros Hs Ht.
  repeat (apply elem_of_cons in Hs as [[= ->] | Hs]); [..|inversion Hs];
    repeat (apply elem_of_cons in Ht as [[= ->] | Ht]);
    try (inversion Ht; fail); try reflexivity;
    intros H; exfalso;
    (destruct c as [|x [|y c]];
     [ discriminate H
     | discriminate H
     | apply (f_equal String.length) in H; rewrite !append_length in H;
       simpl in H; lia ]).
Qed.

Lemma glob_patterns_star (pat : string) :
  pat ∈ glob_patterns ->
  exists s, pat = String "*"%char s /\ star_free s = true.
Proof.
  unfold glob_patterns. intros H.
  repeat (apply elem_of_cons in H as [-> | H]); [..|inversion H];
    eexists; split; reflexivity.
Qed.

(** A name matches at most one pattern of the loop. *)
Lemma glob_patterns_disjoint (p1 p2 n : string) :
  p1 ∈ glob_patterns -> p2 ∈ glob_patterns ->
  Str.fnmatch p1 n = true -> Str.fnmatch p2 n = true -> p1 = p2.
Proof.
  intros H1 H2 M1 M2.
  destruct (glob_patterns_star p1 H1) as (s & -> & Hs).
  destruct (glob_patterns_star p2 H2) as (t & -> & Ht).
  apply (fnmatch_star_suffix s n Hs) in M1 as [a ->].
  apply (fnmatch_star_suffix t _ Ht) in M2 as [b Hb].
  f_equal.
  destruct (Nat.le_ge_cases (String.length s) (String.length t)) as [Hle|Hle].
  - destruct (endings_nest a b s t Hb Hle) as [c Hc].
    apply (glob_patterns_exclusive s t c H1 H2 Hc).
  - destruct (endings_nest b a t s (eq_sym Hb) Hle) as [c Hc].
    symmetry. apply (glob_patterns_exclusive t s c H2 H1 Hc).
Qed.

Lemma NoDup_flat_map_filter (pats names : list string) :
  NoDup pats -> NoDup names ->
  (forall p1 p2 n, p1 ∈ pats -> p2 ∈ pats ->
     Str.fnmatch p1 n = true -> Str.fnmatch p2 n = true -> p1 = p2) ->
  NoDup (flat_map (fun pat => filter (fun n => Str.fnmatch pat n = true) names)
                  pats).
Proof.
  intros Hpats Hnames. induction Hpats as [|pat pats Hnotin Hpats IH];
    intros Hdisj; simpl; [constructor|].
  apply NoDup_app. split; [apply NoDup_filter, Hnames|]. split.
  - intros n Hn Hn'. apply list_elem_of_filter in Hn as [Hm _].
    apply list_elem_of_In, in_flat_map in Hn' as (pat' & Hpat' & Hn').
    apply list_elem_of_In in Hpat'. apply list_elem_of_In in Hn'.
    apply list_elem_of_filter in Hn' as [Hm' _].
    assert (pat = pat') as <-.
    { apply (Hdisj pat pat' n); auto using list_elem_of_here,
        list_elem_of_further. }
    exact (Hnotin Hpat').
  - apply IH. intros p1 p2 n H1 H2. apply Hdisj; apply list_elem_of_further;
      assumption.
Qed.

Global Instance child_inj (p : Path) : Inj (=) (=) (Pathlib.child p).
Proof.
  intros a b H. unfold Pathlib.child in H.
  apply app_inv_head in H. congruence.
Qed.

(** When the directory lists no entry twice, the batch enumerates no file
    twice, although it globs the directory ten times. *)
Theorem image_files_NoDup (fs : FS) (input_path : Path) :
  NoDup (Fs.listdir fs input_path) ->
  NoDup (Inference.image_files fs input_path).
Proof.
  intros Hnames. rewrite image_files_flat. apply NoDup_fmap_2; [apply _|].
  apply NoDup_flat_map_filter; [|exact Hnames|].
  - unfold glob_patterns. apply (bool_decide_unpack _). vm_compute. exact I.
  - intros p1 p2 n. apply glob_patterns_disjoint.
Qed.

Lemma image_files_NoDup_witness :
  NoDup (Inference.image_files Sample.photos_fs ["in"]).
Proof.
  apply (image_files_NoDup Sample.photos_fs ["in"]).
  apply (bool_decide_unpack _). vm_compute. exact I.
Defined.

(** ** A directory without images *)

(** A batch over a directory none of whose entries ends in an allow-listed
    extension (in lower or in upper case) fails with "No images found",
    before the output directory is made and without any other effect. *)
Theorem batch_inference_no_images (model : Model) (input_dir : Path)
    (conf : Q) (save_dir : Path) (w : World) :
  Fs.exists_ (w_fs w) input_dir = true ->
  (forall n ext,
     n ∈ Fs.listdir (w_fs w) input_dir ->
     ext ∈ Inference.image_extensions ->
     ~ (exists pre, n = pre +:+ ext)
     /\ ~ (exists pre, n = pre +:+ Str.upper ext)) ->
  Inference.batch_inference model input_dir conf save_dir w
  = (w, Raise (FileNotFoundError
                 ("No images found in " +:+ Pathlib.str input_dir))).
Proof.
  intros Hex Hnone. unfold Inference.batch_inference. rewrite Hex. cbn [negb].
  destruct (Inference.image_files (w_fs w) input_dir) as [|f files] eqn:Hf;
    [reflexivity|].
  exfalso.
  assert (Hin : f ∈ Inference.image_files (w_fs w) input_dir)
    by (rewrite Hf; apply list_elem_of_here).
  apply image_files_elem in Hin as (n & ext & _ & Hn & Hext & Hsuf).
  destruct (Hnone n ext Hn Hext) as [Hlo Hup]. tauto.
Qed.

Lemma batch_inference_no_images_witness :
  Inference.batch_inference Sample.detector ["models"] (1 # 4) ["out"]
    (Sample.world Sample.models_fs)
  = (Sample.world Sample.models_fs,
     Raise (FileNotFoundError "No images found in models")).
Proof.
  apply (batch_inference_no_images Sample.detector ["models"] (1 # 4) ["out"]
           (Sample.world Sample.models_fs) eq_refl).
  intros n ext Hn Hext.
  destruct (image_extensions_star_free ext Hext) as [Hlo Hup].
  rewrite <- (fnmatch_star_suffix ext n Hlo).
  rewrite <- (fnmatch_star_suffix (Str.upper ext) n Hup).
  vm_compute in Hn. unfold Inference.image_extensions in Hext.
  repeat (apply elem_of_cons in Hn as [-> | Hn]); [..|inversion Hn];
    repeat (apply elem_of_cons in Hext as [-> | Hext]);
    try (inversion Hext; fail);
    split; vm_compute; discriminate.
Defined.

(** ** Which model is the latest *)

(** Both resolutions agree on what they return. *)
Lemma find_latest_model_agree (dir_mtime : Path -> Z) (w : World) (p : Path) :
  Inference.find_latest_model dir_mtime w = (w, Ok p)
  <-> Api.find_latest_model dir_mtime (w_fs w) = Ok (Some p).
Proof.
  unfold Inference.find_latest_model, Api.find_latest_model, raise, lift.
  destruct (negb (Fs.exists_ (w_fs w) ["models"])); [split; discriminate|].
  destruct (Fs.glob (w_fs w) ["models"] "helmet_detector_best_*.pt");
    [split; discriminate|].
  destruct (Inference.max_by _ _ _); split; intros [= <-]; reflexivity.
Qed.

(** The model that is resolved is an entry [helmet_detector_best_<x>.pt]
    of [models], a regular file or a directory; every matching entry
    listed before it is strictly older and every one listed after it is not
    newer: among entries of the same age the one listed first is taken. *)
Theorem find_latest_model_first_latest (dir_mtime : Path -> Z) (w : World)
    (p : Path) :
  Inference.find_latest_model dir_mtime w = (w, Ok p)
  \/ Api.find_latest_model dir_mtime (w_fs w) = Ok (Some p) ->
  let fs := w_fs w in
  let mtime := Fs.getmtime dir_mtime fs in
  (exists mid, p = ["models"; "helmet_detector_best_" +:+ mid +:+ ".pt"])
  /\ Fs.exists_ fs p = true
  /\ exists before after t,
       Fs.glob fs ["models"] "helmet_detector_best_*.pt"
       = before ++ p :: after
       /\ mtime p = Ok t
       /\ Forall (older mtime t) before
       /\ Forall (not_newer mtime t) after.
Proof.
  intros H fs mtime.
  assert (Hapi : Api.find_latest_model dir_mtime fs = Ok (Some p)).
  { destruct H as [H|H]; [apply find_latest_model_agree, H | exact H]. }
  clear H. unfold Api.find_latest_model in Hapi.
  destruct (negb (Fs.exists_ fs ["models"])); [discriminate|].
  destruct (Fs.glob fs ["models"] "helmet_detector_best_*.pt")
    as [|f rest] eqn:Hglob; [discriminate|].
  pose proof (max_by_spec (Fs.getmtime dir_mtime fs) f rest) as Hmax.
  destruct (Inference.max_by (Fs.getmtime dir_mtime fs) f rest) as [p'|e];
    [|discriminate].
  injection Hapi as ->.
  destruct Hmax as (before & after & t & Hsplit & Hp & Hb & Ha).
  split; [|split].
  - assert (Hin : p ∈ Fs.glob fs ["models"] "helmet_detector_best_*.pt").
    { rewrite Hglob, Hsplit. apply elem_of_app. right.
      apply list_elem_of_here. }
    apply model_candidates in Hin as (mid & -> & _). eauto.
  - pose proof (getmtime_exists dir_mtime fs p) as Hst.
    destruct (Fs.exists_ fs p); [reflexivity | congruence].
  - exists before, after, t. auto.
Qed.

Lemma find_latest_model_first_latest_witness :
  let fs := Fixtures.folder_fs in
  let mtime := Fs.getmtime Sample.dir_mtime fs in
  let p := ["models"; "helmet_detector_best_d.pt"] in
  Api.find_latest_model Sample.dir_mtime fs = Ok (Some p)
  /\ Fs.is_dir fs p = true
  /\ (exists mid, p = ["models"; "helmet_detector_best_" +:+ mid +:+ ".pt"])
  /\ Fs.exists_ fs p = true
  /\ exists before after t,
       Fs.glob fs ["models"] "helmet_detector_best_*.pt"
       = before ++ p :: after
       /\ mtime p = Ok t
       /\ Forall (older mtime t) before
       /\ Forall (not_newer mtime t) after.
Proof.
  split; [reflexivity|]. split; [reflexivity|].
  apply (find_latest_model_first_latest Sample.dir_mtime
           (Sample.world Fixtures.folder_fs)
           ["models"; "helmet_detector_best_d.pt"]).
  right. reflexivity.
Defined.

(** Among trained models of the same age the one listed first is the one
    that is resolved. *)
Example find_latest_model_tie :
  let fs :=
    {| fs_dirs :=
         {[ ["models"] :=
              ["helmet_detector_best_y.pt"; "helmet_detector_best_x.pt"] ]};
       fs_files :=
         {[ ["models"; "helmet_detector_best_y.pt"] := Sample.weights 10;
            ["models"; "helmet_detector_best_x.pt"] := Sample.weights 10 ]} |}
  in
  Api.find_latest_model Sample.dir_mtime fs
  = Ok (Some ["models"; "helmet_detector_best_y.pt"]).
Proof. reflexivity. Qed.

(** ** Names, stems and suffixes *)

Lemma append_inv_l (a s t : string) : a +:+ s = a +:+ t -> s = t.
Proof. induction a as [|c a IH]; simpl; [auto | intros [= H]; auto]. Qed.

Lemma rfind_get (c : ascii) (s : string) (i : nat) :
  Str.rfind c s = Some i -> String.get i s = Some c.
Proof.
  revert i. induction s as [|d s IH]; intros i; simpl; [discriminate|].
  destruct (Str.rfind c s) as [j|].
  - intros [= <-]. simpl. apply IH. reflexivity.
  - destruct (Ascii.eqb_spec c d) as [->|_]; [|discriminate].
    intros [= <-]. reflexivity.
Qed.

Lemma append_empty_r (s : string) : s +:+ EmptyString = s.
Proof.
  induction s as [|c s IH]; [reflexivity|].
  change (String c (s +:+ EmptyString) = String c s). congruence.
Qed.

Lemma substring_all (s : string) :
  String.substring 0 (String.length s) s = s.
Proof. induction s as [|c s IH]; simpl; congruence. Qed.

Lemma substring_none (s : string) : String.substring 0 0 s = EmptyString.
Proof. destruct s; reflexivity. Qed.

Lemma substring_split (i : nat) (s : string) :
  (i <= String.length s)%nat ->
  String.substring 0 i s +:+ String.substring i (String.length s - i) s = s.
Proof.
  revert i. induction s as [|c s IH]; intros i Hi.
  - destruct i; [reflexivity | simpl in Hi; lia].
  - destruct i as [|i].
    + rewrite substring_none, Nat.sub_0_r, substring_all. reflexivity.
    + simpl in Hi.
      change (String c (String.substring 0 i s
                        +:+ String.substring i (String.length s - i) s)
              = String c s).
      f_equal. apply IH. lia.
Qed.

(** A name is its stem followed by its suffix. *)
Lemma name_stem_suffix (p : Path) :
  Pathlib.name p = Pathlib.stem p +:+ Pathlib.suffix p.
Proof.
  unfold Pathlib.stem, Pathlib.suffix.
  destruct (Str.rfind "." (Pathlib.name p)) as [i|].
  - destruct ((0 <? i)%nat && (i <? String.length (Pathlib.name p) - 1)%nat)
      eqn:Hc.
    + symmetry. apply substring_split.
      apply andb_true_iff in Hc as [_ Hc]. apply Nat.ltb_lt in Hc. lia.
    + symmetry. apply append_empty_r.
  - symmetry. apply append_empty_r.
Qed.

(** A suffix is empty or begins with a dot. *)
Lemma suffix_dot (p : Path) :
  Pathlib.suffix p = EmptyString
  \/ String.get 0 (Pathlib.suffix p) = Some "."%char.
Proof.
  unfold Pathlib.suffix.
  destruct (Str.rfind "." (Pathlib.name p)) as [i|] eqn:Hr; [|auto].
  destruct ((0 <? i)%nat && (i <? String.length (Pathlib.name p) - 1)%nat)
    eqn:Hc; [|auto].
  right. apply andb_true_iff in Hc as [_ Hc]. apply Nat.ltb_lt in Hc.
  rewrite String.substring_correct1 by lia. simpl. apply rfind_get, Hr.
Qed.

(** The output name is never the name of the source. *)
Lemma output_name_fresh (p : Path) (ext : string) :
  String.get 0 ext = Some "_"%char ->
  Pathlib.stem p +:+ ext <> Pathlib.name p.
Proof.
  intros Hext Heq. rewrite (name_stem_suffix p) in Heq.
  apply append_inv_l in Heq. rewrite Heq in Hext.
  destruct (suffix_dot p) as [H|H]; rewrite H in Hext; discriminate.
Qed.

Lemma name_child_last (p : Path) (n : string) :
  Pathlib.name (Pathlib.child p n) = n.
Proof. unfold Pathlib.name, Pathlib.child. apply last_last. Qed.

Lemma child_name_ne (d1 d2 : Path) (n1 n2 : string) :
  n1 <> n2 -> Pathlib.child d1 n1 <> d2 ++ [n2].
Proof.
  unfold Pathlib.child. intros Hne Heq. apply app_inj_tail in Heq as [_ ?].
  auto.
Qed.

(** ** What the per-item processor touches *)

(** The per-item processor changes no file but its output file, and in
    particular never the image it reads; when it fails, it has written no
    file and printed nothing. *)
Theorem run_inference_image_footprint (model : Model) (image_path : Path)
    (conf : Q) (save_dir : Path) (w : World) :
  let run := Inference.run_inference_image model image_path conf save_dir w in
  let output_path :=
    Pathlib.child save_dir (Pathlib.stem image_path +:+ "_detected.jpg") in
  (forall q, q <> output_path ->
     fs_files (w_fs run.1) !! q = fs_files (w_fs w) !! q)
  /\ output_path <> image_path
  /\ fs_files (w_fs run.1) !! image_path = fs_files (w_fs w) !! image_path
  /\ (forall e, run.2 = Raise e ->
        fs_files (w_fs run.1) = fs_files (w_fs w)
        /\ w_trace run.1 = w_trace w).
Proof.
  intros run output_path.
  assert (Hfresh : output_path <> image_path).
  { destruct (decide (image_path = [])) as [->|Hne].
    - unfold output_path, Pathlib.child. destruct save_dir; discriminate.
    - intros Heq.
      apply (child_name_ne save_dir (removelast image_path)
               (Pathlib.stem image_path +:+ "_detected.jpg")
               (Pathlib.name image_path)).
      + apply output_name_fresh. reflexivity.
      + unfold Pathlib.name.
        rewrite <- (app_removelast_last EmptyString Hne). exact Heq. }
  assert (Hother : forall q, q <> output_path ->
            fs_files (w_fs run.1) !! q = fs_files (w_fs w) !! q).
  { intros q Hq. subst run. rewrite run_inference_image_steps.
    destruct (Fs.mkdir_p save_dir (w_fs w)) as [fs1|e] eqn:Hmk;
      [|reflexivity].
    pose proof (mkdir_from_files _ _ _ _ Hmk) as Hfiles.
    destruct (predict_path model image_path conf Inference.iou fs1)
      as [r|e]; simpl; [|congruence].
    fold output_path. rewrite write_file_other by exact Hq. congruence. }
  split; [exact Hother|]. split; [exact Hfresh|].
  split; [apply Hother; auto|].
  intros e. subst run. rewrite run_inference_image_steps.
  destruct (Fs.mkdir_p save_dir (w_fs w)) as [fs1|e1] eqn:Hmk; [|auto].
  pose proof (mkdir_from_files _ _ _ _ Hmk) as Hfiles.
  destruct (predict_path model image_path conf Inference.iou fs1)
    as [r|e2]; simpl; [discriminate|auto].
Qed.

Lemma run_inference_image_footprint_witness :
  let run :=
    Inference.run_inference_image Sample.detector ["in"; "a.png"] (1 # 4)
      ["in"] (Sample.world Sample.photos_fs) in
  run.2 = Ok (["in"; "a_detected.jpg"], Sample.result)
  /\ fs_files (w_fs run.1) !! ["in"; "a.png"] = Some (Sample.weights 1)
  /\ fs_files (w_fs run.1) !! ["in"; "b.jpg"] = Some (Sample.weights 2).
Proof.
  intros run. split; [vm_compute; reflexivity|].
  destruct (run_inference_image_footprint Sample.detector ["in"; "a.png"]
              (1 # 4) ["in"] (Sample.world Sample.photos_fs))
    as (Hother & _ & Hsource & _).
  split; [exact Hsource|]. apply (Hother ["in"; "b.jpg"]). discriminate.
Defined.

(** ** Outputs of a batch *)

Lemma batch_inference_ok (model : Model) (input_dir : Path) (conf : Q)
    (save_dir : Path) (w w' : World) (report : list Inference.BatchRecord) :
  Inference.batch_inference model input_dir conf save_dir w
    = (w', Ok report) ->
  Forall2 (recorded save_dir)
          (Inference.image_files (w_fs w) input_dir) report.
Proof.
  unfold Inference.batch_inference.
  destruct (negb (Fs.exists_ (w_fs w) input_dir)); [discriminate|].
  destruct (Inference.image_files (w_fs w) input_dir) as [|f files] eqn:Hf;
    [discriminate|].
  unfold mbind, M_bind, bind.
  destruct (Inference.batch_loop model conf save_dir (f :: files) [] w)
    as [w1 [rs|e]] eqn:Hloop; [|discriminate].
  simpl. intros [= <- <-].
  apply batch_loop_ok in Hloop as (new & -> & Hnew). exact Hnew.
Qed.

Global Instance output_of_stem_inj (save_dir : Path) :
  Inj (=) (=) (fun stem : string =>
                 Pathlib.child save_dir (stem +:+ "_detected.jpg")).
Proof.
  intros a b H. apply (inj (Pathlib.child save_dir)) in H.
  apply append_inv_r in H. exact H.
Qed.

(** The outputs of a batch are pairwise distinct exactly when the stems of
    the enumerated files are: two images that differ in their extension
    only ([a.jpg], [a.png]) are written to the same output file. *)
Theorem batch_outputs_collide_on_stems (model : Model) (input_dir : Path)
    (conf : Q) (save_dir : Path) (w w' : World)
    (report : list Inference.BatchRecord) :
  Inference.batch_inference model input_dir conf save_dir w
    = (w', Ok report) ->
  NoDup (Inference.rec_output <$> report)
  <-> NoDup (Pathlib.stem <$> Inference.image_files (w_fs w) input_dir).
Proof.
  intros Hrun. apply batch_inference_ok in Hrun.
  assert (Hout : Inference.rec_output <$> report
                 = (fun stem => Pathlib.child save_dir
                                  (stem +:+ "_detected.jpg"))
                     <$> (Pathlib.stem
                            <$> Inference.image_files (w_fs w) input_dir)).
  { induction Hrun as [|f r files rs [_ Hr] _ IH]; [reflexivity|].
    rewrite !fmap_cons, Hr, IH. reflexivity. }
  rewrite Hout. apply (NoDup_fmap _).
Qed.

Lemma batch_outputs_collide_on_stems_witness :
  let run :=
    Inference.batch_inference Sample.detector ["in"] (1 # 4) ["out"]
      (Sample.world Sample.photos_fs) in
  exists report,
    run.2 = Ok report
    /\ (NoDup (Inference.rec_output <$> report)
        <-> NoDup (Pathlib.stem
                     <$> Inference.image_files Sample.photos_fs ["in"])).
Proof.
  intros run. destruct run as [w' [report|e]] eqn:Hrun.
  - exists report. split; [reflexivity|].
    apply (batch_outputs_collide_on_stems Sample.detector ["in"] (1 # 4)
             ["out"] (Sample.world Sample.photos_fs) w' report Hrun).
  - vm_compute in Hrun. discriminate.
Defined.

(** ** What a video run writes, and why it fails *)

Lemma writer_write_fs (out : Writer) (frame : Image) (w : World) :
  w_clock (writer_write out frame w).1 = w_clock w
  /\ fs_dirs (w_fs (writer_write out frame w).1) = fs_dirs (w_fs w)
  /\ forall q, q <> wr_path out ->
       fs_files (w_fs (writer_write out frame w).1) !! q
       = fs_files (w_fs w) !! q.
Proof.
  unfold writer_write. destruct (wr_opened out); [|auto].
  destruct (fs_files (w_fs w) !! wr_path out) as [[t [b|img|props frames]]|];
    simpl; auto.
  destruct (fits props frame); simpl; auto.
  split; [reflexivity|]. split; [reflexivity|].
  intros q Hq. apply lookup_insert_ne. auto.
Qed.

(** An opened writer appends the frames that fit its stream and drops the
    others. *)
Lemma writer_write_appends (p : Path) (frame : Image) (w : World)
    (t : Z) (props : VideoProps) (frames : list Image) :
  fs_files (w_fs w) !! p = Some (mkFile t (Video props frames)) ->
  exists t',
    fs_files (w_fs (writer_write {| wr_opened := true; wr_path := p |}
                      frame w).1) !! p
    = Some (mkFile t'
              (Video props
                 (frames ++ filter (fun img => fits props img = true)
                              [frame]))).
Proof.
  intros H. unfold writer_write. simpl. rewrite H.
  destruct (fits props frame) eqn:Hfit.
  - rewrite filter_cons_True by exact Hfit. simpl. eexists.
    apply lookup_insert_eq.
  - rewrite filter_cons_False by congruence. simpl. rewrite app_nil_r.
    eauto.
Qed.

(** Through an opened writer the loop appends the annotated image of every
    frame it gets through when the image fits the stream, in order, also
    when it ends with an error. *)
Lemma video_loop_appends (model : Model) (conf : Q) (frames : list Image)
    (p : Path) (fc dc : Z) (w w' : World) (r : Result (Z * Z))
    (t : Z) (props : VideoProps) (acc : list Image) :
  fs_files (w_fs w) !! p = Some (mkFile t (Video props acc)) ->
  Inference.video_loop model conf true frames
    {| wr_opened := true; wr_path := p |} fc dc w = (w', r) ->
  exists rs t',
    fs_files (w_fs w') !! p
    = Some (mkFile t'
              (Video props
                 (acc ++ filter (fun img => fits props img = true)
                           (plot <$> rs))))
    /\ match r with
       | Ok _ =>
           Forall2 (fun f x => predict_image model f conf Inference.iou = Ok x)
                   frames rs
       | Raise e =>
           exists rest,
             Forall2 (fun f x =>
                        predict_image model f conf Inference.iou = Ok x)
                     (take (length rs) frames) rs
             /\ drop (length rs) frames = rest
             /\ exists f, head rest = Some f
                  /\ predict_image model f conf Inference.iou = Raise e
       end.
Proof.
  revert fc dc w t acc. induction frames as [|frame rest IH];
    intros fc dc w t acc Hfile.
  - simpl. intros [= <- <-]. exists [], t. rewrite app_nil_r.
    split; [exact Hfile | constructor].
  - cbn [Inference.video_loop]. unfold mbind, M_bind, bind, lift.
    destruct (predict_image model frame conf Inference.iou) as [x|e] eqn:Hx.
    + destruct (writer_write_appends p (plot x) w t props acc Hfile)
        as [t1 Happ].
      destruct (writer_write_trace {| wr_opened := true; wr_path := p |}
                  (plot x) w) as [Hok _].
      destruct (writer_write {| wr_opened := true; wr_path := p |} (plot x) w)
        as [w1 r1]. simpl in Hok, Happ. subst r1.
      intros Hloop.
      destruct (IH _ _ _ _ _ Happ Hloop) as (rs & t' & Hfile' & Hr).
      exists (x :: rs), t'. split.
      * rewrite Hfile', <- app_assoc, fmap_cons.
        change (plot x :: (plot <$> rs)) with ([plot x] ++ (plot <$> rs)).
        rewrite filter_app. reflexivity.
      * destruct r as [counts|e].
        -- constructor; assumption.
        -- destruct Hr as (rest' & Hpre & Hdrop & Hhead).
           exists rest'. simpl. split; [constructor; assumption|]. auto.
    + intros [= <- <-]. exists [], t. rewrite app_nil_r.
      split; [exact Hfile|]. exists (frame :: rest). simpl.
      split; [constructor|]. split; [reflexivity|]. eauto.
Qed.

Lemma webcam_loop_fs (model : Model) (conf : Q) (frames : list Image)
    (w : World) :
  w_fs (Inference.webcam_loop model conf frames w).1 = w_fs w.
Proof.
  revert w. induction frames as [|frame rest IH]; intros w; [reflexivity|].
  cbn [Inference.webcam_loop]. unfold mbind, M_bind, bind, lift.
  destruct (predict_image model frame conf Inference.iou) as [r|e];
    [|reflexivity].
  simpl. unfold waitKey. simpl. destruct (w_keys w) as [|k ks]; simpl.
  - rewrite IH. reflexivity.
  - destruct (Z.land k 255 =? 113); [|rewrite IH]; reflexivity.
Qed.

(** The webcam mode never touches the file system: nothing of what it
    shows is written, whether the run returns or raises. *)
Theorem run_inference_webcam_writes_nothing (model : Model) (conf : Q)
    (w : World) :
  w_fs (Inference.run_inference_webcam model conf w).1 = w_fs w.
Proof.
  unfold Inference.run_inference_webcam, VideoCapture_device0,
    mbind, M_bind, bind. simpl.
  match goal with
  | |- context [Inference.webcam_loop ?m ?q ?fr ?ww] =>
      pose proof (webcam_loop_fs m q fr ww) as Hloop;
      destruct (Inference.webcam_loop m q fr ww) as [w1 [[]|e]]
  end; simpl in *; exact Hloop.
Qed.

Section VideoOutput.

Variable encoder_accepts : Z -> Z -> Z -> bool.

(** When the source opens and the encoder accepts its frame rate and size,
    the output file of a video run holds, in order, the annotated images
    that have the width and the height of the source, one for each frame
    whose annotated image has that size; an annotated image of another
    size is dropped by the writer.  When the detector raises on a frame,
    what was written for the frames before it stays in the file. *)
Theorem run_inference_video_output (model : Model) (video_path : Path)
    (conf : Q) (save_dir : Path) (w : World) (fs1 : FS) :
  let cap := open_file fs1 video_path in
  let fps := int_of_Q (vp_fps (cap_props cap)) in
  let width := vp_width (cap_props cap) in
  let height := vp_height (cap_props cap) in
  let stream := {| vp_fps := inject_Z fps; vp_width := width;
                   vp_height := height; vp_frame_count := 0 |} in
  let output_path :=
    Pathlib.child save_dir (Pathlib.stem video_path +:+ "_detected.mp4") in
  let run :=
    Inference.run_inference_video encoder_accepts model video_path conf
      save_dir w in
  Fs.mkdir_p save_dir (w_fs w) = Ok fs1 ->
  cap_opened cap = true ->
  encoder_accepts fps width height = true ->
  Fs.is_dir fs1 output_path = false ->
  exists rs t,
    fs_files (w_fs run.1) !! output_path
    = Some (mkFile t
              (Video stream
                 (filter (fun img => fits stream img = true) (plot <$> rs))))
    /\ match run.2 with
       | Ok p =>
           p = output_path
           /\ Forall2 (fun f x =>
                         predict_image model f conf Inference.iou = Ok x)
                      (cap_frames cap) rs
       | Raise e =>
           Forall2 (fun f x => predict_image model f conf Inference.iou = Ok x)
                   (take (length rs) (cap_frames cap)) rs
           /\ exists f,
                head (drop (length rs) (cap_frames cap)) = Some f
                /\ predict_image model f conf Inference.iou = Raise e
       end.
Proof.
  intros cap fps width height stream output_path run Hmk Hopen Henc Hout.
  subst run. unfold Inference.run_inference_video, mbind, M_bind, bind, mkdir.
  rewrite Hmk. simpl.
  unfold VideoCapture_file, mbind, M_bind, bind. simpl.
  fold cap. fold fps width height output_path.
  unfold Inference.VideoWriter. rewrite Henc. unfold Fs.write_file.
  assert (Hpar : Fs.is_dir fs1 (Pathlib.parent output_path) = true).
  { unfold output_path. rewrite parent_child.
    apply (mkdir_p_is_dir _ _ _ Hmk). }
  simpl. rewrite Hpar, Hout. simpl. rewrite Hopen. fold stream.
  match goal with
  | |- context [Inference.video_loop ?m ?q true ?fr ?o ?a ?b ?ww] =>
      destruct (Inference.video_loop m q true fr o a b ww) as [w4 lr] eqn:Hloop
  end.
  eapply video_loop_appends in Hloop as (rs & t & Hfile & Hr);
    [|simpl; apply lookup_insert_eq].
  exists rs, t. rewrite app_nil_l in Hfile.
  destruct lr as [counts|e]; simpl.
  - split; [exact Hfile|]. split; [reflexivity | exact Hr].
  - split; [exact Hfile|]. destruct Hr as (rest & Hpre & <- & Hhead).
    split; [exact Hpre | exact Hhead].
Qed.

(** A video run fails for one of two reasons only: the output directory
    cannot be made, or the detector raises on a frame of the source.  A
    source that does not open, an encoder that refuses and a read that
    fails are not among them. *)
Theorem run_inference_video_failure (model : Model) (video_path : Path)
    (conf : Q) (save_dir : Path) (w w' : World) (e : Exn) :
  Inference.run_inference_video encoder_accepts model video_path conf
    save_dir w = (w', Raise e) ->
  (Fs.mkdir_p save_dir (w_fs w) = Raise e /\ w' = w)
  \/ exists fs1 frame,
       Fs.mkdir_p save_dir (w_fs w) = Ok fs1
       /\ frame ∈ cap_frames (open_file fs1 video_path)
       /\ predict_image model frame conf Inference.iou = Raise e.
Proof.
  intros Hrun. apply run_inference_video_inv in Hrun
    as [(e' & Hmk & [= ->] & ->) | (fs1 & ok & w3 & w4 & lr & H)]; [auto|].
  destruct H as (Hmk & _ & Hloop & Hlr). right.
  destruct lr as [counts|e']; [destruct Hlr; discriminate|].
  destruct Hlr as [[= ->] ->].
  apply video_loop_raise in Hloop as (frame & Hin & Hpred). eauto.
Qed.

End VideoOutput.

Lemma run_inference_video_output_witness :
  let run :=
    Inference.run_inference_video Sample.encoder_accepts Sample.detector
      ["clip.mp4"] (1 # 4) ["out"] (Sample.world Sample.clip_fs) in
  let stream := {| vp_fps := 30; vp_width := 2; vp_height := 1;
                   vp_frame_count := 0 |} in
  exists rs t,
    fs_files (w_fs run.1) !! ["out"; "clip_detected.mp4"]
    = Some (mkFile t
              (Video stream
                 (filter (fun img => fits stream img = true) (plot <$> rs))))
    /\ match run.2 with
       | Ok p =>
           p = ["out"; "clip_detected.mp4"]
           /\ Forall2 (fun f x =>
                         predict_image Sample.detector f (1 # 4)
                           Inference.iou = Ok x)
                      [Sample.frame; Sample.frame] rs
       | Raise e =>
           Forall2 (fun f x => predict_image Sample.detector f (1 # 4)
                                 Inference.iou = Ok x)
                   (take (length rs) [Sample.frame; Sample.frame]) rs
           /\ exists f,
                head (drop (length rs) [Sample.frame; Sample.frame]) = Some f
                /\ predict_image Sample.detector f (1 # 4) Inference.iou
                   = Raise e
       end.
Proof.
  intros run stream.
  destruct (Fs.mkdir_p ["out"] Sample.clip_fs) as [fs1|e] eqn:Hmk;
    [|vm_compute in Hmk; discriminate].
  assert (Hfs1 : fs_files fs1 = fs_files Sample.clip_fs)
    by apply (mkdir_from_files _ _ _ _ Hmk).
  assert (Hcap : open_file fs1 ["clip.mp4"]
                 = open_file Sample.clip_fs ["clip.mp4"])
    by (unfold open_file; rewrite Hfs1; reflexivity).
  pose proof (run_inference_video_output Sample.encoder_accepts
                Sample.detector ["clip.mp4"] (1 # 4) ["out"]
                (Sample.world Sample.clip_fs) fs1 Hmk) as H.
  rewrite Hcap in H. apply H.
  - reflexivity.
  - reflexivity.
  - injection Hmk as <-. vm_compute. reflexivity.
Defined.

(** A detector whose annotated images are larger than the frames: both
    frames of the clip are processed and counted, and the output file holds
    none of them. *)
Example video_frames_dropped :
  let run :=
    Inference.run_inference_video Sample.encoder_accepts
      Fixtures.enlarging_detector ["clip.mp4"] (1 # 4) ["out"]
      (Sample.world Sample.clip_fs) in
  run.2 = Ok ["out"; "clip_detected.mp4"]
  /\ EvPrint (MsgVideoProcessed 2) ∈ w_trace run.1
  /\ fs_files (w_fs run.1) !! ["out"; "clip_detected.mp4"]
     = Some (mkFile 100
               (Video {| vp_fps := 30; vp_width := 2; vp_height := 1;
                         vp_frame_count := 0 |} [])).
Proof.
  intros run. split; [vm_compute; reflexivity|].
  split; [vm_compute; listed | vm_compute; reflexivity].
Qed.

Lemma run_inference_video_failure_witness :
  exists fs1 frame,
    Fs.mkdir_p ["out"] Sample.clip_fs = Ok fs1
    /\ frame ∈ cap_frames (open_file fs1 ["clip.mp4"])
    /\ predict_image Sample.picky_detector frame (1 # 4) Inference.iou
       = Raise (LibraryError "inference failed").
Proof.
  destruct (run_inference_video_failure Sample.encoder_accepts
              Sample.picky_detector ["clip.mp4"] (1 # 4) ["out"]
              (Sample.world Sample.clip_fs)
              (Inference.run_inference_video Sample.encoder_accepts
                 Sample.picky_detector ["clip.mp4"] (1 # 4) ["out"]
                 (Sample.world Sample.clip_fs)).1
              (LibraryError "inference failed"))
    as [[Hmk _] | H].
  - vm_compute. reflexivity.
  - vm_compute in Hmk. discriminate.
  - exact H.
Defined.

(** ** The webcam loop and the [q] key *)


Lemma webcam_loop_no_q (model : Model) (conf : Q) (frames : list Image)
    (rs : list Results) (w : World) :
  Forall2 (fun f x => predict_image model f conf Inference.iou = Ok x)
          frames rs ->
  Forall not_q (w_keys w) ->
  let run := Inference.webcam_loop model conf frames w in
  run.2 = Ok tt
  /\ w_trace run.1 = w_trace w ++ shows rs
  /\ w_keys run.1 = drop (length frames) (w_keys w).
Proof.
  intros Hrs. revert w. induction Hrs as [|f x frames rs Hx _ IH];
    intros w Hkeys run; subst run.
  - simpl. rewrite app_nil_r, drop_0. auto.
  - cbn [Inference.webcam_loop]. unfold mbind, M_bind, bind, lift.
    rewrite Hx. simpl. unfold waitKey. simpl.
    destruct (w_keys w) as [|k ks] eqn:Hk; simpl.
    + match goal with
      | |- context [Inference.webcam_loop _ _ _ ?ww] =>
          destruct (IH ww) as (H2 & Htr & Hks)
      end; [simpl; constructor|].
      simpl in *. rewrite H2, Htr, Hks, <- app_assoc, !drop_nil.
      auto.
    + apply Forall_cons_1 in Hkeys as [Hnq Hkeys]. unfold not_q in Hnq.
      destruct (Z.eqb_spec (Z.land k 255) 113) as [Heq|_]; [contradiction|].
      match goal with
      | |- context [Inference.webcam_loop _ _ _ ?ww] =>
          destruct (IH ww) as (H2 & Htr & Hks)
      end; [simpl; exact Hkeys|].
      simpl in *. rewrite H2, Htr, Hks, <- app_assoc. auto.
Qed.

Lemma webcam_loop_q (model : Model) (conf : Q) (frames : list Image)
    (rs : list Results) (w : World) (pre post : list Z) (k : Z) :
  Forall2 (fun f x => predict_image model f conf Inference.iou = Ok x)
          (take (S (length pre)) frames) rs ->
  (length pre < length frames)%nat ->
  w_keys w = pre ++ k :: post ->
  Forall not_q pre ->
  Z.land k 255 = 113 ->
  let run := Inference.webcam_loop model conf frames w in
  run.2 = Ok tt
  /\ w_trace run.1 = w_trace w ++ shows rs
  /\ w_keys run.1 = post.
Proof.
  revert frames rs w. induction pre as [|k0 pre IH];
    intros frames rs w Hrs Hlen Hkeys Hpre Hq run; subst run.
  - destruct frames as [|f frames]; [simpl in Hlen; lia|].
    simpl in Hrs. rewrite take_0 in Hrs.
    apply Forall2_cons_inv_l in Hrs as (x & rs' & Hx & Hnil & ->).
    apply Forall2_nil_inv_l in Hnil as ->.
    cbn [Inference.webcam_loop]. unfold mbind, M_bind, bind, lift.
    rewrite Hx. simpl. unfold waitKey. simpl. rewrite Hkeys. simpl.
    rewrite Hq. simpl. auto.
  - destruct frames as [|f frames]; [simpl in Hlen; lia|].
    simpl in Hrs.
    apply Forall2_cons_inv_l in Hrs as (x & rs' & Hx & Hrs & ->).
    apply Forall_cons_1 in Hpre as [Hnq Hpre]. unfold not_q in Hnq.
    cbn [Inference.webcam_loop]. unfold mbind, M_bind, bind, lift.
    rewrite Hx. simpl. unfold waitKey. simpl. rewrite Hkeys. simpl.
    destruct (Z.eqb_spec (Z.land k0 255) 113) as [Heq|_]; [contradiction|].
    match goal with
    | |- context [Inference.webcam_loop _ _ _ ?ww] =>
        destruct (IH frames rs' ww Hrs) as (H2 & Htr & Hks)
    end; [simpl in Hlen; lia | reflexivity | exact Hpre | exact Hq |].
    simpl in *. rewrite H2, Htr, Hks, <- app_assoc. auto.
Qed.

(** With a camera that delivers [frames] and a detector that accepts them:
    when [q] is never pressed, every frame is shown, in order, before the
    capture is released; when [q] is first pressed while the (n+1)-th
    frame is shown, exactly the first n+1 frames are shown, and the keys
    pressed later are not read. *)
Theorem run_inference_webcam_stops_on_q (model : Model) (conf : Q)
    (w : World) (frames : list Image) :
  w_camera w = Some frames ->
  let run := Inference.run_inference_webcam model conf w in
  (forall rs,
     Forall2 (fun f x => predict_image model f conf Inference.iou = Ok x)
             frames rs ->
     Forall not_q (w_keys w) ->
     run.2 = Ok tt
     /\ w_trace run.1
        = w_trace w ++ [EvCapOpen true; EvPrint MsgWebcamRunning]
          ++ shows rs ++ [EvCapRelease; EvDestroyAllWindows])
  /\ (forall rs pre k post,
        Forall2 (fun f x => predict_image model f conf Inference.iou = Ok x)
                (take (S (length pre)) frames) rs ->
        (length pre < length frames)%nat ->
        w_keys w = pre ++ k :: post ->
        Forall not_q pre ->
        Z.land k 255 = 113 ->
        run.2 = Ok tt
        /\ w_trace run.1
           = w_trace w ++ [EvCapOpen true; EvPrint MsgWebcamRunning]
             ++ shows rs ++ [EvCapRelease; EvDestroyAllWindows]
        /\ w_keys run.1 = post).
Proof.
  intros Hcam run. subst run.
  unfold Inference.run_inference_webcam, VideoCapture_device0,
    mbind, M_bind, bind. rewrite Hcam. simpl. split.
  - intros rs Hrs Hkeys.
    match goal with
    | |- context [Inference.webcam_loop ?m ?q ?fr ?ww] =>
        destruct (webcam_loop_no_q m q fr rs ww Hrs Hkeys) as (H2 & Htr & _);
        destruct (Inference.webcam_loop m q fr ww) as [w1 r1]
    end.
    simpl in *. subst r1. simpl. split; [reflexivity|].
    rewrite Htr, <- !app_assoc. reflexivity.
  - intros rs pre k post Hrs Hlen Hkeys Hpre Hq.
    match goal with
    | |- context [Inference.webcam_loop ?m ?q ?fr ?ww] =>
        destruct (webcam_loop_q m q fr rs ww pre post k Hrs Hlen Hkeys Hpre Hq)
          as (H2 & Htr & Hks);
        destruct (Inference.webcam_loop m q fr ww) as [w1 r1]
    end.
    simpl in *. subst r1. simpl. split; [reflexivity|].
    split; [|exact Hks]. rewrite Htr, <- !app_assoc. reflexivity.
Qed.

Lemma run_inference_webcam_stops_on_q_witness :
  let run :=
    Inference.run_inference_webcam Sample.detector (1 # 4)
      Fixtures.camera_world in
  run.2 = Ok tt
  /\ w_trace run.1
     = [EvCapOpen true; EvPrint MsgWebcamRunning;
        EvImshow Sample.frame; EvImshow Sample.frame;
        EvCapRelease; EvDestroyAllWindows]
  /\ w_keys run.1 = [97].
Proof.
  apply (proj2 (run_inference_webcam_stops_on_q Sample.detector (1 # 4)
                  Fixtures.camera_world
                  [Sample.frame; Sample.frame; Sample.frame] eq_refl)
           [Sample.result; Sample.result] [-1] 113 [97]).
  - repeat constructor.
  - simpl. lia.
  - reflexivity.
  - repeat constructor. unfold not_q. vm_compute. discriminate.
  - reflexivity.
Defined.

(** ** The command line without a model *)

Section NoModel.

Variable dir_mtime : Path -> Z.
Variable encoder_accepts : Z -> Z -> Z -> bool.
Variable YOLO : Path -> FS -> Result Model.

(** Without [--model], when there is no [models] directory or no trained
    model in it, [main] does nothing but print the failure: the detector
    is not loaded, the source is not looked at and nothing is written,
    whatever the mode. *)
Theorem main_without_model (args : Inference.Args) (w : World) :
  Inference.arg_model args = None ->
  let candidates :=
    Fs.glob (w_fs w) ["models"] "helmet_detector_best_*.pt" in
  (Fs.exists_ (w_fs w) ["models"] = false ->
   Inference.main dir_mtime encoder_accepts YOLO args w
   = ((print (MsgInferenceFailed
                (FileNotFoundError "No models directory found.")) w).1,
      Ok tt))
  /\ (Fs.exists_ (w_fs w) ["models"] = true -> candidates = [] ->
      Inference.main dir_mtime encoder_accepts YOLO args w
      = ((print (MsgInferenceFailed
                   (FileNotFoundError "No trained models found.")) w).1,
         Ok tt)).
Proof.
  intros Hnone candidates. subst candidates.
  unfold Inference.main, try_except, Inference.main_try, mbind, M_bind, bind.
  rewrite Hnone. unfold Inference.find_latest_model. split.
  - intros ->. reflexivity.
  - intros -> ->. reflexivity.
Qed.

End NoModel.

Lemma main_without_model_witness :
  Inference.main Sample.dir_mtime Sample.encoder_accepts Sample.YOLO
    Fixtures.args_no_model (Sample.world Sample.photos_fs)
  = ((print (MsgInferenceFailed
               (FileNotFoundError "No models directory found."))
        (Sample.world Sample.photos_fs)).1,
     Ok tt).
Proof.
  apply (proj1 (main_without_model Sample.dir_mtime Sample.encoder_accepts
                  Sample.YOLO Fixtures.args_no_model
                  (Sample.world Sample.photos_fs) eq_refl)).
  reflexivity.
Defined.

(* ===================================================================== *)
(** * Further properties of [Api.py] *)
(* ===================================================================== *)

(** ** The detections of a response *)

(** The list comprehension returns one detection per box, in order, or
    raises [KeyError] for the first box whose class has no name. *)
Lemma detections_of_spec (names : gmap nat string) (bs : list Box) :
  match Api.detections_of names bs with
  | Ok ds =>
      Forall2 (fun box d =>
                 names !! box_cls box = Some (Api.class_name d)
                 /\ Api.confidence d = box_conf box
                 /\ Api.bbox d = box_xyxy box) bs ds
  | Raise e =>
      exists pre box post,
        bs = pre ++ box :: post
        /\ Forall (fun b => is_Some (names !! box_cls b)) pre
        /\ names !! box_cls box = None
        /\ e = KeyError (box_cls box)
  end.
Proof.
  induction bs as [|box rest IH]; simpl; [constructor|].
  destruct (names !! box_cls box) as [n|] eqn:Hn.
  - destruct (Api.detections_of names rest) as [ds|e].
    + constructor; [simpl; auto | exact IH].
    + destruct IH as (pre & b & post & -> & Hpre & Hb & ->).
      exists (box :: pre), b, post. split; [reflexivity|].
      split; [constructor; eauto | auto].
  - exists [], box, rest. split; [reflexivity|]. split; [constructor | auto].
Qed.

Section Responses.

Variable decode : list N -> Result (option Image).
Variable tempname : World -> Path.

(** A prediction response lists one detection for every box of the
    detector, in the order of the boxes, with the confidence and the box
    copied and the class name looked up; it gives the size of the decoded
    image as width before height and counts the detections in its
    message. *)
Theorem predict_response (model : option Model) (contents : list N)
    (conf iou : Q) (resp : Api.PredictionResponse) :
  Api.predict decode model contents conf iou = Api.Respond resp ->
  exists m image results,
    model = Some m
    /\ Api.imdecode decode contents = Ok (Some image)
    /\ predict_image m image conf iou = Ok results
    /\ Api.success resp = true
    /\ Api.image_size resp = [img_width image; img_height image]
    /\ Forall2 (fun box d =>
                  names results !! box_cls box = Some (Api.class_name d)
                  /\ Api.confidence d = box_conf box
                  /\ Api.bbox d = box_xyxy box)
               (boxes results) (Api.detections resp)
    /\ Api.message resp
       = pretty (length (boxes results)) +:+ " object(s) detected".
Proof.
  unfold Api.predict. destruct model as [m|]; [|discriminate].
  destruct (Api.imdecode decode contents) as [[image|]|e];
    [|discriminate..].
  destruct (predict_image m image conf iou) as [results|e] eqn:Hp;
    [|discriminate].
  pose proof (detections_of_spec (names results) (boxes results)) as Hd.
  destruct (Api.detections_of (names results) (boxes results)) as [ds|e];
    [|discriminate].
  intros [= <-]. exists m, image, results. simpl.
  rewrite (Forall2_length _ _ _ Hd). auto 10.
Qed.

(** A box whose class is missing from the name table of the detector ends
    the request with an unhandled [KeyError] for the first such class: an
    internal error, not one of the handler's own HTTP errors. *)
Theorem predict_unknown_class (m : Model) (contents : list N) (conf iou : Q)
    (image : Image) (results : Results) (pre post : list Box) (box : Box) :
  Api.imdecode decode contents = Ok (Some image) ->
  predict_image m image conf iou = Ok results ->
  boxes results = pre ++ box :: post ->
  Forall (fun b => is_Some (names results !! box_cls b)) pre ->
  names results !! box_cls box = None ->
  Api.predict decode (Some m) contents conf iou
  = Api.Unhandled (KeyError (box_cls box)).
Proof.
  intros Hdec Hp Hboxes Hpre Hbox. unfold Api.predict. rewrite Hdec, Hp.
  pose proof (detections_of_spec (names results) (boxes results)) as Hd.
  destruct (Api.detections_of (names results) (boxes results)) as [ds|e].
  - exfalso. rewrite Hboxes in Hd.
    apply Forall2_app_inv_l in Hd as (ds1 & ds2 & _ & Hd & _).
    apply Forall2_cons_inv_l in Hd as (d & ds3 & (Hd & _) & _).
    congruence.
  - destruct Hd as (pre' & box' & post' & Heq & Hpre' & Hbox' & ->).
    rewrite Hboxes in Heq. f_equal. f_equal.
    clear Hp Hboxes. revert pre' Heq Hpre'.
    induction Hpre as [|b pre [n Hb] Hpre IH]; intros pre' Heq Hpre'.
    + destruct pre' as [|b' pre']; simpl in Heq.
      * injection Heq as -> _. reflexivity.
      * injection Heq as <- _. apply Forall_cons_1 in Hpre' as [[n Hn] _].
        congruence.
    + destruct pre' as [|b' pre']; simpl in Heq.
      * injection Heq as -> _. congruence.
      * injection Heq as <- Heq. apply Forall_cons_1 in Hpre' as [_ Hpre'].
        apply (IH pre' Heq Hpre').
Qed.

(** The HTTP errors the two handlers raise themselves are exactly two:
    503 with "Model not loaded", when and only when no model is loaded, and
    400 with "Invalid image file", when and only when a model is loaded and
    [cv2.imdecode] returns [None] for the payload; and a request that is
    not answered with a response leaves the world as it was. *)
Theorem handlers_http_errors (model : option Model) (contents : list N)
    (conf iou : Q) (w : World) (code : nat) (detail : string) :
  let annotated :=
    Api.predict_annotated decode tempname model contents conf iou w in
  let raised :=
    (model = None /\ code = 503%nat /\ detail = "Model not loaded")
    \/ (model <> None /\ Api.imdecode decode contents = Ok None
        /\ code = 400%nat /\ detail = "Invalid image file") in
  (Api.predict decode model contents conf iou
   = Api.HTTPException code detail <-> raised)
  /\ (annotated.2 = Api.HTTPException code detail <-> raised)
  /\ ((forall p, annotated.2 <> Api.Respond p) -> annotated.1 = w).
Proof.
  intros annotated raised. subst annotated raised. split; [|split].
  - split.
    + intros H. apply predict_error_codes_only in H. tauto.
    + intros [(-> & -> & ->) | (Hm & Hdec & -> & ->)]; [reflexivity|].
      destruct model as [m|]; [|congruence].
      unfold Api.predict. rewrite Hdec. reflexivity.
  - unfold Api.predict_annotated. split.
    + destruct model as [m|]; [|intros [= <- <-]; auto].
      destruct (Api.imdecode decode contents) as [[image|]|e];
        [|intros [= <- <-]; right; auto | discriminate].
      destruct (predict_image m image conf iou); discriminate.
    + intros [(-> & -> & ->) | (Hm & Hdec & -> & ->)]; [reflexivity|].
      destruct model as [m|]; [|congruence].
      rewrite Hdec. reflexivity.
  - unfold Api.predict_annotated. destruct model as [m|]; [|reflexivity].
    destruct (Api.imdecode decode contents) as [[image|]|e];
      [|reflexivity..].
    destruct (predict_image m image conf iou) as [results|e]; [|reflexivity].
    simpl. intros H. exfalso. eapply H. reflexivity.
Qed.

(** An annotated prediction that succeeds answers with the path of a
    temporary file that holds the image as the detector plotted it; the
    file is left behind, and no other file is changed. *)
Theorem predict_annotated_tempfile (m : Model) (contents : list N)
    (conf iou : Q) (w : World) (image : Image) (results : Results) :
  Api.imdecode decode contents = Ok (Some image) ->
  predict_image m image conf iou = Ok results ->
  Fs.is_dir (w_fs w) (Pathlib.parent (tempname w)) = true ->
  Fs.is_dir (w_fs w) (tempname w) = false ->
  let run :=
    Api.predict_annotated decode tempname (Some m) contents conf iou w in
  run.2 = Api.Respond (tempname w)
  /\ fs_files (w_fs run.1) !! tempname w
     = Some (mkFile (w_clock w) (Picture (plot results)))
  /\ (forall q, q <> tempname w ->
        fs_files (w_fs run.1) !! q = fs_files (w_fs w) !! q)
  /\ w_trace run.1 = w_trace w.
Proof.
  intros Hdec Hp Hpar Htmp run. subst run.
  unfold Api.predict_annotated. rewrite Hdec, Hp. simpl.
  split; [reflexivity|]. unfold imwrite. simpl.
  destruct (Fs.write_file (tempname w) (w_clock w) (Picture (plot results))
              (Fs.write_file (tempname w) (w_clock w) (Bytes []) (w_fs w)).2)
    as [ok fs2] eqn:Hw.
  simpl. apply (f_equal snd) in Hw. simpl in Hw. subst fs2.
  split; [|split; [|reflexivity]].
  - apply write_file_lookup; rewrite write_file_is_dir; assumption.
  - intros q Hq. rewrite !write_file_other by exact Hq. reflexivity.
Qed.

End Responses.

Lemma predict_response_witness :
  exists m image results,
    Some Sample.detector = Some m
    /\ Api.imdecode Sample.decode [255%N] = Ok (Some image)
    /\ predict_image m image (1 # 4) (1 # 2) = Ok results
    /\ Forall2 (fun box d =>
                  names results !! box_cls box = Some (Api.class_name d)
                  /\ Api.confidence d = box_conf box
                  /\ Api.bbox d = box_xyxy box)
               (boxes results)
               [ {| Api.class_name := "helmet"; Api.confidence := 9 # 10;
                    Api.bbox := [0; 0; 1; 1]%Q |};
                 {| Api.class_name := "helmet"; Api.confidence := 9 # 10;
                    Api.bbox := [0; 0; 1; 1]%Q |} ].
Proof.
  destruct (predict_response Sample.decode (Some Sample.detector) [255%N]
              (1 # 4) (1 # 2) _ predict_responds)
    as (m & image & results & Hm & Hi & Hr & _ & _ & Hd & _).
  exists m, image, results. auto.
Defined.

Lemma predict_unknown_class_witness :
  Api.predict Sample.decode (Some Fixtures.confused_detector) [255%N]
    (1 # 4) (1 # 2)
  = Api.Unhandled (KeyError 7).
Proof.
  apply (predict_unknown_class Sample.decode Fixtures.confused_detector
           [255%N] (1 # 4) (1 # 2) Sample.frame _
           [Sample.helmet_box] [] Fixtures.unnamed_box
           eq_refl eq_refl eq_refl).
  - repeat constructor. vm_compute. eauto.
  - reflexivity.
Defined.

Lemma handlers_http_errors_witness :
  let w := Sample.world Fixtures.tmp_fs in
  let annotated :=
    Api.predict_annotated Sample.decode Sample.tempname
      (Some Sample.detector) [0%N] (1 # 4) (1 # 2) w in
  Api.predict Sample.decode (Some Sample.detector) [0%N] (1 # 4) (1 # 2)
  = Api.HTTPException 400 "Invalid image file"
  /\ annotated.2 = Api.HTTPException 400 "Invalid image file"
  /\ annotated.1 = w
  /\ Api.predict Sample.decode None [255%N] (1 # 4) (1 # 2)
     = Api.HTTPException 503 "Model not loaded"
  /\ ((Api.predict Sample.decode (Some Sample.detector) [] (1 # 4) (1 # 2)
       = Api.HTTPException 400 "Invalid image file")
      <-> False).
Proof.
  intros w annotated.
  pose proof (handlers_http_errors Sample.decode Sample.tempname
                (Some Sample.detector) [0%N] (1 # 4) (1 # 2) w
                400%nat "Invalid image file") as (Hp & Ha & Hw).
  split; [|split; [|split; [|split]]].
  - apply Hp. right. split; [discriminate|]. repeat split; reflexivity.
  - apply Ha. right. split; [discriminate|]. repeat split; reflexivity.
  - apply Hw. intros p. discriminate.
  - apply (proj1 (handlers_http_errors Sample.decode Sample.tempname
                    None [255%N] (1 # 4) (1 # 2) w
                    503%nat "Model not loaded")).
    left. repeat split; reflexivity.
  - rewrite (proj1 (handlers_http_errors Sample.decode Sample.tempname
                      (Some Sample.detector) [] (1 # 4) (1 # 2) w
                      400%nat "Invalid image file")).
    split; [|contradiction].
    intros [(H & _) | (_ & H & _)]; discriminate.
Defined.

Lemma predict_annotated_tempfile_witness :
  let w := Sample.world Fixtures.tmp_fs in
  let run :=
    Api.predict_annotated Sample.decode Sample.tempname
      (Some Sample.detector) [255%N] (1 # 4) (1 # 2) w in
  run.2 = Api.Respond ["tmp"; "tmp0.jpg"]
  /\ fs_files (w_fs run.1) !! ["tmp"; "tmp0.jpg"]
     = Some (mkFile 100 (Picture Sample.frame))
  /\ (forall q, q <> ["tmp"; "tmp0.jpg"] ->
        fs_files (w_fs run.1) !! q = fs_files (w_fs w) !! q)
  /\ w_trace run.1 = w_trace w.
Proof.
  apply (predict_annotated_tempfile Sample.decode Sample.tempname
           Sample.detector [255%N] (1 # 4) (1 # 2)
           (Sample.world Fixtures.tmp_fs) Sample.frame Sample.result
           eq_refl eq_refl eq_refl eq_refl).
Defined.

(** ** The loaded model *)

Section ServerState.

Variable dir_mtime : Path -> Z.
Variable YOLO : Path -> FS -> Result Model.
Variable codec_size : Data -> Z.
Variable dir_size : Path -> Z.
Variable decode : list N -> Result (option Image).
Variable tempname : World -> Path.

(** [load_model] never prints.  When it returns, the model it returns is
    the loaded one and [model_info] describes the path it was loaded from;
    when it raises, [model_info] is what it was, and the model is what it
    was too unless the weights loaded and only their size could not be
    read: then the new model is already in place, with the old
    [model_info]. *)
Theorem load_model_state (model_path : option Path) (w : World)
    (g : Server.Globals) :
  let run :=
    Server.load_model dir_mtime YOLO codec_size dir_size model_path w g in
  Server.stdout run.1 = Server.stdout g
  /\ match run.2 with
     | Ok m =>
         Server.model run.1 = Some m
         /\ exists p size,
              (model_path = Some p
               \/ (model_path = None
                   /\ Api.find_latest_model dir_mtime (w_fs w)
                      = Ok (Some p)))
              /\ YOLO p (w_fs w) = Ok m
              /\ Stat.stat_size codec_size dir_size (w_fs w) p = Ok size
              /\ Server.model_info run.1
                 = Some {| Server.info_model_path := Pathlib.str p;
                           Server.info_loaded_at := w_clock w;
                           Server.info_model_size :=
                             (inject_Z size / inject_Z (1024 * 1024))%Q |}
              /\ Server.health_model_path (Server.health_check run.1)
                 = Some (Pathlib.str p)
     | Raise e =>
         Server.model_info run.1 = Server.model_info g
         /\ (Server.model run.1 = Server.model g
             \/ exists p m,
                  YOLO p (w_fs w) = Ok m
                  /\ Server.model run.1 = Some m
                  /\ Stat.stat_size codec_size dir_size (w_fs w) p = Raise e)
     end.
Proof.
  intros run. subst run. unfold Server.load_model.
  destruct model_path as [p|].
  - destruct (YOLO p (w_fs w)) as [m|e] eqn:Hy; simpl; [|auto].
    destruct (Stat.stat_size codec_size dir_size (w_fs w) p) as [size|e]
      eqn:Hs; simpl.
    + split; [reflexivity|]. split; [reflexivity|].
      exists p, size. auto 10.
    + split; [reflexivity|]. split; [reflexivity|]. right. eauto.
  - destruct (Api.find_latest_model dir_mtime (w_fs w)) as [[p|]|e] eqn:Hf;
      simpl; [|auto..].
    destruct (YOLO p (w_fs w)) as [m|e] eqn:Hy; simpl; [|auto].
    destruct (Stat.stat_size codec_size dir_size (w_fs w) p) as [size|e]
      eqn:Hs; simpl.
    + split; [reflexivity|]. split; [reflexivity|].
      exists p, size. auto 10.
    + split; [reflexivity|]. split; [reflexivity|]. right. eauto.
Qed.

(** A server that starts while no trained model can be found starts all
    the same: [lifespan] prints the failure and returns, no model is
    loaded, the health check reports "unhealthy", and every prediction
    request is answered 503. *)
Theorem lifespan_without_model (w : World) :
  Api.find_latest_model dir_mtime (w_fs w) = Ok None ->
  let start :=
    Server.lifespan dir_mtime YOLO codec_size dir_size w Server.initial in
  start.2 = Ok tt
  /\ Server.model start.1 = None
  /\ Server.stdout start.1
     = [Server.ModelNotLoaded (FileNotFoundError "No trained model found.")]
  /\ Server.status (Server.health_check start.1) = "unhealthy"
  /\ Server.model_loaded (Server.health_check start.1) = false
  /\ forall contents conf iou w',
       Api.predict decode (Server.model start.1) contents conf iou
         = Api.HTTPException 503 "Model not loaded"
       /\ Api.predict_annotated decode tempname (Server.model start.1)
            contents conf iou w'
          = (w', Api.HTTPException 503 "Model not loaded").
Proof.
  intros Hnone start. subst start.
  unfold Server.lifespan, Server.load_model. rewrite Hnone. simpl.
  repeat split; reflexivity.
Qed.

(** [lifespan] lets no [Exception] escape, and after a start that loaded
    a model the health check reports "healthy" together with the path
    that was printed. *)
Theorem lifespan_outcome (w : World) (g : Server.Globals) :
  let start := Server.lifespan dir_mtime YOLO codec_size dir_size w g in
  (forall e, start.2 = Raise e -> is_Exception e = false)
  /\ (forall p,
        Server.stdout start.1 = Server.stdout g ++ [Server.ModelLoaded p] ->
        Server.status (Server.health_check start.1) = "healthy"
        /\ Server.model_loaded (Server.health_check start.1) = true
        /\ Server.health_model_path (Server.health_check start.1) = Some p).
Proof.
  intros start. subst start. unfold Server.lifespan, Server.load_model.
  assert (Hlast : forall (l : list Server.Line) x y,
            l ++ [x] = l ++ [y] -> x = y).
  { intros l x y H. apply app_inv_head in H. congruence. }
  assert (Hnil : forall (l : list Server.Line) y, l = l ++ [y] -> False).
  { intros l y H. apply (f_equal length) in H. rewrite length_app in H.
    simpl in H. lia. }
  destruct (Api.find_latest_model dir_mtime (w_fs w)) as [[p|]|e]; simpl.
  2:{ split; [discriminate|]. intros p Hp. apply Hlast in Hp. discriminate. }
  2:{ destruct (is_Exception e) eqn:He; simpl.
      - split; [discriminate|]. intros p Hp. apply Hlast in Hp. discriminate.
      - split; [intros e' [= <-]; exact He|].
        intros p Hp. exfalso. apply (Hnil _ _ Hp). }
  destruct (YOLO p (w_fs w)) as [m|e]; simpl.
  - destruct (Stat.stat_size codec_size dir_size (w_fs w) p) as [size|e];
      simpl.
    + split; [discriminate|]. intros p' Hp. apply Hlast in Hp.
      injection Hp as <-. auto.
    + destruct (is_Exception e) eqn:He; simpl.
      * split; [discriminate|]. intros p' Hp. apply Hlast in Hp.
        discriminate.
      * split; [intros e' [= <-]; exact He|].
        intros p' Hp. exfalso. apply (Hnil _ _ Hp).
  - destruct (is_Exception e) eqn:He; simpl.
    + split; [discriminate|]. intros p' Hp. apply Hlast in Hp. discriminate.
    + split; [intros e' [= <-]; exact He|].
      intros p' Hp. exfalso. apply (Hnil _ _ Hp).
Qed.

End ServerState.

Lemma lifespan_without_model_witness :
  let start :=
    Server.lifespan Sample.dir_mtime Sample.YOLO (fun _ => 0)
      (fun _ => 4096) (Sample.world Sample.photos_fs) Server.initial in
  start.2 = Ok tt
  /\ Server.model start.1 = None
  /\ Server.status (Server.health_check start.1) = "unhealthy".
Proof.
  destruct (lifespan_without_model Sample.dir_mtime Sample.YOLO (fun _ => 0)
              (fun _ => 4096) Sample.decode Sample.tempname
              (Sample.world Sample.photos_fs) eq_refl)
    as (H1 & H2 & _ & H3 & _).
  auto.
Defined.

Lemma lifespan_outcome_witness :
  let start :=
    Server.lifespan Sample.dir_mtime Sample.YOLO (fun _ => 0)
      (fun _ => 4096) (Sample.world Sample.models_fs) Server.initial in
  Server.stdout start.1
  = [Server.ModelLoaded "models/helmet_detector_best_b.pt"]
  /\ Server.status (Server.health_check start.1) = "healthy"
  /\ Server.model_loaded (Server.health_check start.1) = true
  /\ Server.health_model_path (Server.health_check start.1)
     = Some "models/helmet_detector_best_b.pt".
Proof.
  intros start. split; [reflexivity|].
  apply (proj2 (lifespan_outcome Sample.dir_mtime Sample.YOLO (fun _ => 0)
                  (fun _ => 4096)
                  (Sample.world Sample.models_fs) Server.initial)
           "models/helmet_detector_best_b.pt").
  reflexivity.
Defined.

(* ===================================================================== *)
(** * Properties of [Dataset.py] *)
(* ===================================================================== *)




(** What a successful [mkdir -p] does. *)
Lemma mkdir_p_effect (p : Path) (fs fs' : FS) :
  Fs.mkdir_p p fs = Ok fs' ->
  fs_files fs' = fs_files fs /\ keeps_dirs fs fs' /\ all_dirs [] p fs'
  /\ Fs.is_dir fs' p = true.
Proof.
  intros H. split; [apply (mkdir_from_files _ _ _ _ H)|].
  split; [intros q; apply (mkdir_from_mono _ _ _ _ _ H)|].
  split; [apply (mkdir_from_all_dirs _ _ _ _ H) | apply (mkdir_p_is_dir _ _ _ H)].
Qed.






Lemma mkdir_run {L} (p : Path) (st st' : Script.State L) (o : Script.Outcome unit) :
  Script.mkdir p st = (st', o) ->
  match o with
  | Script.Done _ =>
      Script.st_clock st' = Script.st_clock st
      /\ Script.st_out st' = Script.st_out st
      /\ fs_files (Script.st_fs st') = fs_files (Script.st_fs st)
      /\ keeps_dirs (Script.st_fs st) (Script.st_fs st')
      /\ Fs.is_dir (Script.st_fs st') p = true
  | Script.Failed _ => st' = st
  end.
Proof.
  unfold Script.mkdir.
  destruct (Fs.mkdir_p p (Script.st_fs st)) as [fs'|e] eqn:Hmk;
    intros [= <- <-]; [|reflexivity].
  destruct (mkdir_p_effect _ _ _ Hmk) as (Hf & Hk & _ & Hd). simpl. auto.
Qed.

Lemma create_file_run {L} (p : Path) (d : Data) (st st' : Script.State L) :
  Script.create_file p d st = (st', Script.Done tt) ->
  Script.st_clock st' = Script.st_clock st
  /\ Script.st_out st' = Script.st_out st
  /\ keeps_dirs (Script.st_fs st) (Script.st_fs st')
  /\ fs_files (Script.st_fs st') !! p = Some (mkFile (Script.st_clock st) d)
  /\ forall q, q <> p ->
       fs_files (Script.st_fs st') !! q = fs_files (Script.st_fs st) !! q.
Proof.
  unfold Script.create_file.
  destruct (Fs.is_dir (Script.st_fs st) p) eqn:Hp; [discriminate|].
  destruct (Fs.is_dir (Script.st_fs st) (Pathlib.parent p)) eqn:Hpar;
    [|discriminate].
  simpl. intros [= <-]. simpl. split; [reflexivity|]. split; [reflexivity|].
  split; [intros q; rewrite write_file_is_dir; auto|].
  split; [apply write_file_lookup; assumption|].
  intros q Hq. apply write_file_other, Hq.
Qed.

Lemma exists_dir (fs : FS) (p : Path) :
  Fs.is_dir fs p = true -> Fs.exists_ fs p = true.
Proof. unfold Fs.exists_. intros ->. reflexivity. Qed.

Lemma exists_file (fs : FS) (p : Path) (f : File) :
  fs_files fs !! p = Some f -> Fs.exists_ fs p = true.
Proof.
  unfold Fs.exists_, Fs.is_file. intros ->.
  rewrite bool_decide_eq_true_2 by eauto. apply orb_true_r.
Qed.

(** When every required path exists, the check prints nothing and keeps
    its flag. *)
Lemma check_required_all (paths : list Path) (flag : bool)
    (st : Script.State Dataset.Line) :
  Forall (fun p => Fs.exists_ (Script.st_fs st) p = true) paths ->
  Dataset.check_required paths flag st = (st, Script.Done flag).
Proof.
  induction paths as [|p paths IH]; intros Hall; [reflexivity|].
  apply Forall_cons_1 in Hall as [Hp Hall]. simpl. rewrite Hp. simpl.
  apply IH, Hall.
Qed.

Ltac step_mkdir H :=
  match type of H with
  | context [Script.mkdir ?p ?s] =>
      is_var s;
      let s1 := fresh "s" in
      let o := fresh "o" in
      let Hm := fresh "Hm" in
      destruct (Script.mkdir p s) as [s1 o] eqn:Hm;
      apply mkdir_run in Hm;
      destruct o as [[]|?]; [|discriminate H];
      destruct Hm as (? & ? & ? & ? & ?)
  end.

(** After [create_sample_structure] has succeeded, [verify_dataset] finds
    the whole structure: it prints no "Missing" line and never "Dataset
    structure incomplete"; its answer depends on the images alone, and is
    true exactly when both [train/images] and [valid/images] list an entry
    matching [*.*]. *)
Theorem create_then_verify (st st1 : Script.State Dataset.Line) :
  Dataset.create_sample_structure st = (st1, Script.Done tt) ->
  let ready :=
    (0 <? Dataset.count_images (Script.st_fs st1) "train")%nat
    && (0 <? Dataset.count_images (Script.st_fs st1) "valid")%nat in
  Dataset.verify_dataset st1
  = ({| Script.st_fs := Script.st_fs st1;
        Script.st_clock := Script.st_clock st1;
        Script.st_out :=
          Script.st_out st1
          ++ [if ready then Dataset.Ready else Dataset.ImagesMissing] |},
     Script.Done ready)
  /\ exists t,
       fs_files (Script.st_fs st1) !! ["data"; "raw"; "data.yaml"]
       = Some (mkFile t
                 (Bytes (Script.bytes_of_string Dataset.yaml_content))).
Proof.
  intros Hrun ready.
  unfold Dataset.create_sample_structure in Hrun.
  cbn [Script.for_each] in Hrun.
  unfold mbind, Script.T_bind, Script.bind in Hrun.
  do 6 step_mkdir Hrun.
  simpl in Hrun.
  match type of Hrun with
  | context [Script.write_text ?p ?t ?s] =>
      destruct (Script.write_text p t s) as [s6 [[]|?]] eqn:Hw;
        [|discriminate Hrun]
  end.
  unfold Script.write_text in Hw. apply create_file_run in Hw
    as (Hc & Ho & Hk & Hfile & _).
  injection Hrun as <-.
  assert (Hall : Forall (fun p => Fs.exists_ (Script.st_fs s6) p = true)
                   Dataset.required_paths).
  { unfold Dataset.required_paths.
    repeat constructor;
      solve [ apply exists_dir; unfold keeps_dirs in *; auto 10
            | apply (exists_file _ _ _ Hfile) ]. }
  split; [|eexists; exact Hfile].
  unfold Dataset.verify_dataset, mbind, Script.T_bind, Script.bind.
  rewrite check_required_all by exact Hall.
  subst ready. simpl.
  destruct ((0 <? Dataset.count_images (Script.st_fs s6) "train")%nat
            && (0 <? Dataset.count_images (Script.st_fs s6) "valid")%nat);
    reflexivity.
Qed.

Lemma create_then_verify_witness :
  let st0 : Script.State Dataset.Line :=
    {| Script.st_fs := Sample.empty_fs; Script.st_clock := 3;
       Script.st_out := [] |} in
  let st1 := (Dataset.create_sample_structure st0).1 in
  (Dataset.create_sample_structure st0).2 = Script.Done tt
  /\ (Dataset.verify_dataset st1).2 = Script.Done false
  /\ Script.st_out (Dataset.verify_dataset st1).1
     = [Dataset.SampleCreated; Dataset.ImagesMissing].
Proof.
  intros st0 st1. split; [vm_compute; reflexivity|].
  destruct (create_then_verify st0 st1) as [Hv _].
  - vm_compute. reflexivity.
  - rewrite Hv. split; vm_compute; reflexivity.
Defined.

(* ===================================================================== *)
(** * Properties of [Training.py] *)
(* ===================================================================== *)

Lemma elem_of_add_entry (n m : string) (entries : list string) :
  m ∈ Fs.add_entry n entries <-> m = n \/ m ∈ entries.
Proof.
  unfold Fs.add_entry. case_bool_decide as Hin.
  - split; [auto | intros [-> | H]; auto].
  - rewrite elem_of_app, list_elem_of_singleton. tauto.
Qed.

(** The listing of a directory after a file was written into it. *)
Lemma listdir_write_file (d : Path) (n : string) (now : Z) (data : Data)
    (fs : FS) :
  Fs.is_dir fs d = true -> d <> [] ->
  Fs.is_dir fs (Pathlib.child d n) = false ->
  Fs.listdir (Fs.write_file (Pathlib.child d n) now data fs).2 d
  = Fs.add_entry n (Fs.listdir fs d).
Proof.
  intros Hd Hne Hp. unfold Fs.write_file.
  rewrite parent_child, Hd, Hp. simpl.
  unfold Fs.listdir, Fs.link. simpl.
  rewrite parent_child, name_child_last, lookup_alter, decide_True
    by reflexivity.
  apply is_dir_true in Hd as [Hd | [l Hl]]; [contradiction|].
  rewrite Hl. reflexivity.
Qed.

(** Writing a file changes the modification time of no other path. *)
Lemma getmtime_write_other (dir_mtime : Path -> Z) (p q : Path) (now : Z)
    (d : Data) (fs : FS) :
  q <> p ->
  Fs.getmtime dir_mtime (Fs.write_file p now d fs).2 q
  = Fs.getmtime dir_mtime fs q.
Proof.
  intros Hne. unfold Fs.getmtime.
  rewrite write_file_other by exact Hne. rewrite write_file_is_dir.
  reflexivity.
Qed.

Section TrainingProps.

Variable R : Type.
Variable YOLO : Path -> FS -> Result Model.
Variable strftime : Z -> string.
Variable train :
  Model -> Training.TrainCall -> FS * Z -> (FS * Z) * Result R.
Variable dir_mtime : Path -> Z.

(** When training leaves a [best.pt] and [models] is a directory,
    [train_model] copies it to [models/helmet_detector_best_<time>.pt],
    prints where, and returns; the copy is a candidate of
    [find_latest_model], which from then on no longer answers [None]: when
    every other matching entry of [models] exists, it returns an entry at
    least as recent as the copy, and the copy itself when every other
    matching entry is older.  (The copy is written into [models] itself, so
    a directory among the other entries keeps the time it had.) *)
Theorem trained_model_is_found (model_size : string)
    (epochs batch_size img_size : Z) (device : string) (pretrained : bool)
    (st : Script.State Training.Line) (model : Model) (fs2 : FS) (now2 : Z)
    (results : R) (f : File) :
  let model_name :=
    if pretrained then "yolov8" +:+ model_size +:+ ".pt"
    else "yolov8" +:+ model_size +:+ ".yaml" in
  let timestamp := strftime (Script.st_clock st) in
  let run_name := "helmet_detection_" +:+ timestamp in
  let best : Path := ["runs"; "detect"; run_name; "weights"; "best.pt"] in
  let final : Path :=
    ["models"; "helmet_detector_best_" +:+ timestamp +:+ ".pt"] in
  let pattern := "helmet_detector_best_*.pt" in
  YOLO [model_name] (Script.st_fs st) = Ok model ->
  train model
    {| Training.tc_data := "data/raw/data.yaml";
       Training.tc_epochs := epochs; Training.tc_imgsz := img_size;
       Training.tc_batch := batch_size; Training.tc_device := device;
       Training.tc_project := "runs/detect"; Training.tc_name := run_name |}
    (Script.st_fs st, Script.st_clock st) = ((fs2, now2), Ok results) ->
  fs_files fs2 !! best = Some f ->
  Fs.is_dir fs2 ["models"] = true ->
  Fs.is_dir fs2 final = false ->
  exists fs',
    Training.train_model R YOLO strftime train model_size epochs batch_size
      img_size device pretrained st
    = ({| Script.st_fs := fs'; Script.st_clock := now2;
          Script.st_out :=
            Script.st_out st
            ++ [Training.TrainingStarted; Training.TrainingCompleted;
                Training.BestModelSaved final] |},
       Script.Done (results, run_name))
    /\ fs_files fs' !! final = Some (mkFile now2 (f_data f))
    /\ final ∈ Fs.glob fs' ["models"] pattern
    /\ Api.find_latest_model dir_mtime fs' <> Ok None
    /\ ((forall q, q ∈ Fs.glob fs2 ["models"] pattern -> q <> final ->
                   Fs.exists_ fs2 q = true) ->
        exists p t,
          Api.find_latest_model dir_mtime fs' = Ok (Some p)
          /\ (forall w, w_fs w = fs' ->
                 Inference.find_latest_model dir_mtime w = (w, Ok p))
          /\ Fs.getmtime dir_mtime fs' p = Ok t
          /\ now2 <= t
          /\ ((forall q, q ∈ Fs.glob fs2 ["models"] pattern -> q <> final ->
                         older (Fs.getmtime dir_mtime fs2) now2 q) ->
              p = final)).
Proof.
  intros model_name timestamp run_name best final pattern
    Hyolo Htrain Hbest Hmodels Hfinal.
  set (name := "helmet_detector_best_" +:+ timestamp +:+ ".pt").
  assert (Hchild : final = Pathlib.child ["models"] name) by reflexivity.
  set (fs' := (Fs.write_file final now2 (f_data f) fs2).2).
  exists fs'.
  assert (Hfile : fs_files fs' !! final = Some (mkFile now2 (f_data f))).
  { apply write_file_lookup; [rewrite Hchild, parent_child|]; assumption. }
  assert (Hlist : Fs.listdir fs' ["models"]
                  = Fs.add_entry name (Fs.listdir fs2 ["models"])).
  { subst fs'. rewrite Hchild. apply listdir_write_file;
      [assumption | discriminate | rewrite <- Hchild; assumption]. }
  assert (Hin : final ∈ Fs.glob fs' ["models"] pattern).
  { unfold Fs.glob. rewrite Hchild. apply list_elem_of_fmap_2.
    apply list_elem_of_filter. split.
    - apply fnmatch_model_pattern. exists timestamp. reflexivity.
    - rewrite Hlist. apply elem_of_add_entry. auto. }
  assert (Hold : forall q, q ∈ Fs.glob fs' ["models"] pattern -> q <> final ->
                           q ∈ Fs.glob fs2 ["models"] pattern).
  { intros q Hq Hne. unfold Fs.glob in Hq.
    apply list_elem_of_fmap in Hq as (n & Hqn & Hn).
    apply list_elem_of_filter in Hn as [Hm Hn].
    rewrite Hlist in Hn. apply elem_of_add_entry in Hn as [-> | Hn].
    - exfalso. apply Hne. rewrite Hqn. reflexivity.
    - unfold Fs.glob. rewrite Hqn. apply list_elem_of_fmap_2.
      apply list_elem_of_filter. auto. }
  assert (Hmt : Fs.getmtime dir_mtime fs' final = Ok now2).
  { unfold Fs.getmtime. rewrite Hfile. reflexivity. }
  assert (Hex : Fs.exists_ fs' ["models"] = true).
  { apply exists_dir. subst fs'. rewrite write_file_is_dir. exact Hmodels. }
  split; [|split; [exact Hfile|split; [exact Hin|split]]].
  - unfold Training.train_model. fold model_name. rewrite Hyolo.
    unfold mbind, Script.T_bind, Script.bind, Script.say at 1.
    unfold Training.run_train. cbn [Script.st_fs Script.st_clock].
    fold timestamp. fold run_name. rewrite Htrain.
    cbn [Script.say Script.st_fs Script.st_clock Script.st_out].
    fold best. fold name. change ["models"; name] with final.
    rewrite (exists_file _ _ _ Hbest).
    unfold Script.copy. cbn [Script.st_fs]. rewrite Hfinal.
    rewrite bool_decide_eq_false_2 by discriminate. rewrite Hbest.
    unfold mbind, Script.T_bind, Script.bind, Script.create_file.
    cbn [Script.st_fs Script.st_clock]. rewrite Hfinal.
    rewrite Hchild at 1. rewrite parent_child, Hmodels.
    cbn. rewrite <- !app_assoc. reflexivity.
  - unfold Api.find_latest_model. rewrite Hex. cbn [negb]. fold pattern.
    destruct (Fs.glob fs' ["models"] pattern) as [|c rest];
      [inversion Hin|].
    destruct (Inference.max_by _ c rest); discriminate.
  - intros Hthere. unfold Api.find_latest_model.
    rewrite Hex. cbn [negb]. fold pattern.
    destruct (Fs.glob fs' ["models"] pattern) as [|c rest] eqn:Hglob;
      [inversion Hin|].
    pose proof (max_by_spec (Fs.getmtime dir_mtime fs') c rest) as Hmax.
    destruct (Inference.max_by (Fs.getmtime dir_mtime fs') c rest) as [p|e]
      eqn:Hlatest.
    + destruct Hmax as (before & after & t & Hsplit & Hp & Hb & Ha).
      exists p, t. split; [reflexivity|].
      split.
      { intros w0 Hw0. apply find_latest_model_agree. rewrite Hw0.
        unfold Api.find_latest_model. rewrite Hex. cbn [negb]. fold pattern.
        rewrite Hglob, Hlatest. reflexivity. }
      split; [exact Hp|].
      assert (Hge : now2 <= t).
      { rewrite Hsplit in Hin. apply elem_of_app in Hin as [Hin|Hin].
        - rewrite Forall_forall in Hb.
          destruct (Hb final Hin) as (s & Hs & Hlt).
          rewrite Hmt in Hs. injection Hs as <-. lia.
        - apply elem_of_cons in Hin as [<- | Hin].
          + rewrite Hmt in Hp. injection Hp as <-. lia.
          + rewrite Forall_forall in Ha.
            destruct (Ha final Hin) as (s & Hs & Hle).
            rewrite Hmt in Hs. injection Hs as <-. lia. }
      split; [exact Hge|]. intros Holder.
      destruct (decide (p = final)) as [Heq|Hne]; [exact Heq|]. exfalso.
      assert (Hq : p ∈ Fs.glob fs2 ["models"] pattern).
      { apply Hold; [|exact Hne]. rewrite Hsplit.
        apply elem_of_app. right. apply list_elem_of_here. }
      destruct (Holder p Hq Hne) as (s & Hs & Hlt).
      subst fs'. rewrite getmtime_write_other in Hp by exact Hne.
      rewrite Hs in Hp. injection Hp as <-. lia.
    + exfalso. destruct Hmax as (pre & y & post & Hsplit & _ & Hy).
      assert (Hyin : y ∈ c :: rest).
      { rewrite Hsplit. apply elem_of_app. right. apply list_elem_of_here. }
      destruct (decide (y = final)) as [->|Hne]; [congruence|].
      pose proof (getmtime_exists dir_mtime fs2 y) as Hst.
      rewrite (Hthere y (Hold y Hyin Hne) Hne) in Hst.
      destruct Hst as [s Hs].
      subst fs'. rewrite getmtime_write_other in Hy by exact Hne.
      congruence.
Qed.

End TrainingProps.

Lemma trained_model_is_found_witness :
  let st : Script.State Training.Line :=
    {| Script.st_fs := Sample.empty_fs; Script.st_clock := 0;
       Script.st_out := [] |} in
  let final := ["models"; "helmet_detector_best_20240101_120000.pt"] in
  exists fs',
    Training.train_model unit Fixtures.load_any Fixtures.strftime
      Fixtures.train "n" 100 16 640 "cpu" true st
    = ({| Script.st_fs := fs'; Script.st_clock := 60;
          Script.st_out :=
            [Training.TrainingStarted; Training.TrainingCompleted;
             Training.BestModelSaved final] |},
       Script.Done (tt, "helmet_detection_20240101_120000"))
    /\ fs_files fs' !! final = Some (mkFile 60 (Bytes []))
    /\ Api.find_latest_model Sample.dir_mtime fs' = Ok (Some final).
Proof.
  intros st final.
  assert (Hglob : Fs.glob Fixtures.trained_fs ["models"]
                    "helmet_detector_best_*.pt"
                  = [["models"; "helmet_detector_best_old.pt"]])
    by (vm_compute; reflexivity).
  destruct (trained_model_is_found unit Fixtures.load_any Fixtures.strftime
              Fixtures.train Sample.dir_mtime "n" 100 16 640 "cpu" true st
              Sample.detector Fixtures.trained_fs 60 tt (Sample.weights 50)
              eq_refl eq_refl eq_refl eq_refl eq_refl)
    as (fs' & Hrun & Hfile & _ & _ & Hfound).
  exists fs'. split; [exact Hrun|]. split; [exact Hfile|].
  destruct Hfound as (p & t & Hp & _ & _ & _ & Hnew).
  - intros q Hq _. rewrite Hglob in Hq.
    apply list_elem_of_singleton in Hq as ->. reflexivity.
  - rewrite Hp. do 2 f_equal. apply Hnew. intros q Hq _.
    rewrite Hglob in Hq. apply list_elem_of_singleton in Hq as ->.
    exists 10. split; [reflexivity | lia].
Defined.

(* ===================================================================== *)
(** * Properties of [Preprocess.py] *)
(* ===================================================================== *)

Lemma is_Some_unlist (p q : Path) (dirs : gmap Path (list string)) :
  is_Some (Script.unlist p dirs !! q) <-> is_Some (dirs !! q).
Proof.
  unfold Script.unlist. rewrite lookup_alter. case_decide; [subst|reflexivity].
  rewrite fmap_is_Some. reflexivity.
Qed.

(** A successful [unlink] deletes the file, if there is one, and nothing
    else; no directory comes or goes. *)
Lemma unlink_run {L} (p : Path) (st st' : Script.State L) :
  Script.unlink p st = (st', Script.Done tt) ->
  Script.st_clock st' = Script.st_clock st
  /\ Script.st_out st' = Script.st_out st
  /\ (forall q, Fs.is_dir (Script.st_fs st') q = Fs.is_dir (Script.st_fs st) q)
  /\ fs_files (Script.st_fs st') = delete p (fs_files (Script.st_fs st)).
Proof.
  unfold Script.unlink.
  destruct (Fs.is_dir (Script.st_fs st) p); [discriminate|].
  destruct (fs_files (Script.st_fs st) !! p) as [f|] eqn:Hp;
    intros [= <-]; simpl.
  - split; [reflexivity|]. split; [reflexivity|]. split; [|reflexivity].
    intros q. unfold Fs.is_dir. simpl. f_equal.
    apply bool_decide_ext, is_Some_unlist.
  - rewrite delete_id by exact Hp. auto.
Qed.

Ltac step_unlink H :=
  match type of H with
  | context [Script.unlink ?p ?s] =>
      is_var s;
      let s1 := fresh "s" in
      let o := fresh "o" in
      let Hu := fresh "Hu" in
      destruct (Script.unlink p s) as [s1 o] eqn:Hu;
      destruct o as [[]|?]; [|discriminate H];
      apply unlink_run in Hu;
      destruct Hu as (? & ? & ? & ?)
  end.

Section Cleaning.

Variable verifies : Data -> bool.
Variable codec_size : Data -> Z.
Variable dir_size : Path -> Z.

Abbreviation clean_loop := (Preprocess.clean_loop verifies codec_size dir_size).
Abbreviation is_image_corrupt := (Preprocess.is_image_corrupt verifies).
Abbreviation label_empty := (Preprocess.label_empty codec_size dir_size).

(** What the three tests of the loop see of the file system. *)
Lemma tests_ext (fs fs' : FS) (p : Path) :
  (forall q, Fs.is_dir fs' q = Fs.is_dir fs q) ->
  fs_files fs' !! p = fs_files fs !! p ->
  is_image_corrupt fs' p = is_image_corrupt fs p
  /\ Fs.exists_ fs' p = Fs.exists_ fs p
  /\ label_empty fs' p = label_empty fs p.
Proof.
  intros Hd Hp.
  unfold Preprocess.is_image_corrupt, Fs.exists_, Fs.is_file,
    Preprocess.label_empty, Stat.stat_size.
  rewrite Hd, Hp. auto.
Qed.

(** The loop only deletes, and only images of its list and their labels. *)
Lemma clean_loop_footprint (label_dir : Path) (images : list Path)
    (t t' : Preprocess.Tally) (st st' : Script.State Preprocess.Line) :
  clean_loop label_dir images t st = (st', Script.Done t') ->
  Script.st_clock st' = Script.st_clock st
  /\ Script.st_out st' = Script.st_out st
  /\ (forall q, Fs.is_dir (Script.st_fs st') q = Fs.is_dir (Script.st_fs st) q)
  /\ (forall q, (q ∉ images) -> (q ∉ (label_of label_dir <$> images)) ->
        fs_files (Script.st_fs st') !! q = fs_files (Script.st_fs st) !! q)
  /\ (forall q, fs_files (Script.st_fs st) !! q = None ->
        fs_files (Script.st_fs st') !! q = None).
Proof.
  revert t st. induction images as [|img rest IH]; intros t st Hrun.
  - injection Hrun as <- <-. auto.
  - cbn [Preprocess.clean_loop] in Hrun.
    fold (label_of label_dir img) in Hrun.
    unfold mbind, Script.T_bind, Script.bind in Hrun.
    assert (Hnot : forall q : Path,
              (q ∉ (img :: rest)) ->
              (q ∉ (label_of label_dir <$> (img :: rest))) ->
              q <> img /\ q <> label_of label_dir img
              /\ (q ∉ rest) /\ (q ∉ (label_of label_dir <$> rest))).
    { intros q Hq1 Hq2. rewrite not_elem_of_cons in Hq1.
      rewrite fmap_cons, not_elem_of_cons in Hq2. tauto. }
    destruct (is_image_corrupt (Script.st_fs st) img);
      [|destruct (negb (Fs.exists_ (Script.st_fs st) (label_of label_dir img)));
        [|destruct (label_empty (Script.st_fs st) (label_of label_dir img))]].
    + do 2 step_unlink Hrun.
      apply IH in Hrun as (Hc & Ho & Hd & Hk & Hn).
      split; [congruence|]. split; [congruence|].
      split; [intros q; rewrite Hd; congruence|]. split.
      * intros q Hq1 Hq2. destruct (Hnot q Hq1 Hq2) as (Ha & Hb & Hr1 & Hr2).
        rewrite (Hk q Hr1 Hr2).
        repeat match goal with
               | H : fs_files _ = delete _ _ |- _ => rewrite H; clear H
               end.
        rewrite !lookup_delete_ne by auto. reflexivity.
      * intros q Hq. apply Hn.
        repeat match goal with
               | H : fs_files _ = delete _ _ |- _ => rewrite H; clear H
               end.
        rewrite !lookup_delete_None. auto.
    + step_unlink Hrun.
      apply IH in Hrun as (Hc & Ho & Hd & Hk & Hn).
      split; [congruence|]. split; [congruence|].
      split; [intros q; rewrite Hd; congruence|]. split.
      * intros q Hq1 Hq2. destruct (Hnot q Hq1 Hq2) as (Ha & Hb & Hr1 & Hr2).
        rewrite (Hk q Hr1 Hr2).
        repeat match goal with
               | H : fs_files _ = delete _ _ |- _ => rewrite H; clear H
               end.
        rewrite !lookup_delete_ne by auto. reflexivity.
      * intros q Hq. apply Hn.
        repeat match goal with
               | H : fs_files _ = delete _ _ |- _ => rewrite H; clear H
               end.
        rewrite !lookup_delete_None. auto.
    + do 2 step_unlink Hrun.
      apply IH in Hrun as (Hc & Ho & Hd & Hk & Hn).
      split; [congruence|]. split; [congruence|].
      split; [intros q; rewrite Hd; congruence|]. split.
      * intros q Hq1 Hq2. destruct (Hnot q Hq1 Hq2) as (Ha & Hb & Hr1 & Hr2).
        rewrite (Hk q Hr1 Hr2).
        repeat match goal with
               | H : fs_files _ = delete _ _ |- _ => rewrite H; clear H
               end.
        rewrite !lookup_delete_ne by auto. reflexivity.
      * intros q Hq. apply Hn.
        repeat match goal with
               | H : fs_files _ = delete _ _ |- _ => rewrite H; clear H
               end.
        rewrite !lookup_delete_None. auto.
    + apply IH in Hrun as (Hc & Ho & Hd & Hk & Hn).
      split; [exact Hc|]. split; [exact Ho|]. split; [exact Hd|].
      split; [|exact Hn].
      intros q Hq1 Hq2. destruct (Hnot q Hq1 Hq2) as (_ & _ & Hr1 & Hr2). auto.
Qed.

Lemma child_dir_ne (d1 d2 : Path) (a b : string) :
  d1 <> d2 -> Pathlib.child d1 a <> Pathlib.child d2 b.
Proof.
  unfold Pathlib.child. intros Hne Heq. apply app_inj_tail in Heq as [? _].
  auto.
Qed.

Lemma label_of_inj (label_dir p q : Path) :
  label_of label_dir p = label_of label_dir q ->
  Pathlib.stem p = Pathlib.stem q.
Proof.
  unfold label_of. intros H. apply (inj (Pathlib.child label_dir)) in H.
  apply append_inv_r in H. exact H.
Qed.

Lemma is_file_false (fs : FS) (p : Path) :
  fs_files fs !! p = None -> Fs.is_file fs p = false.
Proof.
  unfold Fs.is_file. intros ->. apply bool_decide_eq_false_2.
  intros [x Hx]. discriminate.
Qed.

(** The images of the list keep clear of one another when their stems
    differ and the labels live in another directory. *)
Lemma images_apart (image_dir label_dir img : Path) (rest : list Path) :
  image_dir <> label_dir ->
  Forall (fun p => exists n, p = Pathlib.child image_dir n) (img :: rest) ->
  NoDup (Pathlib.stem <$> (img :: rest)) ->
  (img ∉ rest)
  /\ (img ∉ (label_of label_dir <$> rest))
  /\ (label_of label_dir img ∉ rest)
  /\ (label_of label_dir img ∉ (label_of label_dir <$> rest))
  /\ img <> label_of label_dir img.
Proof.
  intros Hdirs Hch Hnd. apply Forall_cons_1 in Hch as [[n ->] Hch].
  rewrite fmap_cons in Hnd. apply NoDup_cons in Hnd as [Hstem _].
  rewrite Forall_forall in Hch.
  split; [|split; [|split; [|split]]].
  - intros Hin. apply Hstem. apply list_elem_of_fmap_2, Hin.
  - intros Hin. apply list_elem_of_fmap in Hin as (r & Heq & _).
    unfold label_of in Heq. apply (child_dir_ne _ _ _ _ Hdirs Heq).
  - intros Hin. destruct (Hch _ Hin) as [m Hm]. unfold label_of in Hm.
    symmetry in Hm. apply (child_dir_ne _ _ _ _ Hdirs Hm).
  - intros Hin. apply list_elem_of_fmap in Hin as (r & Heq & Hr).
    apply label_of_inj in Heq. apply Hstem. rewrite Heq.
    apply list_elem_of_fmap_2, Hr.
  - unfold label_of. apply child_dir_ne, Hdirs.
Qed.

Abbreviation cleaned_ := (cleaned verifies codec_size dir_size).

(** After an image was unlinked, what the loop does with the others is
    judged against the file system before the unlinking. *)
Lemma cleaned_after_unlinks (label_dir img : Path) (rest : list Path)
    (fs fs1 fs' : FS) :
  img ∉ rest ->
  label_of label_dir img ∉ rest ->
  fs_files fs1 !! img = None ->
  (forall q, q <> img -> q <> label_of label_dir img ->
     fs_files fs1 !! q = fs_files fs !! q) ->
  (forall q, fs_files fs1 !! q = None -> fs_files fs' !! q = None) ->
  Forall (cleaned_ label_dir fs1 fs') rest ->
  Forall (cleaned_ label_dir fs fs') (img :: rest).
Proof.
  intros Hi Hl Hgone Hsame Hdel Hrest. constructor.
  - left. apply Hdel, Hgone.
  - rewrite Forall_forall in Hrest |- *. intros r Hr.
    destruct (Hrest r Hr) as [Hnone | (Heq & Hgood)]; [left; exact Hnone|].
    right. split; [|exact Hgood]. rewrite Heq. apply Hsame.
    + intros ->. contradiction.
    + intros ->. contradiction.
Qed.

Lemma clean_loop_post (image_dir label_dir : Path) (images : list Path)
    (t t' : Preprocess.Tally) (st st' : Script.State Preprocess.Line) :
  image_dir <> label_dir ->
  Forall (fun p => exists n, p = Pathlib.child image_dir n) images ->
  NoDup (Pathlib.stem <$> images) ->
  clean_loop label_dir images t st = (st', Script.Done t') ->
  Forall (cleaned_ label_dir (Script.st_fs st) (Script.st_fs st')) images
  /\ removed t'
     = (removed t
        + length (filter (fun img => Fs.is_file (Script.st_fs st') img = false)
                         images))%nat.
Proof.
  intros Hdirs. revert t st.
  induction images as [|img rest IH]; intros t st Hch Hnd Hrun.
  - injection Hrun as <- <-. split; [constructor | simpl; lia].
  - destruct (images_apart _ _ _ _ Hdirs Hch Hnd)
      as (Hi1 & Hi2 & Hl1 & Hl2 & Hil).
    pose proof Hch as Hch'. apply Forall_cons_1 in Hch' as [_ Hch'].
    pose proof Hnd as Hnd'. rewrite fmap_cons in Hnd'.
    apply NoDup_cons in Hnd' as [_ Hnd'].
    cbn [Preprocess.clean_loop] in Hrun.
    fold (label_of label_dir img) in Hrun.
    unfold mbind, Script.T_bind, Script.bind in Hrun.
    destruct (is_image_corrupt (Script.st_fs st) img) eqn:Hcorrupt;
      [|destruct (Fs.exists_ (Script.st_fs st) (label_of label_dir img))
          eqn:Hexists; cbn [negb] in Hrun;
        [destruct (label_empty (Script.st_fs st) (label_of label_dir img))
           eqn:Hempty|]].
    + (* corrupt: image and label are unlinked *)
      do 2 step_unlink Hrun.
      pose proof (clean_loop_footprint _ _ _ _ _ _ Hrun)
        as (_ & _ & _ & _ & Hdel).
      apply IH in Hrun as [Hrest Hcount]; [|assumption..].
      assert (Hgone : fs_files (Script.st_fs s0) !! img = None).
      { repeat match goal with
               | H : fs_files _ = delete _ _ |- _ => rewrite H; clear H
               end.
        rewrite lookup_delete_None. right. apply lookup_delete_eq. }
      split.
      * apply (cleaned_after_unlinks label_dir img rest _ (Script.st_fs s0));
          try assumption.
        intros q Hq1 Hq2.
        repeat match goal with
               | H : fs_files _ = delete _ _ |- _ => rewrite H; clear H
               end.
        rewrite !lookup_delete_ne by auto. reflexivity.
      * rewrite Hcount, filter_cons_True
          by (apply is_file_false, Hdel, Hgone).
        unfold removed. simpl. lia.
    + (* empty label: image and label are unlinked *)
      do 2 step_unlink Hrun.
      pose proof (clean_loop_footprint _ _ _ _ _ _ Hrun)
        as (_ & _ & _ & _ & Hdel).
      apply IH in Hrun as [Hrest Hcount]; [|assumption..].
      assert (Hgone : fs_files (Script.st_fs s0) !! img = None).
      { repeat match goal with
               | H : fs_files _ = delete _ _ |- _ => rewrite H; clear H
               end.
        rewrite lookup_delete_None. right. apply lookup_delete_eq. }
      split.
      * apply (cleaned_after_unlinks label_dir img rest _ (Script.st_fs s0));
          try assumption.
        intros q Hq1 Hq2.
        repeat match goal with
               | H : fs_files _ = delete _ _ |- _ => rewrite H; clear H
               end.
        rewrite !lookup_delete_ne by auto. reflexivity.
      * rewrite Hcount, filter_cons_True
          by (apply is_file_false, Hdel, Hgone).
        unfold removed. simpl. lia.
    + (* kept *)
      pose proof (clean_loop_footprint _ _ _ _ _ _ Hrun)
        as (_ & _ & Hd & Hk & _).
      apply IH in Hrun as [Hrest Hcount]; [|assumption..].
      pose proof (Hk img Hi1 Hi2) as Himg.
      pose proof (Hk (label_of label_dir img) Hl1 Hl2) as Hlabel.
      destruct (tests_ext _ _ img Hd Himg) as (Hc' & _ & _).
      destruct (tests_ext _ _ (label_of label_dir img) Hd Hlabel)
        as (_ & He' & Hm').
      split.
      * constructor; [|exact Hrest]. right.
        split; [exact Himg|]. split; [congruence|].
        split; congruence.
      * rewrite Hcount, filter_cons_False; [reflexivity|].
        unfold Preprocess.is_image_corrupt in Hcorrupt.
        destruct (Fs.is_dir (Script.st_fs st) img); [discriminate|].
        unfold Fs.is_file. rewrite Himg.
        destruct (fs_files (Script.st_fs st) !! img); [|discriminate].
        rewrite bool_decide_eq_true_2 by eauto. discriminate.
    + (* no label: the image is unlinked *)
      step_unlink Hrun.
      pose proof (clean_loop_footprint _ _ _ _ _ _ Hrun)
        as (_ & _ & _ & _ & Hdel).
      apply IH in Hrun as [Hrest Hcount]; [|assumption..].
      assert (Hgone : fs_files (Script.st_fs s) !! img = None).
      { repeat match goal with
               | H : fs_files _ = delete _ _ |- _ => rewrite H; clear H
               end.
        apply lookup_delete_eq. }
      split.
      * apply (cleaned_after_unlinks label_dir img rest _ (Script.st_fs s));
          try assumption.
        intros q Hq1 Hq2.
        repeat match goal with
               | H : fs_files _ = delete _ _ |- _ => rewrite H; clear H
               end.
        rewrite !lookup_delete_ne by auto. reflexivity.
      * rewrite Hcount, filter_cons_True
          by (apply is_file_false, Hdel, Hgone).
        unfold removed. simpl. lia.
Qed.

Lemma image_label_dirs_differ (split : string) :
  Preprocess.image_dir split <> Preprocess.label_dir split.
Proof.
  unfold Preprocess.image_dir, Preprocess.label_dir, Pathlib.child.
  intros H. apply app_inj_tail in H as [_ H]. discriminate.
Qed.

Lemma glob_children (fs : FS) (d : Path) (pat : string) :
  Forall (fun p => exists n, p = Pathlib.child d n) (Fs.glob fs d pat).
Proof.
  unfold Fs.glob. apply Forall_forall. intros p Hp.
  apply list_elem_of_fmap in Hp as (n & -> & _). eauto.
Qed.

Lemma glob_missing (fs : FS) (d : Path) (pat : string) :
  Fs.exists_ fs d = false -> Fs.glob fs d pat = [].
Proof.
  unfold Fs.exists_, Fs.is_dir, Fs.glob, Fs.listdir. intros H.
  apply orb_false_iff in H as [H _]. apply orb_false_iff in H as [_ H].
  apply bool_decide_eq_false in H.
  destruct (fs_dirs fs !! d) as [l|]; [exfalso; eauto | reflexivity].
Qed.

(** When the images of a split have pairwise different stems and
    [clean_split] runs to its end, every image that was listed is either
    gone or untouched, verified, and labelled by a label file that is
    there and not empty; and the three numbers of removed files that are
    printed add up to the number of listed images that are gone. *)
Theorem clean_split_cleans (split : string)
    (st st' : Script.State Preprocess.Line) :
  let images :=
    Fs.glob (Script.st_fs st) (Preprocess.image_dir split) "*.*" in
  NoDup (Pathlib.stem <$> images) ->
  Preprocess.clean_split verifies codec_size dir_size split st
    = (st', Script.Done tt) ->
  Forall (cleaned_ (Preprocess.label_dir split) (Script.st_fs st)
            (Script.st_fs st')) images
  /\ (Fs.exists_ (Script.st_fs st) (Preprocess.image_dir split) = true ->
      exists ri rl c m e,
        Script.st_out st'
        = Script.st_out st
          ++ [Preprocess.Processing split; Preprocess.RemainingImages ri;
              Preprocess.RemainingLabels rl; Preprocess.RemovedCorrupt c;
              Preprocess.RemovedMissingLabels m;
              Preprocess.RemovedEmptyLabels e]
        /\ (c + m + e)%nat
           = length (filter (fun img =>
                               Fs.is_file (Script.st_fs st') img = false)
                            images))
  /\ (Fs.exists_ (Script.st_fs st) (Preprocess.image_dir split) = false ->
      Script.st_fs st' = Script.st_fs st
      /\ Script.st_out st'
         = Script.st_out st
           ++ [Preprocess.Processing split; Preprocess.SplitNotFound split]).
Proof.
  intros images Hnd Hrun.
  unfold Preprocess.clean_split, mbind, Script.T_bind, Script.bind in Hrun.
  cbn [Script.say Script.st_fs] in Hrun.
  destruct (Fs.exists_ (Script.st_fs st) (Preprocess.image_dir split))
    eqn:Hex; cbn [negb] in Hrun.
  - fold images in Hrun.
    match type of Hrun with
    | context [Preprocess.clean_loop _ _ _ ?ld ?im ?t0 ?s0] =>
        destruct (Preprocess.clean_loop verifies codec_size dir_size
                    ld im t0 s0) as [s1 [t|f]] eqn:Hloop;
          [|discriminate Hrun]
    end.
    pose proof (clean_loop_footprint _ _ _ _ _ _ Hloop) as (_ & Hout & _).
    apply (clean_loop_post (Preprocess.image_dir split)) in Hloop
      as [Hcl Hcount];
      [|apply image_label_dirs_differ | apply glob_children | exact Hnd].
    simpl in Hrun, Hcl, Hcount, Hout. injection Hrun as <-. simpl.
    split; [exact Hcl|]. split; [|discriminate].
    intros _. do 5 eexists. rewrite Hout, <- !app_assoc.
    split; [reflexivity|]. exact Hcount.
  - injection Hrun as <-. simpl. split.
    + subst images. rewrite (glob_missing _ _ _ Hex). constructor.
    + split; [discriminate|]. intros _. rewrite <- app_assoc. auto.
Qed.






End Cleaning.

Lemma clean_split_cleans_witness :
  let st : Script.State Preprocess.Line :=
    {| Script.st_fs := Fixtures.split_fs; Script.st_clock := 0;
       Script.st_out := [] |} in
  let run :=
    Preprocess.clean_split Fixtures.verifies (fun _ => 1) (fun _ => 4096)
      "train" st in
  Script.st_out run.1
  = [Preprocess.Processing "train"; Preprocess.RemainingImages 1;
     Preprocess.RemainingLabels 1; Preprocess.RemovedCorrupt 1;
     Preprocess.RemovedMissingLabels 1; Preprocess.RemovedEmptyLabels 1]
  /\ Forall (cleaned Fixtures.verifies (fun _ => 1) (fun _ => 4096)
               (Preprocess.label_dir "train") Fixtures.split_fs
               (Script.st_fs run.1))
       (Fs.glob Fixtures.split_fs (Preprocess.image_dir "train") "*.*").
Proof.
  intros st run. split; [vm_compute; reflexivity|].
  apply (clean_split_cleans Fixtures.verifies (fun _ => 1) (fun _ => 4096)
           "train" st run.1).
  - apply (bool_decide_unpack _). vm_compute. exact I.
  - vm_compute. reflexivity.
Defined.

